(** * Voice transformation: the effect pipeline of [voice_transformation.py]

    A shallow embedding of the signal-processing stages and of the two presets
    ("radio" and "walkie"), followed by the properties of the stages.

    Numbers.  Python and NumPy numbers are modelled as exact rationals [Q]:
    an [int], a [float] and a [bool] ([True] is [1], [False] is [0]) are all
    rationals here, and an array of samples is a [list Q].  Arithmetic is
    therefore exact; rounding error of binary floating point is not modelled.
    Equality of samples is [Qeq] (written [==]), the equality of values.
    Where NumPy would produce [inf] or [nan] (a NumPy scalar divided by zero)
    the model yields Rocq's [x / 0 == 0]; where Python raises
    (scalar division by zero, an empty reduction, a rejected filter design,
    a keyword argument that names a positional parameter) the model raises
    too.  Rationals have no largest value: the [OverflowError] of a Python
    integer too large for a double ([2 ** (bits - 1)] from a depth of 1025)
    is outside the model, and so are the sizes that librosa computes in
    double precision, which are the exact ones here.

    External libraries.  SciPy's filter design and zero-phase kernel,
    the resampler behind librosa, the random generator, and the elementary
    functions [sqrt], [sin], [exp] are operations of the class [Externals];
    the embedding keeps the argument checks and the shape handling that
    SciPy, NumPy and librosa perform around them.

    Audio is mono, a one-dimensional array, as [librosa.load] returns it.
    The messages that the functions print are not part of the model. *)

From Stdlib Require Import QArith Qround Qabs Qminmax Qpower ZArith Lia Lqa String List.
From Stdlib Require Qcanon.
From stdpp Require Import gmap strings list.

Local Open Scope Q_scope.

(** ** Exceptions and results *)

Inductive exn : Type :=
| ValueError (msg : string)
| ZeroDivisionError (msg : string)
| TypeError (msg : string).

Inductive result (A : Type) : Type :=
| Ok (a : A)
| Raise (e : exn).
Arguments Ok {A} a.
Arguments Raise {A} e.

Definition rbind {A B} (r : result A) (k : A -> result B) : result B :=
  match r with
  | Ok a => k a
  | Raise e => Raise e
  end.

(** ** Python scalars *)

#[global] Instance Q_inhabited : Inhabited Q := populate 0.

(** [x / y] on Python scalars raises on a zero divisor. *)
Definition py_div (x y : Q) : result Q :=
  if Qeq_bool y 0 then Raise (ZeroDivisionError "float division by zero")
  else Ok (x / y).

(** [int(x)]: truncation toward zero. *)
Definition py_int (x : Q) : Z := Z.quot (Qnum x) (Zpos (Qden x)).

(** [np.ceil]. *)
Definition np_ceil (x : Q) : Z := Qceiling x.

(** [np.round] and Python's [round]: nearest integer, ties to even. *)
Definition np_round (x : Q) : Z :=
  let f := Qfloor x in
  match Qcompare (x - inject_Z f) (1 # 2) with
  | Lt => f
  | Gt => (f + 1)%Z
  | Eq => if Z.even f then f else (f + 1)%Z
  end.

(** Truth value of a number, as in [if x:]. *)
Definition truthy (x : Q) : bool := negb (Qeq_bool x 0).

Definition Qlt_bool (x y : Q) : bool :=
  match Qcompare x y with Lt => true | _ => false end.

(** ** NumPy arrays as lists *)

Definition np_abs (a : list Q) : list Q := map Qabs a.

Definition np_scale (a : list Q) (c : Q) : list Q := map (fun x => x * c) a.

(** An element-wise binary operation on two one-dimensional arrays: the
    shapes must agree, or one operand has a single element, which is
    broadcast; otherwise NumPy raises. *)
Definition np_binop (f : Q -> Q -> Q) (a b : list Q) : result (list Q) :=
  if Nat.eqb (length a) (length b) then Ok (zip_with f a b)
  else
    match a, b with
    | [x], _ => Ok (map (f x) b)
    | _, [y] => Ok (map (fun x => f x y) a)
    | _, _ => Raise (ValueError "operands could not be broadcast together")
    end.

Definition np_add : list Q -> list Q -> result (list Q) := np_binop Qplus.
Definition np_mul : list Q -> list Q -> result (list Q) := np_binop Qmult.

(** [np.max]: raises on an empty array. *)
Definition np_max (a : list Q) : result Q :=
  match a with
  | [] => Raise (ValueError "zero-size array to reduction operation maximum which has no identity")
  | x :: xs => Ok (fold_left Qmax xs x)
  end.

(** [np.linspace(start, stop, num)], end point included. *)
Definition np_linspace (start stop : Q) (num : nat) : list Q :=
  map (fun i => start + inject_Z (Z.of_nat i) * ((stop - start) / inject_Z (Z.of_nat num - 1)))
      (seq 0 num).

(** [np.tile(a, reps)] for a one-dimensional array. *)
Fixpoint np_tile (a : list Q) (reps : nat) : list Q :=
  match reps with
  | O => []
  | S r => a ++ np_tile a r
  end.

(** [arr\[start:stop\] = vals] on a slice that lies inside [arr]: the value
    must have the slice's shape, or one element, which is broadcast. *)
Definition set_slice (arr : list Q) (start stop : nat) (vals : list Q) : result (list Q) :=
  if Nat.eqb (length vals) (stop - start)%nat then
    Ok (take start arr ++ vals ++ drop stop arr)
  else
    match vals with
    | [v] => Ok (take start arr ++ replicate (stop - start)%nat v ++ drop stop arr)
    | _ => Raise (ValueError "could not broadcast input array")
    end.

(** ** The monads of the embedding

    Pure stages return a [result].  Stages that draw random numbers, and
    [process_audio], which writes the output file, run in [M]: a state monad
    over the [world] whose computations may raise.  An exception leaves the
    world as it was when it was raised. *)

Record world : Type := World {
  rng_pos : nat;                        (* variates consumed from the generator *)
  written : list (string * (list Q * Q)) (* files written so far: path, samples, rate *)
}.

Definition M (A : Type) : Type := world -> result A * world.

#[global] Instance result_ret : MRet result := fun _ a => Ok a.
#[global] Instance result_bind : MBind result := fun _ _ k r => rbind r k.

#[global] Instance M_ret : MRet M := fun _ a w => (Ok a, w).
#[global] Instance M_bind : MBind M := fun _ _ k c w =>
  match c w with
  | (Ok a, w') => k a w'
  | (Raise e, w') => (Raise e, w')
  end.

(** A pure computation as a stateful one. *)
Definition lift {A} (r : result A) : M A := fun w => (r, w).

(** ** Operations of the external libraries *)

Inductive btype : Type := LowPass | HighPass | BandPass.

Class Externals : Type := {
  (** the standard normal variates the generator yields, in order *)
  gauss : nat -> Q;
  (** [sqrt], [sin], [exp], [pi] and [2 ** x] for a non-integral [x] *)
  np_sqrt : Q -> Q;
  np_sin : Q -> Q;
  np_exp : Q -> Q;
  np_pi : Q;
  real_pow2 : Q -> Q;
  (** the resampling kernel behind [librosa.resample] (input, rate in, rate out) *)
  resample_kernel : list Q -> Q -> Q -> list Q;
  (** the coefficients [(b, a)] of a Butterworth design of order [N] *)
  butter_design : nat -> btype -> list Q -> list Q * list Q;
  (** the forward-backward filtering kernel of [scipy.signal.filtfilt] *)
  zero_phase : list Q -> list Q -> list Q -> list Q;
  (** [librosa.load(path, sr=None)]: the samples and the file's rate *)
  librosa_load : string -> result (list Q * Q);
  (** the dust resource as loaded at a rate: [None] when the file is absent *)
  dust_resource : Q -> option (result (list Q))
}.

(** Number of coefficients of a digital Butterworth design of order [N]. *)
Definition ntaps (N : nat) (bt : btype) : nat :=
  match bt with
  | BandPass => 2 * N + 1
  | _ => N + 1
  end.

(** What SciPy guarantees of the two numeric kernels: the denominator of a
    design has [ntaps] coefficients and the numerator no more, and filtering
    keeps the array's shape. *)
Class ExternalsOk (E : Externals) : Prop := {
  butter_design_taps : forall N bt Wn,
    (length (fst (butter_design N bt Wn)) <= ntaps N bt)%nat /\
    length (snd (butter_design N bt Wn)) = ntaps N bt;
  zero_phase_length : forall b a x, length (zero_phase b a x) = length x
}.

Section Stages.
Context {E : Externals}.

(** [np.random.normal(loc, scale, size)] on the global generator. *)
Definition np_random_normal (loc scale : Q) (size : Z) : M (list Q) := fun w =>
  if Qlt_bool scale 0 then (Raise (ValueError "scale < 0"), w)
  else if (size <? 0)%Z then (Raise (ValueError "negative dimensions are not allowed"), w)
  else
    let n := Z.to_nat size in
    (Ok (map (fun k => loc + scale * gauss (rng_pos w + k)) (seq 0 n)),
     World (rng_pos w + n) (written w)).

(** [a.mean()] and [a.std()]. *)
Definition np_mean (a : list Q) : Q :=
  fold_right Qplus 0 a / inject_Z (Z.of_nat (length a)).

Definition np_std (a : list Q) : Q :=
  let m := np_mean a in
  np_sqrt (np_mean (map (fun x => Qabs (x - m) * Qabs (x - m)) a)).

(** [2 ** e]. *)
Definition py_pow2 (e : Q) : Q :=
  let r := Qred e in
  if Pos.eqb (Qden r) 1 then Qpower 2 (Qnum r) else real_pow2 e.

(** [scipy.signal.butter(N, Wn, btype)]: the argument checks of [iirfilter],
    then the design. *)
Definition signal_butter (N : nat) (Wn : list Q) (bt : btype) : result (list Q * list Q) :=
  if existsb (fun w => Qle_bool w 0) Wn then
    Raise (ValueError "filter critical frequencies must be greater than 0")
  else if match Wn with w0 :: w1 :: _ => negb (Qlt_bool w0 w1) | _ => false end then
    Raise (ValueError "Wn[0] must be less than Wn[1]")
  else if existsb (fun w => Qle_bool 1 w) Wn then
    Raise (ValueError "Digital filter critical frequencies must be 0 < Wn < 1")
  else
    match bt with
    | BandPass =>
        if (length Wn <? 2)%nat then
          Raise (ValueError "Wn must specify start and stop frequencies for bandpass or bandstop filter")
        else Ok (butter_design N bt Wn)
    | _ =>
        if negb (Nat.eqb (length Wn) 1) then
          Raise (ValueError "Must specify a single critical frequency Wn for lowpass or highpass filter")
        else Ok (butter_design N bt Wn)
    end.

(** [scipy.signal.filtfilt(b, a, x)] with the default padding: the input
    must be longer than [3 * max(len(a), len(b))] samples. *)
Definition signal_filtfilt (b a x : list Q) : result (list Q) :=
  let edge := (3 * Nat.max (length a) (length b))%nat in
  if (length x <=? edge)%nat then
    Raise (ValueError "The length of the input vector x must be greater than padlen")
  else Ok (zero_phase b a x).

(** [librosa.util.fix_length(data, size=size)]: crop, or pad with zeros. *)
Definition fix_length (data : list Q) (size : nat) : list Q :=
  take size (data ++ replicate (size - length data)%nat 0).

(** [librosa.resample(y, orig_sr=orig_sr, target_sr=target_sr)].  The size
    [n_samples] is the ceiling of the exact product here; librosa takes it
    of the product in double precision, which can lie just above an integer
    that the exact product equals, and then gives one sample more. *)
Definition librosa_resample (y : list Q) (orig_sr target_sr : Q) : result (list Q) :=
  if Qeq_bool orig_sr target_sr then Ok y
  else
    ratio ← py_div target_sr orig_sr;
    let n_samples := np_ceil (inject_Z (Z.of_nat (length y)) * ratio) in
    if Qle_bool orig_sr 0 || Qle_bool target_sr 0 then
      Raise (ValueError "Sample rate should be > 0")
    else Ok (fix_length (resample_kernel y orig_sr target_sr) (Z.to_nat n_samples)).

(** ** The stages of [voice_transformation.py] *)

Definition add_noise (audio : list Q) (noise_factor : Q) : M (list Q) :=
  normal ← np_random_normal 0 (np_std audio) (Z.of_nat (length audio));
  let noise := np_scale normal noise_factor in
  lift (np_add audio noise).

Definition apply_bandpass_filter (audio : list Q) (sr low_cutoff high_cutoff : Q)
  : result (list Q) :=
  let nyquist := (1 # 2) * sr in
  low ← py_div low_cutoff nyquist;
  high ← py_div high_cutoff nyquist;
  ba ← signal_butter 4 [low; high] BandPass;
  signal_filtfilt (fst ba) (snd ba) audio.

Definition apply_highpass_filter (audio : list Q) (sr cutoff : Q) : result (list Q) :=
  let nyquist := (1 # 2) * sr in
  normalized_cutoff ← py_div cutoff nyquist;
  ba ← signal_butter 4 [normalized_cutoff] HighPass;
  signal_filtfilt (fst ba) (snd ba) audio.

Definition apply_lowpass_filter (audio : list Q) (sr cutoff : Q) : result (list Q) :=
  let nyquist := (1 # 2) * sr in
  normalized_cutoff ← py_div cutoff nyquist;
  ba ← signal_butter 4 [normalized_cutoff] LowPass;
  signal_filtfilt (fst ba) (snd ba) audio.

(** [np.clip(x, lo, hi)]. *)
Definition np_clip (x lo hi : Q) : Q := Qmin (Qmax x lo) hi.

Definition apply_distortion (audio : list Q) (amount : Q) : list Q :=
  map (fun x => np_clip (x * amount) (-1) 1) audio.

(** Lines 42 to 44.  The scale [2 ** (bits - 1)] is exact for every depth;
    in the code it must convert to a double, which holds up to a depth of
    1024. *)
Definition apply_bit_crusher (audio : list Q) (bits : Q) : list Q :=
  let max_val := py_pow2 (bits - 1) in
  map (fun x => inject_Z (np_round (x * max_val)) / max_val) audio.

Definition add_static_effect (audio : list Q) (static_level static_freq : Q) : M (list Q) :=
  normal ← np_random_normal 0 1 (Z.of_nat (length audio));
  let static := np_scale normal static_level in
  let t := np_linspace 0 1 (length audio) in
  let envelope := map (fun ti => (1 # 2) * (1 + np_sin (2 * np_pi * static_freq * ti))) t in
  modulated ← lift (np_mul static envelope);
  lift (np_add audio modulated).

Definition reduce_sample_rate (audio : list Q) (original_sr target_sr : Q) : result (list Q) :=
  resampled ← librosa_resample audio original_sr target_sr;
  librosa_resample resampled target_sr original_sr.

(** The loop body of the compressor at index [i]: [gain_envelope] is the
    array as the earlier iterations left it.  [1 / ratio] is a division of
    Python scalars and raises on zero; the divisions by [level], [attack]
    and [release] are NumPy's, which on a zero divisor give [inf] or [nan]
    in the code and [0] here. *)
Definition compression_step (audio : list Q) (threshold ratio : Q) (attack release : Z)
    (gain_envelope : list Q) (i : nat) : result (list Q) :=
  let level := Qabs (audio !!! i) in
  if Qlt_bool threshold level then
    inv_ratio ← py_div 1 ratio;
    let gain_reduction := ((level - threshold) * (1 - inv_ratio)) / level in
    if (0 <? i)%nat then
      let prev := gain_envelope !!! (i - 1)%nat in
      if Qlt_bool prev gain_reduction then
        Ok (<[i := Qmin (prev + (1 - prev) / inject_Z attack) (1 - gain_reduction)]> gain_envelope)
      else
        Ok (<[i := Qmax (prev - prev / inject_Z release) (1 - gain_reduction)]> gain_envelope)
    else Ok (<[i := 1 - gain_reduction]> gain_envelope)
  else Ok gain_envelope.

(** The [for] loop of lines 73 to 91 over a list of indices, from a given
    state of the array; an exception ends it. *)
Definition envelope_loop (audio : list Q) (threshold ratio : Q) (attack release : Z)
    (idxs : list nat) (acc : result (list Q)) : result (list Q) :=
  fold_left
    (fun acc i => gain_envelope ← acc;
                  compression_step audio threshold ratio attack release gain_envelope i)
    idxs acc.

(** Lines 64 to 91 of [apply_compression]: the gain envelope. *)
Definition compression_envelope (audio : list Q) (threshold ratio attack_ms release_ms : Q)
  : result (list Q) :=
  let sr := 22050 in
  let attack := py_int (sr * attack_ms / 1000) in
  let release := py_int (sr * release_ms / 1000) in
  envelope_loop audio threshold ratio attack release
    (seq 0 (length audio)) (Ok (replicate (length audio) 1)).

Definition apply_compression (audio : list Q) (threshold ratio attack_ms release_ms : Q)
  : result (list Q) :=
  gain_envelope ← compression_envelope audio threshold ratio attack_ms release_ms;
  compressed_audio ← np_mul audio gain_envelope;
  peak ← np_max (np_abs compressed_audio);
  if Qlt_bool 0 peak then
    let makeup_gain := Qmin ((95 # 100) / peak) 2 in
    Ok (np_scale compressed_audio makeup_gain)
  else Ok compressed_audio.

Definition add_ptt_artifacts (audio : list Q) (sr : Q) : M (list Q) :=
  let click_duration := 3 # 100 in
  let num_click_samples := py_int (click_duration * sr) in
  click ← np_random_normal 0 1 num_click_samples;
  let nyquist := (1 # 2) * sr in
  low ← lift (py_div 800 nyquist);
  high ← lift (py_div 3000 nyquist);
  ba ← lift (signal_butter 2 [low; high] BandPass);
  click ← lift (signal_filtfilt (fst ba) (snd ba) click);
  let n := Z.to_nat num_click_samples in
  let env := map (fun t => np_exp (- t)) (np_linspace 0 5 n) in
  shaped ← lift (np_mul click env);
  let click := np_scale shaped (2 # 10) in
  let end_click := np_scale (rev click) (15 # 100) in
  let result := replicate (length audio + 2 * n)%nat 0 in
  result ← lift (set_slice result 0 n click);
  result ← lift (set_slice result n (n + length audio) audio);
  result ← lift (set_slice result (n + length audio) (length result) end_click);
  mret result.

Definition mix_with_background (audio background_audio : list Q) (background_level : Q)
  : result (list Q) :=
  background_audio ←
    (if (length background_audio <? length audio)%nat then
       q ← py_div (inject_Z (Z.of_nat (length audio)))
                  (inject_Z (Z.of_nat (length background_audio)));
       let repetitions := py_int (inject_Z (np_ceil q)) in
       Ok (take (length audio) (np_tile background_audio (Z.to_nat repetitions)))
     else if (length audio <? length background_audio)%nat then
       Ok (take (length audio) background_audio)
     else Ok background_audio);
  mixed_audio ← np_add audio (np_scale background_audio background_level);
  peak ← np_max (np_abs mixed_audio);
  if Qlt_bool 1 peak then
    Ok (np_scale (map (fun x => x / peak) mixed_audio) (95 # 100))
  else Ok mixed_audio.

(** ** Style parameters

    [**style_params] is a dictionary from names to numbers;
    [style_params.get(key, dflt)] is [get]. *)

Definition get (style_params : gmap string Q) (key : string) (dflt : Q) : Q :=
  default dflt (style_params !! key).

(** The local variables that lines 160 to 166 of [simulate_old_radio] bind. *)
Record radio_style : Type := RadioStyle {
  radio_low_cutoff : Q;
  radio_high_cutoff : Q;
  radio_distortion_amount : Q;
  radio_noise_factor : Q;
  radio_target_sample_rate : Q;
  radio_dust_level : Q;
  radio_use_dust_effect : Q
}.

Definition radio_style_params (style_params : gmap string Q) : radio_style :=
  {| radio_low_cutoff := get style_params "low_cutoff" 300;
     radio_high_cutoff := get style_params "high_cutoff" 3000;
     radio_distortion_amount := get style_params "distortion_amount" (12 # 10);
     radio_noise_factor := get style_params "noise_factor" (8 # 1000);
     radio_target_sample_rate := get style_params "sample_rate" 8000;
     radio_dust_level := get style_params "dust_level" (2 # 10);
     radio_use_dust_effect := get style_params "use_dust_effect" 1 |}.

(** The local variables that lines 206 to 214 of [simulate_walkie_talkie] bind. *)
Record walkie_style : Type := WalkieStyle {
  walkie_low_cutoff : Q;
  walkie_high_cutoff : Q;
  walkie_distortion_amount : Q;
  walkie_noise_factor : Q;
  walkie_static_level : Q;
  walkie_compression_ratio : Q;
  walkie_attack_ms : Q;
  walkie_release_ms : Q;
  walkie_bit_depth : Q
}.

Definition walkie_style_params (style_params : gmap string Q) : walkie_style :=
  {| walkie_low_cutoff := get style_params "low_cutoff" 300;
     walkie_high_cutoff := get style_params "high_cutoff" 4000;
     walkie_distortion_amount := get style_params "distortion_amount" (105 # 100);
     walkie_noise_factor := get style_params "noise_factor" (1 # 100);
     walkie_static_level := get style_params "static_level" (3 # 100);
     walkie_compression_ratio := get style_params "compression_ratio" 8;
     walkie_attack_ms := get style_params "attack_ms" 5;
     walkie_release_ms := get style_params "release_ms" 150;
     walkie_bit_depth := get style_params "bit_depth" 8 |}.

(** ** The presets *)

(** Lines 178 and 179: the sample rate is reduced only for a target rate
    that is set and below the rate of the audio. *)
Definition degrade (audio : list Q) (sr target_sample_rate : Q) : result (list Q) :=
  if truthy target_sample_rate && Qlt_bool target_sample_rate sr then
    reduce_sample_rate audio sr target_sample_rate
  else Ok audio.

(** Lines 182 to 199: the dust effect.  Whatever is raised inside the [try]
    block is caught, and the audio is then left as it was. *)
Definition add_dust (audio : list Q) (sr dust_level use_dust_effect : Q) : list Q :=
  if truthy use_dust_effect then
    match dust_resource sr with
    | Some (Ok dust_effect) =>
        match mix_with_background audio dust_effect dust_level with
        | Ok mixed => mixed
        | Raise _ => audio
        end
    | Some (Raise _) => audio
    | None => audio
    end
  else audio.

(** The bodies of the two presets, run on the dictionary that Python binds
    to [style_params]: the keyword arguments of the call other than [audio]
    and [sr].  The call itself is [call_with_style_params] below. *)
Definition simulate_old_radio (audio : list Q) (sr : Q) (style_params : gmap string Q)
  : M (list Q) :=
  let p := radio_style_params style_params in
  audio ← lift (apply_bandpass_filter audio sr (radio_low_cutoff p) (radio_high_cutoff p));
  let audio := apply_distortion audio (radio_distortion_amount p) in
  audio ← add_noise audio (radio_noise_factor p);
  audio ← lift (degrade audio sr (radio_target_sample_rate p));
  mret (add_dust audio sr (radio_dust_level p) (radio_use_dust_effect p)).

Definition simulate_walkie_talkie (audio : list Q) (sr : Q) (style_params : gmap string Q)
  : M (list Q) :=
  let p := walkie_style_params style_params in
  audio ← lift (apply_highpass_filter audio sr (walkie_low_cutoff p));
  audio ← lift (apply_lowpass_filter audio sr (walkie_high_cutoff p));
  audio ← lift (apply_compression audio (3 # 10) (walkie_compression_ratio p)
                                  (walkie_attack_ms p) (walkie_release_ms p));
  let audio := apply_distortion audio (walkie_distortion_amount p) in
  let audio := apply_bit_crusher audio (walkie_bit_depth p) in
  audio ← add_ptt_artifacts audio sr;
  audio ← add_noise audio (walkie_noise_factor p);
  audio ← add_static_effect audio (walkie_static_level p) (3 # 10);
  mret audio.

(** [sf.write(output_file, data, sr)]. *)
Definition sf_write (output_file : string) (data : list Q) (sr : Q) : M unit := fun w =>
  (Ok tt, World (rng_pos w) (written w ++ [(output_file, (data, sr))])).

(** The call [f(audio, sr, **style_params)] of a preset, declared as
    [def f(audio, sr, **style_params)] (lines 246 and 248).  Python binds
    the two positional arguments first; a key of the dictionary named
    [audio] or [sr] is then a second value for a parameter that is bound
    already, and the call raises [TypeError] before the body runs.  (With
    both names in the dictionary Python's message names the one that comes
    first in it; the model names [audio].) *)
Definition call_with_style_params (name : string)
    (body : list Q -> Q -> gmap string Q -> M (list Q))
    (audio : list Q) (sr : Q) (style_params : gmap string Q) : M (list Q) :=
  match style_params !! "audio"%string, style_params !! "sr"%string with
  | None, None => body audio sr style_params
  | Some _, _ =>
      lift (Raise (TypeError (name +:+ "() got multiple values for argument 'audio'")))
  | None, Some _ =>
      lift (Raise (TypeError (name +:+ "() got multiple values for argument 'sr'")))
  end.

(** Lines 239 to 254.  [style_params] is the dictionary of the keyword
    arguments of [process_audio] itself, handed on to the preset. *)
Definition process_audio (input_file output_file effect_type : string)
    (style_params : gmap string Q) : M unit :=
  loaded ← lift (librosa_load input_file);
  let audio := fst loaded in
  let sr := snd loaded in
  processed_audio ←
    (if String.eqb effect_type "radio" then
       call_with_style_params "simulate_old_radio" simulate_old_radio audio sr style_params
     else if String.eqb effect_type "walkie" then
       call_with_style_params "simulate_walkie_talkie" simulate_walkie_talkie
                              audio sr style_params
     else lift (Raise (ValueError "Effect type must be 'radio' or 'walkie'")));
  sf_write output_file processed_audio sr.

End Stages.

(** ** Definitions that the statements below compare the code with *)

(** A stage takes a buffer and returns a buffer; a preset is an ordered
    list of stages. *)
Definition stage : Type := list Q -> M (list Q).

(** Composition of two stages: [g] after [f]. *)
Definition then_stage (f g : stage) : stage := fun audio => f audio ≫= g.

(** The composition of a list of stages, the first one applied first. *)
Definition compose_stages (stages : list stage) : stage :=
  fold_left then_stage stages mret.

(** The stages run one after the other, each on the output of the one
    before; a stage that raises ends the run. *)
Fixpoint run_stages (stages : list stage) (audio : list Q) : M (list Q) :=
  match stages with
  | [] => mret audio
  | s :: rest => audio' ← s audio; run_stages rest audio'
  end.

(** The eight stages of the walkie preset, bound to the resolved parameters. *)
Definition walkie_stages {E : Externals} (sr : Q) (p : walkie_style) : list stage :=
  [ fun a => lift (apply_highpass_filter a sr (walkie_low_cutoff p));
    fun a => lift (apply_lowpass_filter a sr (walkie_high_cutoff p));
    fun a => lift (apply_compression a (3 # 10) (walkie_compression_ratio p)
                                     (walkie_attack_ms p) (walkie_release_ms p));
    fun a => mret (apply_distortion a (walkie_distortion_amount p));
    fun a => mret (apply_bit_crusher a (walkie_bit_depth p));
    fun a => add_ptt_artifacts a sr;
    fun a => add_noise a (walkie_noise_factor p);
    fun a => add_static_effect a (walkie_static_level p) (3 # 10) ].

(** The table of defaults of each preset, and the resolved value of a name. *)
Definition radio_default_table : list (string * Q) :=
  [ ("low_cutoff", 300); ("high_cutoff", 3000); ("distortion_amount", 12 # 10);
    ("noise_factor", 8 # 1000); ("sample_rate", 8000); ("dust_level", 2 # 10);
    ("use_dust_effect", 1) ]%string.

Definition walkie_default_table : list (string * Q) :=
  [ ("low_cutoff", 300); ("high_cutoff", 4000); ("distortion_amount", 105 # 100);
    ("noise_factor", 1 # 100); ("static_level", 3 # 100); ("compression_ratio", 8);
    ("attack_ms", 5); ("release_ms", 150); ("bit_depth", 8) ]%string.

Definition radio_field (name : string) (p : radio_style) : option Q :=
  if String.eqb name "low_cutoff" then Some (radio_low_cutoff p)
  else if String.eqb name "high_cutoff" then Some (radio_high_cutoff p)
  else if String.eqb name "distortion_amount" then Some (radio_distortion_amount p)
  else if String.eqb name "noise_factor" then Some (radio_noise_factor p)
  else if String.eqb name "sample_rate" then Some (radio_target_sample_rate p)
  else if String.eqb name "dust_level" then Some (radio_dust_level p)
  else if String.eqb name "use_dust_effect" then Some (radio_use_dust_effect p)
  else None.

Definition walkie_field (name : string) (p : walkie_style) : option Q :=
  if String.eqb name "low_cutoff" then Some (walkie_low_cutoff p)
  else if String.eqb name "high_cutoff" then Some (walkie_high_cutoff p)
  else if String.eqb name "distortion_amount" then Some (walkie_distortion_amount p)
  else if String.eqb name "noise_factor" then Some (walkie_noise_factor p)
  else if String.eqb name "static_level" then Some (walkie_static_level p)
  else if String.eqb name "compression_ratio" then Some (walkie_compression_ratio p)
  else if String.eqb name "attack_ms" then Some (walkie_attack_ms p)
  else if String.eqb name "release_ms" then Some (walkie_release_ms p)
  else if String.eqb name "bit_depth" then Some (walkie_bit_depth p)
  else None.

(** The attack and release updates of the envelope with the times converted
    at a rate [sr], as the specification words them. *)
Definition attack_update_at_rate (sr attack_ms prev g : Q) : Q :=
  Qmin (prev + (1 - prev) / (sr * attack_ms / 1000)) (1 - g).

Definition release_update_at_rate (sr release_ms prev g : Q) : Q :=
  Qmax (prev - prev / (sr * release_ms / 1000)) (1 - g).

(** The target gain reduction of a sample of level [level]. *)
Definition gain_reduction_of (threshold ratio level : Q) : Q :=
  ((level - threshold) * (1 - 1 / ratio)) / level.

(** The value that the loop body writes at index [i] for a sample of level
    [level] above the threshold, [prev] being the envelope at [i - 1]. *)
Definition envelope_update (threshold ratio : Q) (attack release : Z)
    (i : nat) (level prev : Q) : Q :=
  let g := gain_reduction_of threshold ratio level in
  if (0 <? i)%nat then
    if Qlt_bool prev g then Qmin (prev + (1 - prev) / inject_Z attack) (1 - g)
    else Qmax (prev - prev / inject_Z release) (1 - g)
  else 1 - g.

(** The length that [librosa_resample] gives its output for an input of
    [n] samples: the ceiling of the exact product. *)
Definition resample_length (n : nat) (orig_sr target_sr : Q) : nat :=
  if Qeq_bool orig_sr target_sr then n
  else Z.to_nat (Qceiling (inject_Z (Z.of_nat n) * (target_sr / orig_sr))).

(** The peak of an array lies within a bound. *)
Definition peak_le (a : list Q) (bound : Q) : Prop :=
  exists peak, np_max (np_abs a) = Ok peak /\ peak <= bound.

(** ** An instance of the external operations

    Identity kernels, a silent generator and a forty-sample input file: the
    instance on which the statements below are exercised. *)
Definition plain_externals : Externals := {|
  gauss := fun _ => 0;
  np_sqrt := fun x => x;
  np_sin := fun _ => 0;
  np_exp := fun _ => 1;
  np_pi := 355 # 113;
  real_pow2 := fun _ => 1;
  resample_kernel := fun y _ _ => y;
  butter_design := fun N bt _ => (replicate (ntaps N bt) 1, replicate (ntaps N bt) 1);
  zero_phase := fun _ _ x => x;
  librosa_load := fun _ => Ok (replicate 40 (1 # 2), 22050);
  dust_resource := fun _ => None
|}.

Definition world0 : world := World 0 [].

Definition three_samples : list Q := [0; 1 # 2; 0].

(** ** The caller in [api_server.py]

    [StyleParams] is the request's optional block of parameters: every field
    is optional.  [request.style_params.dict(exclude_none=True)] keeps the
    fields that are set; a request without the block passes no parameter. *)

Record StyleParams : Type := {
  sp_noise_factor : option Q;
  sp_distortion_amount : option Q;
  sp_low_cutoff : option Q;
  sp_high_cutoff : option Q;
  sp_sample_rate : option Q;
  sp_compression_ratio : option Q;
  sp_attack_ms : option Q;
  sp_release_ms : option Q;
  sp_bit_depth : option Q;
  sp_static_level : option Q
}.

(** The fields of [StyleParams] by name, in the order of the class. *)
Definition StyleParams_fields (p : StyleParams) : list (string * option Q) :=
  [ ("noise_factor", sp_noise_factor p);
    ("distortion_amount", sp_distortion_amount p);
    ("low_cutoff", sp_low_cutoff p);
    ("high_cutoff", sp_high_cutoff p);
    ("sample_rate", sp_sample_rate p);
    ("compression_ratio", sp_compression_ratio p);
    ("attack_ms", sp_attack_ms p);
    ("release_ms", sp_release_ms p);
    ("bit_depth", sp_bit_depth p);
    ("static_level", sp_static_level p) ]%string.

(** [p.dict(exclude_none=True)]. *)
Definition dict_exclude_none (p : StyleParams) : gmap string Q :=
  fold_right
    (fun kv acc => match snd kv with Some v => <[fst kv := v]> acc | None => acc end)
    ∅ (StyleParams_fields p).

(** Lines 187 to 190 of [transform_audio] (and 120 to 122 of
    [transform_url]): the keyword arguments handed to [process_audio]. *)
Definition request_style_params (style_params : option StyleParams) : gmap string Q :=
  match style_params with
  | Some p => dict_exclude_none p
  | None => ∅
  end.

(** The samples of an array lie within [-1, 1]. *)
Definition within_unit (a : list Q) : Prop := Forall (fun x => -1 <= x /\ x <= 1) a.

(** Two arrays hold equal values, index by index. *)
Definition same_values (a b : list Q) : Prop := Forall2 Qeq a b.

(** The body that the high-pass and the low-pass filter share, the kind of
    the filter apart. *)
Definition single_cutoff_filter {E : Externals} (bt : btype) (audio : list Q) (sr cutoff : Q)
  : result (list Q) :=
  normalized_cutoff ← py_div cutoff ((1 # 2) * sr);
  ba ← signal_butter 4 [normalized_cutoff] bt;
  signal_filtfilt (fst ba) (snd ba) audio.

(** Two small buffers on which the mixer is exercised. *)
Definition five_ones : list Q := [1; 1; 1; 1; 1].
Definition alternating_pair : list Q := [1; -1].

(** The draws of [np.random.normal(loc, scale, n)] from a position. *)
Definition draws_from {E : Externals} (loc scale : Q) (pos n : nat) : list Q :=
  map (fun k => loc + scale * gauss (pos + k)) (seq 0 n).

(** A computation that leaves the written files as they are, whether it
    returns or raises. *)
Definition keeps_files {A} (c : M A) : Prop :=
  forall w, written (snd (c w)) = written w.

(** The names of the fields of [StyleParams]. *)
Definition StyleParams_names : list string :=
  [ "noise_factor"; "distortion_amount"; "low_cutoff"; "high_cutoff"; "sample_rate";
    "compression_ratio"; "attack_ms"; "release_ms"; "bit_depth"; "static_level" ]%string.

(** A request block that sets two fields. *)
Definition two_field_block : StyleParams :=
  {| sp_noise_factor := Some (1 # 50);
     sp_distortion_amount := None;
     sp_low_cutoff := None;
     sp_high_cutoff := Some 2500;
     sp_sample_rate := None;
     sp_compression_ratio := None;
     sp_attack_ms := None;
     sp_release_ms := None;
     sp_bit_depth := None;
     sp_static_level := None |}.

(** * Properties *)

(** ** Scalars *)

Lemma Qlt_bool_iff (x y : Q) : Qlt_bool x y = true <-> x < y.
Proof.
  unfold Qlt_bool. split.
  - intros H. apply (proj2 (Qlt_alt _ _)). destruct (Qcompare x y); congruence.
  - intros H. apply (proj1 (Qlt_alt _ _)) in H. rewrite H. reflexivity.
Qed.

Lemma Qlt_bool_false (x y : Q) : Qlt_bool x y = false <-> y <= x.
Proof.
  split.
  - intros H. apply Qnot_lt_le. intros Hlt.
    apply Qlt_bool_iff in Hlt. congruence.
  - intros H. apply not_true_iff_false. intros Hlt.
    apply Qlt_bool_iff in Hlt. exact (Qle_not_lt _ _ H Hlt).
Qed.

Lemma Qle_bool_false (x y : Q) : Qle_bool x y = false <-> y < x.
Proof.
  split.
  - intros H. apply Qnot_le_lt. intros Hle.
    apply Qle_bool_iff in Hle. congruence.
  - intros H. apply not_true_iff_false. intros Hle.
    apply Qle_bool_iff in Hle. exact (Qlt_not_le _ _ H Hle).
Qed.

Lemma Qeq_bool_false (x y : Q) : Qeq_bool x y = false <-> ~ x == y.
Proof.
  split.
  - intros H Heq. apply Qeq_bool_iff in Heq. congruence.
  - intros H. apply not_true_iff_false. intros Heq.
    apply Qeq_bool_iff in Heq. exact (H Heq).
Qed.

Lemma py_div_ok (x y : Q) : ~ y == 0 -> py_div x y = Ok (x / y).
Proof.
  intros Hy. unfold py_div.
  apply Qeq_bool_false in Hy. rewrite Hy. reflexivity.
Qed.

Lemma py_int_inject_Z (z : Z) : py_int (inject_Z z) = z.
Proof. unfold py_int. simpl. apply Z.quot_1_r. Qed.

Lemma py_int_nonneg (x : Q) : 0 <= x -> py_int x = Qfloor x.
Proof.
  intros Hx. unfold py_int. destruct x as [n d]. simpl.
  assert (0 <= n)%Z.
  { unfold Qle in Hx. simpl in Hx. lia. }
  rewrite Z.quot_div_nonneg by lia. reflexivity.
Qed.

Example np_round_ties_to_even :
  (np_round (5 # 2), np_round (7 # 2), np_round (-5 # 2), np_round (33075 # 100))
  = (2, 4, -2, 331)%Z.
Proof. reflexivity. Qed.

Example py_int_truncates : (py_int (-7 # 2), py_int (7 # 2), py_int (33075 # 100)) = (-3, 3, 330)%Z.
Proof. reflexivity. Qed.

Lemma np_round_inject_Z (k : Z) : np_round (inject_Z k) = k.
Proof.
  unfold np_round. rewrite Qfloor_Z.
  assert (H : Qcompare (inject_Z k - inject_Z k) (1 # 2) = Lt).
  { apply (proj1 (Qlt_alt _ _)). lra. }
  rewrite H. reflexivity.
Qed.

#[global] Instance np_round_proper : Proper (Qeq ==> eq) np_round.
Proof.
  intros x y Hxy. unfold np_round.
  rewrite (Qfloor_comp x y Hxy).
  assert (H : Qcompare (x - inject_Z (Qfloor y)) (1 # 2)
            = Qcompare (y - inject_Z (Qfloor y)) (1 # 2)).
  { apply Qcompare_comp; [rewrite Hxy|]; reflexivity. }
  rewrite H. reflexivity.
Qed.

Section ScalarsOfExternals.
Context {E : Externals}.

Lemma py_pow2_integer (z : Z) (e : Q) : e == inject_Z z -> py_pow2 e = Qpower 2 z.
Proof.
  intros He. unfold py_pow2.
  rewrite (Qred_complete _ _ He).
  rewrite Qcanon.Qred_identity by (simpl; apply Z.gcd_1_r).
  reflexivity.
Qed.

Lemma py_pow2_positive (z : Z) (e : Q) : e == inject_Z z -> 0 < py_pow2 e.
Proof.
  intros He. rewrite (py_pow2_integer z e He).
  apply Qpower_0_lt. reflexivity.
Qed.

End ScalarsOfExternals.

(** ** Arrays *)

Lemma np_binop_same_length (f : Q -> Q -> Q) (a b : list Q) :
  length a = length b -> np_binop f a b = Ok (zip_with f a b).
Proof.
  intros H. unfold np_binop.
  rewrite (proj2 (Nat.eqb_eq _ _) H). reflexivity.
Qed.

Lemma length_np_scale (a : list Q) (c : Q) : length (np_scale a c) = length a.
Proof. unfold np_scale. apply length_map. Qed.

Lemma length_np_abs (a : list Q) : length (np_abs a) = length a.
Proof. unfold np_abs. apply length_map. Qed.

Lemma length_np_linspace (start stop : Q) (n : nat) : length (np_linspace start stop n) = n.
Proof. unfold np_linspace. rewrite length_map. apply length_seq. Qed.

Lemma length_np_tile (a : list Q) (reps : nat) :
  length (np_tile a reps) = (reps * length a)%nat.
Proof.
  induction reps as [|r IH]; simpl; [reflexivity|].
  rewrite length_app, IH. reflexivity.
Qed.

Lemma length_zip_with_same (f : Q -> Q -> Q) (a b : list Q) :
  length a = length b -> length (zip_with f a b) = length a.
Proof. intros H. rewrite length_zip_with. lia. Qed.

Lemma set_slice_ok (arr : list Q) (start stop : nat) (vals : list Q) :
  length vals = (stop - start)%nat ->
  set_slice arr start stop vals = Ok (take start arr ++ vals ++ drop stop arr).
Proof.
  intros H. unfold set_slice.
  rewrite (proj2 (Nat.eqb_eq _ _) H). reflexivity.
Qed.

Lemma set_slice_length (arr : list Q) (start stop : nat) (vals : list Q) :
  (start <= stop <= length arr)%nat ->
  length vals = (stop - start)%nat ->
  length (take start arr ++ vals ++ drop stop arr) = length arr.
Proof.
  intros Hb Hv.
  rewrite !length_app, length_take, length_drop. lia.
Qed.

(** The maximum of a non-empty array is one of its elements and bounds all
    of them. *)
Lemma fold_left_Qmax_In (xs : list Q) (x : Q) :
  In (fold_left Qmax xs x) (x :: xs).
Proof.
  revert x. induction xs as [|y ys IH]; intros x; simpl.
  - left. reflexivity.
  - destruct (IH (Qmax x y)) as [H|H].
    + rewrite <- H. unfold Qmax, GenericMinMax.gmax.
      destruct (Qcompare x y); auto.
    + right. right. exact H.
Qed.

Lemma fold_left_Qmax_ge_init (xs : list Q) (x : Q) : x <= fold_left Qmax xs x.
Proof.
  revert x. induction xs as [|y ys IH]; intros x; simpl.
  - apply Qle_refl.
  - eapply Qle_trans; [apply (Q.le_max_l x y)|apply IH].
Qed.

Lemma fold_left_Qmax_upper (xs : list Q) (x z : Q) :
  In z (x :: xs) -> z <= fold_left Qmax xs x.
Proof.
  revert x. induction xs as [|y ys IH]; intros x Hin; simpl.
  - destruct Hin as [->|[]]. apply Qle_refl.
  - destruct Hin as [->|[->|Hin]].
    + eapply Qle_trans; [apply (Q.le_max_l z y)|apply fold_left_Qmax_ge_init].
    + eapply Qle_trans; [apply (Q.le_max_r x z)|apply fold_left_Qmax_ge_init].
    + apply IH. right. exact Hin.
Qed.

Lemma np_max_nonempty (a : list Q) : a <> [] -> exists p, np_max a = Ok p.
Proof. destruct a as [|x xs]; [congruence|]. intros _. eexists. reflexivity. Qed.

Lemma np_max_In (a : list Q) (p : Q) : np_max a = Ok p -> In p a.
Proof.
  destruct a as [|x xs]; simpl; [discriminate|].
  intros [= <-]. apply fold_left_Qmax_In.
Qed.

Lemma np_max_upper (a : list Q) (p z : Q) : np_max a = Ok p -> In z a -> z <= p.
Proof.
  destruct a as [|x xs]; simpl; [discriminate|].
  intros [= <-]. apply fold_left_Qmax_upper.
Qed.

Lemma np_max_abs_nonneg (a : list Q) (p : Q) : np_max (np_abs a) = Ok p -> 0 <= p.
Proof.
  intros H. apply np_max_In in H. unfold np_abs in H.
  apply in_map_iff in H. destruct H as [x [<- _]]. apply Qabs_nonneg.
Qed.

(** ** The bit crusher *)

Section BitCrusher.
Context {E : Externals}.

(** One quantised sample is left as it is by a second quantisation with a
    non-zero scale. *)
Lemma requantise_sample (x max_val : Q) :
  ~ max_val == 0 ->
  np_round (inject_Z (np_round (x * max_val)) / max_val * max_val) = np_round (x * max_val).
Proof.
  intros Hm.
  assert (H : inject_Z (np_round (x * max_val)) / max_val * max_val
              == inject_Z (np_round (x * max_val))).
  { field. exact Hm. }
  rewrite H. apply np_round_inject_Z.
Qed.

Lemma apply_bit_crusher_idempotent_scale (audio : list Q) (bits : Q) :
  ~ py_pow2 (bits - 1) == 0 ->
  apply_bit_crusher (apply_bit_crusher audio bits) bits = apply_bit_crusher audio bits.
Proof.
  intros Hm. unfold apply_bit_crusher.
  rewrite map_map. apply map_ext. intros x.
  rewrite requantise_sample by exact Hm. reflexivity.
Qed.

(** C5.  The bit crusher is idempotent: for every buffer [audio] and every
    integral bit depth [b >= 1], crushing an already crushed buffer with the
    same depth returns it unchanged, sample by sample. *)
Theorem apply_bit_crusher_idempotent (audio : list Q) (b : Z) :
  (1 <= b)%Z ->
  apply_bit_crusher (apply_bit_crusher audio (inject_Z b)) (inject_Z b)
  = apply_bit_crusher audio (inject_Z b).
Proof.
  intros Hb. apply apply_bit_crusher_idempotent_scale.
  assert (Hpos : 0 < py_pow2 (inject_Z b - 1)).
  { apply (py_pow2_positive (b - 1)).
    unfold Z.sub. rewrite inject_Z_plus, inject_Z_opp. reflexivity. }
  intros H0. rewrite H0 in Hpos. exact (Qlt_irrefl _ Hpos).
Qed.

(** The scale of a depth [b >= 1] is the integer [2^(b-1)]. *)
Lemma bit_crusher_scale (b : Z) :
  (1 <= b)%Z -> py_pow2 (inject_Z b - 1) == inject_Z (2 ^ (b - 1)).
Proof.
  intros Hb.
  rewrite (py_pow2_integer (b - 1)).
  - rewrite Zpower_Qpower by lia. reflexivity.
  - unfold Z.sub. rewrite inject_Z_plus, inject_Z_opp. reflexivity.
Qed.

End BitCrusher.

Lemma apply_bit_crusher_idempotent_witness :
  apply_bit_crusher (E := plain_externals)
    (apply_bit_crusher (E := plain_externals) [1 # 3; -7 # 10; 1] (inject_Z 8)) (inject_Z 8)
  = apply_bit_crusher (E := plain_externals) [1 # 3; -7 # 10; 1] (inject_Z 8).
Proof.
  apply (@apply_bit_crusher_idempotent plain_externals [1 # 3; -7 # 10; 1] 8%Z).
  lia.
Defined.

(** ** The compressor's gain envelope *)

Section Envelope.
Variables (audio : list Q) (threshold ratio : Q) (attack release : Z).

Local Abbreviation envelope_loop := (envelope_loop audio threshold ratio attack release).
Local Abbreviation envelope_update := (envelope_update threshold ratio attack release).

Lemma envelope_loop_raise (idxs : list nat) (e : exn) :
  envelope_loop idxs (Raise e) = Raise e.
Proof. induction idxs as [|i idxs IH]; simpl; [reflexivity|exact IH]. Qed.

Lemma envelope_loop_cons (i : nat) (idxs : list nat) (env : list Q) :
  envelope_loop (i :: idxs) (Ok env)
  = envelope_loop idxs (compression_step audio threshold ratio attack release env i).
Proof. reflexivity. Qed.

Lemma envelope_loop_app (l1 l2 : list nat) (acc : result (list Q)) :
  envelope_loop (l1 ++ l2) acc = envelope_loop l2 (envelope_loop l1 acc).
Proof. unfold envelope_loop. apply fold_left_app. Qed.

Lemma envelope_loop_ok_inv (idxs : list nat) (acc : result (list Q)) (env : list Q) :
  envelope_loop idxs acc = Ok env -> exists env0, acc = Ok env0.
Proof.
  destruct acc as [env0|e]; [eauto|].
  rewrite envelope_loop_raise. discriminate.
Qed.

(** A step writes index [i] and nothing else. *)
Lemma compression_step_spec (env env' : list Q) (i : nat) :
  compression_step audio threshold ratio attack release env i = Ok env' ->
  env' = env \/ exists v, env' = <[i := v]> env.
Proof.
  unfold compression_step.
  destruct (Qlt_bool threshold _); [|intros [= <-]; auto].
  destruct (py_div 1 ratio) as [inv|e]; simpl; [|discriminate].
  destruct (0 <? i)%nat.
  - destruct (Qlt_bool _ _); intros [= <-]; eauto.
  - intros [= <-]; eauto.
Qed.

Lemma compression_step_length (env env' : list Q) (i : nat) :
  compression_step audio threshold ratio attack release env i = Ok env' ->
  length env' = length env.
Proof.
  intros H. destruct (compression_step_spec _ _ _ H) as [->|[v ->]];
    [reflexivity|apply length_insert].
Qed.

Lemma compression_step_other (env env' : list Q) (i j : nat) :
  compression_step audio threshold ratio attack release env i = Ok env' ->
  i <> j -> env' !! j = env !! j.
Proof.
  intros H Hij. destruct (compression_step_spec _ _ _ H) as [->|[v ->]];
    [reflexivity|apply list_lookup_insert_ne; exact Hij].
Qed.

(** At a sample whose level does not exceed the threshold the step leaves
    the array as it is. *)
Lemma compression_step_below (env : list Q) (i : nat) :
  Qabs (audio !!! i) <= threshold ->
  compression_step audio threshold ratio attack release env i = Ok env.
Proof.
  intros H. unfold compression_step.
  rewrite (proj2 (Qlt_bool_false _ _) H). reflexivity.
Qed.

Lemma compression_step_total (env : list Q) (i : nat) :
  ~ ratio == 0 ->
  exists env', compression_step audio threshold ratio attack release env i = Ok env'.
Proof.
  intros Hr. unfold compression_step.
  destruct (Qlt_bool threshold _); [|eauto].
  rewrite (py_div_ok 1 ratio Hr). simpl.
  destruct (0 <? i)%nat; [destruct (Qlt_bool _ _)|]; eauto.
Qed.

Lemma envelope_loop_total (idxs : list nat) (env0 : list Q) :
  ~ ratio == 0 ->
  exists env, envelope_loop idxs (Ok env0) = Ok env /\ length env = length env0.
Proof.
  intros Hr. revert env0. induction idxs as [|i idxs IH]; intros env0.
  - exists env0. split; reflexivity.
  - rewrite envelope_loop_cons.
    destruct (compression_step_total env0 i Hr) as [env1 H1]. rewrite H1.
    destruct (IH env1) as [env [H Hlen]].
    exists env. split; [exact H|].
    rewrite Hlen. exact (compression_step_length _ _ _ H1).
Qed.

Lemma envelope_loop_length (idxs : list nat) (env0 env : list Q) :
  envelope_loop idxs (Ok env0) = Ok env -> length env = length env0.
Proof.
  revert env0. induction idxs as [|i idxs IH]; intros env0.
  - intros [= <-]. reflexivity.
  - rewrite envelope_loop_cons. intros H.
    destruct (envelope_loop_ok_inv _ _ _ H) as [env1 H1]. rewrite H1 in H.
    rewrite (IH _ H). exact (compression_step_length _ _ _ H1).
Qed.

(** An index that the loop does not visit keeps its value. *)
Lemma envelope_loop_unvisited (idxs : list nat) (env0 env : list Q) (j : nat) :
  envelope_loop idxs (Ok env0) = Ok env -> ~ In j idxs -> env !! j = env0 !! j.
Proof.
  revert env0. induction idxs as [|i idxs IH]; intros env0.
  - intros [= <-] _. reflexivity.
  - rewrite envelope_loop_cons. intros H Hj.
    destruct (envelope_loop_ok_inv _ _ _ H) as [env1 H1]. rewrite H1 in H.
    rewrite (IH _ H) by (intros Hin; apply Hj; right; exact Hin).
    apply (compression_step_other _ _ i j H1).
    intros ->. apply Hj. left. reflexivity.
Qed.

(** An index whose sample does not exceed the threshold keeps its value,
    visited or not. *)
Lemma envelope_loop_below (idxs : list nat) (env0 env : list Q) (j : nat) :
  Qabs (audio !!! j) <= threshold ->
  envelope_loop idxs (Ok env0) = Ok env -> env !! j = env0 !! j.
Proof.
  intros Hj. revert env0. induction idxs as [|i idxs IH]; intros env0.
  - intros [= <-]. reflexivity.
  - rewrite envelope_loop_cons. intros H.
    destruct (envelope_loop_ok_inv _ _ _ H) as [env1 H1]. rewrite H1 in H.
    rewrite (IH _ H).
    destruct (Nat.eq_dec i j) as [->|Hij].
    + rewrite (compression_step_below env0 j Hj) in H1.
      injection H1 as <-. reflexivity.
    + exact (compression_step_other _ _ i j H1 Hij).
Qed.

Lemma compression_step_above (env env' : list Q) (i : nat) :
  threshold < Qabs (audio !!! i) ->
  (i < length env)%nat ->
  compression_step audio threshold ratio attack release env i = Ok env' ->
  env' !! i = Some (envelope_update i (Qabs (audio !!! i)) (env !!! (i - 1)%nat)).
Proof.
  intros Hlvl Hi. unfold compression_step, envelope_update, gain_reduction_of.
  rewrite (proj2 (Qlt_bool_iff _ _) Hlvl).
  unfold py_div. destruct (Qeq_bool ratio 0); simpl; [discriminate|].
  destruct (0 <? i)%nat.
  - destruct (Qlt_bool _ _); intros [= <-]; apply list_lookup_insert_eq; exact Hi.
  - intros [= <-]; apply list_lookup_insert_eq; exact Hi.
Qed.

(** The finished envelope at a sample above the threshold: the update of
    the value that the envelope has at the previous index. *)
Lemma envelope_loop_above (n : nat) (env0 env : list Q) (i : nat) :
  length env0 = n -> (i < n)%nat ->
  threshold < Qabs (audio !!! i) ->
  envelope_loop (seq 0 n) (Ok env0) = Ok env ->
  env !! i = Some (envelope_update i (Qabs (audio !!! i)) (env !!! (i - 1)%nat)).
Proof.
  intros Hn Hi Hlvl H.
  assert (Hseq : seq 0 n = seq 0 i ++ i :: seq (S i) (n - S i)).
  { replace n with (i + S (n - S i))%nat at 1 by lia.
    rewrite seq_app. reflexivity. }
  rewrite Hseq, envelope_loop_app in H.
  destruct (envelope_loop_ok_inv _ _ _ H) as [env1 H1]. rewrite H1 in H.
  rewrite envelope_loop_cons in H.
  destruct (envelope_loop_ok_inv _ _ _ H) as [env2 H2]. rewrite H2 in H.
  assert (Hlen1 : length env1 = n).
  { rewrite (envelope_loop_length _ _ _ H1). exact Hn. }
  assert (Hafter : forall j, (j <= i)%nat -> env !! j = env2 !! j).
  { intros j Hj. apply (envelope_loop_unvisited _ _ _ j H).
    rewrite in_seq. lia. }
  rewrite (Hafter i) by lia.
  rewrite (compression_step_above env1 env2 i Hlvl) by (exact H2 || lia).
  destruct (Nat.eq_dec i 0%nat) as [->|Hi0]; [reflexivity|].
  f_equal. f_equal.
  rewrite !list_lookup_total_alt.
  rewrite (Hafter (i - 1)%nat) by lia.
  rewrite (compression_step_other env1 env2 i (i - 1)%nat H2) by lia.
  reflexivity.
Qed.

End Envelope.

Section Compressor.
Variables (audio : list Q) (threshold ratio attack_ms release_ms : Q).

Lemma compression_envelope_total :
  ~ ratio == 0 ->
  exists env,
    compression_envelope audio threshold ratio attack_ms release_ms = Ok env /\
    length env = length audio.
Proof.
  intros Hr. unfold compression_envelope.
  destruct (envelope_loop_total audio threshold ratio
              (py_int (22050 * attack_ms / 1000)) (py_int (22050 * release_ms / 1000))
              (seq 0 (length audio)) (replicate (length audio) 1) Hr) as [env [H Hlen]].
  exists env. split; [exact H|].
  rewrite Hlen. apply length_replicate.
Qed.

Lemma compression_envelope_length (env : list Q) :
  compression_envelope audio threshold ratio attack_ms release_ms = Ok env ->
  length env = length audio.
Proof.
  unfold compression_envelope. intros H.
  rewrite (envelope_loop_length _ _ _ _ _ _ _ _ H). apply length_replicate.
Qed.

(** What the loop computes at a sample above the threshold: the attack and
    release times are converted at the constant rate 22050, whatever the
    rate of the buffer, and truncated to whole samples. *)
Lemma compression_envelope_above (env : list Q) (i : nat) (x : Q) :
  compression_envelope audio threshold ratio attack_ms release_ms = Ok env ->
  audio !! i = Some x ->
  threshold < Qabs x ->
  env !! i = Some (envelope_update threshold ratio
                     (py_int (22050 * attack_ms / 1000))
                     (py_int (22050 * release_ms / 1000))
                     i (Qabs x) (env !!! (i - 1)%nat)).
Proof.
  unfold compression_envelope. intros H Hx Hlvl.
  assert (Hi : (i < length audio)%nat) by (eapply lookup_lt_Some; exact Hx).
  rewrite <- (list_lookup_total_correct audio i x Hx).
  apply (envelope_loop_above audio threshold ratio _ _ (length audio) (replicate (length audio) 1)).
  - apply length_replicate.
  - exact Hi.
  - rewrite (list_lookup_total_correct audio i x Hx). exact Hlvl.
  - exact H.
Qed.

(** C10.  In the compressor, the gain envelope keeps its initial value 1 at
    every index whose sample has a level at or below the threshold, whatever
    the envelope is at the index before: smoothing is applied only at samples
    strictly above the threshold.  The envelope exists whenever the ratio is
    not zero. *)
Theorem compression_envelope_at_or_below_threshold :
  (~ ratio == 0 ->
   exists env, compression_envelope audio threshold ratio attack_ms release_ms = Ok env /\
               length env = length audio) /\
  (forall (env : list Q) (i : nat) (x : Q),
     compression_envelope audio threshold ratio attack_ms release_ms = Ok env ->
     audio !! i = Some x ->
     Qabs x <= threshold ->
     env !! i = Some 1).
Proof.
  split; [exact compression_envelope_total|].
  intros env i x H Hx Hlvl. unfold compression_envelope in H.
  rewrite (envelope_loop_below audio threshold ratio _ _ _ _ _ i) with (2 := H).
  - apply lookup_lt_Some in Hx.
    rewrite lookup_replicate_2 by exact Hx. reflexivity.
  - rewrite (list_lookup_total_correct audio i x Hx). exact Hlvl.
Qed.

End Compressor.

(** On a loud sample followed by a quiet one and a loud one, the envelope
    returns to 1 at the quiet sample. *)
Lemma compression_envelope_at_or_below_threshold_witness :
  exists env,
    compression_envelope [1; 1 # 10; 3 # 4] (3 # 10) 8 5 150 = Ok env /\
    length env = 3%nat /\
    env !! 1%nat = Some 1.
Proof.
  destruct (compression_envelope_at_or_below_threshold [1; 1 # 10; 3 # 4] (3 # 10) 8 5 150)
    as [Htotal Hbelow].
  destruct Htotal as [env [Henv Hlen]].
  { intros H. vm_compute in H. discriminate H. }
  exists env. split; [exact Henv|]. split; [exact Hlen|].
  apply (Hbelow env 1%nat (1 # 10) Henv).
  - reflexivity.
  - vm_compute. discriminate.
Defined.

(** C1.  The compressor on the two samples 1.0 and 0.75 of a buffer sampled
    at 44100 Hz, with the default threshold 0.3, ratio 8, attack 5 ms and
    release 150 ms: the envelope at the second sample is the attack update
    over 110 samples, the attack time converted at the constant 22050 Hz and
    truncated, and not the update over the attack time converted at the
    buffer's rate. *)
Theorem compression_envelope_ignores_buffer_rate :
  exists e0 e1,
    compression_envelope [1; 3 # 4] (3 # 10) 8 5 150 = Ok [e0; e1] /\
    e0 == 1 - gain_reduction_of (3 # 10) 8 1 /\
    e1 == Qmin (e0 + (1 - e0) / 110) (1 - gain_reduction_of (3 # 10) 8 (3 # 4)) /\
    e1 == 3459 # 8800 /\
    attack_update_at_rate 44100 5 e0 (gain_reduction_of (3 # 10) 8 (3 # 4)) == 281 # 720 /\
    ~ e1 == attack_update_at_rate 44100 5 e0 (gain_reduction_of (3 # 10) 8 (3 # 4)).
Proof.
  eexists. eexists. split; [vm_compute; reflexivity|].
  split; [vm_compute; reflexivity|].
  split; [vm_compute; reflexivity|].
  split; [vm_compute; reflexivity|].
  split; [vm_compute; reflexivity|].
  intros H. vm_compute in H. discriminate H.
Qed.

(** ** The monads *)

Lemma result_bind_ok {A B} (a : A) (k : A -> result B) : (Ok a ≫= k) = k a.
Proof. reflexivity. Qed.

Lemma result_bind_raise {A B} (e : exn) (k : A -> result B) : (Raise e ≫= k) = Raise e.
Proof. reflexivity. Qed.

Lemma M_bind_ok {A B} (c : M A) (k : A -> M B) (w w' : world) (a : A) :
  c w = (Ok a, w') -> (c ≫= k) w = k a w'.
Proof. intros H. unfold mbind, M_bind. rewrite H. reflexivity. Qed.

Lemma M_bind_raise {A B} (c : M A) (k : A -> M B) (w w' : world) (e : exn) :
  c w = (Raise e, w') -> (c ≫= k) w = (Raise e, w').
Proof. intros H. unfold mbind, M_bind. rewrite H. reflexivity. Qed.

Lemma M_bind_lift_ok {A B} (r : result A) (k : A -> M B) (w : world) (a : A) :
  r = Ok a -> (lift r ≫= k) w = k a w.
Proof. intros ->. reflexivity. Qed.

Lemma M_bind_lift_raise {A B} (r : result A) (k : A -> M B) (w : world) (e : exn) :
  r = Raise e -> (lift r ≫= k) w = (Raise e, w).
Proof. intros ->. reflexivity. Qed.

(** ** Normalised frequencies *)

Lemma Qdiv_pos (x n : Q) : 0 < n -> 0 < x -> 0 < x / n.
Proof.
  intros Hn Hx. apply Qlt_shift_div_l; [exact Hn|].
  rewrite Qmult_0_l. exact Hx.
Qed.

Lemma Qdiv_lt_mono (x y n : Q) : 0 < n -> x < y -> x / n < y / n.
Proof.
  intros Hn Hxy. apply Qlt_shift_div_l; [exact Hn|].
  assert (Heq : x / n * n == x).
  { field. intros H0. rewrite H0 in Hn. exact (Qlt_irrefl _ Hn). }
  rewrite Heq. exact Hxy.
Qed.

Lemma Qdiv_lt_1 (x n : Q) : 0 < n -> x < n -> x / n < 1.
Proof.
  intros Hn Hx. apply Qlt_shift_div_r; [exact Hn|].
  rewrite Qmult_1_l. exact Hx.
Qed.

Lemma Qdiv_ge_1 (x n : Q) : 0 < n -> n <= x -> 1 <= x / n.
Proof.
  intros Hn Hx. apply Qle_shift_div_l; [exact Hn|].
  rewrite Qmult_1_l. exact Hx.
Qed.

Lemma half_rate (sr : Q) : sr / 2 == (1 # 2) * sr.
Proof. field. Qed.

Lemma Qpos_neq_0 (n : Q) : 0 < n -> ~ n == 0.
Proof. intros Hn H0. rewrite H0 in Hn. exact (Qlt_irrefl _ Hn). Qed.

(** ** The filters *)

Section Filters.
Context {E : Externals} {HE : ExternalsOk E}.

Lemma signal_filtfilt_ok (b a x : list Q) :
  (3 * Nat.max (length a) (length b) < length x)%nat ->
  signal_filtfilt b a x = Ok (zero_phase b a x).
Proof.
  intros H. unfold signal_filtfilt.
  rewrite (proj2 (Nat.leb_gt _ _) H). reflexivity.
Qed.

Lemma signal_filtfilt_short (b a x : list Q) :
  (length x <= 3 * Nat.max (length a) (length b))%nat ->
  signal_filtfilt b a x
  = Raise (ValueError "The length of the input vector x must be greater than padlen").
Proof.
  intros H. unfold signal_filtfilt.
  rewrite (proj2 (Nat.leb_le _ _) H). reflexivity.
Qed.

Lemma signal_butter_band_ok (N : nat) (low high : Q) :
  0 < low -> low < high -> high < 1 ->
  signal_butter N [low; high] BandPass = Ok (butter_design N BandPass [low; high]).
Proof.
  intros Hl Hlh Hh. unfold signal_butter. simpl.
  assert (Hh0 : 0 < high) by (eapply Qlt_trans; eassumption).
  assert (Hl1 : low < 1) by (eapply Qlt_trans; eassumption).
  rewrite (proj2 (Qle_bool_false low 0) Hl), (proj2 (Qle_bool_false high 0) Hh0).
  rewrite (proj2 (Qlt_bool_iff low high) Hlh).
  rewrite (proj2 (Qle_bool_false 1 low) Hl1), (proj2 (Qle_bool_false 1 high) Hh).
  reflexivity.
Qed.

Lemma signal_butter_single_ok (N : nat) (w : Q) (bt : btype) :
  bt <> BandPass -> 0 < w -> w < 1 ->
  signal_butter N [w] bt = Ok (butter_design N bt [w]).
Proof.
  intros Hbt H0 H1. unfold signal_butter. simpl.
  rewrite (proj2 (Qle_bool_false w 0) H0), (proj2 (Qle_bool_false 1 w) H1).
  destruct bt; [reflexivity|reflexivity|congruence].
Qed.

(** A band whose upper edge is at or above the Nyquist frequency is
    rejected, whatever the lower edge is. *)
Lemma signal_butter_band_above_nyquist (N : nat) (low high : Q) :
  1 <= high ->
  exists msg, signal_butter N [low; high] BandPass = Raise (ValueError msg).
Proof.
  intros Hh. unfold signal_butter. simpl.
  destruct (Qle_bool low 0); [eauto|].
  destruct (Qle_bool high 0); [eauto|]. simpl.
  destruct (Qlt_bool low high); [|simpl; eauto]. simpl.
  rewrite (proj2 (Qle_bool_iff 1 high) Hh).
  rewrite orb_true_r. eauto.
Qed.

Lemma filtfilt_design_length (N : nat) (bt : btype) (Wn x : list Q) :
  (3 * ntaps N bt < length x)%nat ->
  exists out,
    signal_filtfilt (fst (butter_design N bt Wn)) (snd (butter_design N bt Wn)) x = Ok out /\
    length out = length x.
Proof.
  intros H. destruct (butter_design_taps N bt Wn) as [Hb Ha].
  rewrite signal_filtfilt_ok by (rewrite Ha; lia).
  eexists. split; [reflexivity|apply zero_phase_length].
Qed.

Lemma filtfilt_design_short (N : nat) (bt : btype) (Wn x : list Q) :
  (length x <= 3 * ntaps N bt)%nat ->
  signal_filtfilt (fst (butter_design N bt Wn)) (snd (butter_design N bt Wn)) x
  = Raise (ValueError "The length of the input vector x must be greater than padlen").
Proof.
  intros H. destruct (butter_design_taps N bt Wn) as [Hb Ha].
  apply signal_filtfilt_short. rewrite Ha. lia.
Qed.

Lemma apply_bandpass_filter_ok (audio : list Q) (sr low_cutoff high_cutoff : Q) :
  0 < low_cutoff -> low_cutoff < high_cutoff -> high_cutoff < sr / 2 ->
  (27 < length audio)%nat ->
  exists out,
    apply_bandpass_filter audio sr low_cutoff high_cutoff = Ok out /\
    length out = length audio.
Proof.
  intros Hl Hlh Hh Hn. rewrite half_rate in Hh.
  assert (Hny : 0 < (1 # 2) * sr) by lra.
  unfold apply_bandpass_filter.
  rewrite !py_div_ok by (apply Qpos_neq_0; exact Hny).
  rewrite !result_bind_ok.
  rewrite signal_butter_band_ok.
  - rewrite result_bind_ok. apply filtfilt_design_length. simpl. lia.
  - apply Qdiv_pos; assumption.
  - apply Qdiv_lt_mono; assumption.
  - apply Qdiv_lt_1; [assumption|lra].
Qed.

Lemma apply_bandpass_filter_above_nyquist (audio : list Q) (sr low_cutoff high_cutoff : Q) :
  0 < sr -> sr / 2 <= high_cutoff ->
  exists msg, apply_bandpass_filter audio sr low_cutoff high_cutoff = Raise (ValueError msg).
Proof.
  intros Hsr Hh. rewrite half_rate in Hh.
  assert (Hny : 0 < (1 # 2) * sr) by lra.
  unfold apply_bandpass_filter.
  rewrite !py_div_ok by (apply Qpos_neq_0; exact Hny).
  rewrite !result_bind_ok.
  destruct (signal_butter_band_above_nyquist 4 (low_cutoff / ((1 # 2) * sr))
              (high_cutoff / ((1 # 2) * sr))) as [msg Hmsg].
  - apply Qdiv_ge_1; [assumption|lra].
  - rewrite Hmsg. exists msg. reflexivity.
Qed.

Lemma apply_bandpass_filter_short (audio : list Q) (sr low_cutoff high_cutoff : Q) :
  (length audio <= 27)%nat ->
  exists e, apply_bandpass_filter audio sr low_cutoff high_cutoff = Raise e.
Proof.
  intros Hn. unfold apply_bandpass_filter.
  destruct (py_div low_cutoff _) as [low|e]; [|eauto].
  destruct (py_div high_cutoff _) as [high|e]; [|eauto].
  rewrite !result_bind_ok.
  destruct (signal_butter 4 [low; high] BandPass) as [ba|e] eqn:Hba; [|eauto].
  rewrite result_bind_ok.
  unfold signal_butter in Hba.
  repeat match type of Hba with
         | (if ?c then _ else _) = _ => destruct c; [discriminate Hba|]
         end.
  injection Hba as <-.
  rewrite filtfilt_design_short by (simpl; lia). eauto.
Qed.

(** C8, as the code has it.  The band-pass filter returns a buffer of the
    input's length when [0 < low < high < sr/2] and the buffer has more than
    27 samples (three times the nine coefficients of the design); it fails
    with a [ValueError] and returns no buffer when [high_cutoff >= sr/2];
    and it fails on every buffer of at most 27 samples. *)
Theorem apply_bandpass_filter_contract (audio : list Q) (sr low_cutoff high_cutoff : Q) :
  (0 < low_cutoff -> low_cutoff < high_cutoff -> high_cutoff < sr / 2 ->
   (27 < length audio)%nat ->
   exists out, apply_bandpass_filter audio sr low_cutoff high_cutoff = Ok out /\
               length out = length audio) /\
  (0 < sr -> sr / 2 <= high_cutoff ->
   exists msg, apply_bandpass_filter audio sr low_cutoff high_cutoff = Raise (ValueError msg)) /\
  ((length audio <= 27)%nat ->
   exists e, apply_bandpass_filter audio sr low_cutoff high_cutoff = Raise e).
Proof.
  split; [apply apply_bandpass_filter_ok|].
  split; [apply apply_bandpass_filter_above_nyquist|apply apply_bandpass_filter_short].
Qed.

End Filters.

(** ** The push-to-talk clicks *)

Section Clicks.
Context {E : Externals} {HE : ExternalsOk E}.

Lemma np_random_normal_ok (loc scale : Q) (size : Z) (w : world) :
  0 <= scale -> (0 <= size)%Z ->
  exists draws,
    np_random_normal loc scale size w
    = (Ok draws, World (rng_pos w + Z.to_nat size) (written w)) /\
    length draws = Z.to_nat size.
Proof.
  intros Hs Hn. unfold np_random_normal.
  rewrite (proj2 (Qlt_bool_false scale 0) Hs).
  rewrite (proj2 (Z.ltb_ge size 0) Hn).
  eexists. split; [reflexivity|].
  rewrite length_map. apply length_seq.
Qed.

(** The number of click samples at a rate above 6000 Hz. *)
Lemma click_samples_above_6000 (sr : Q) :
  6000 < sr -> (180 <= py_int ((3 # 100) * sr))%Z.
Proof.
  intros Hsr. rewrite py_int_nonneg by lra.
  change 180%Z with (Qfloor 180).
  apply Qfloor_resp_le. lra.
Qed.

(** The click stage runs to its end whenever the upper edge of the click's
    band is below the Nyquist frequency and the click is longer than the
    padding of the zero-phase filter, 15 samples. *)
Lemma add_ptt_artifacts_ok (audio : list Q) (sr : Q) (w : world) :
  3000 < (1 # 2) * sr ->
  (15 < py_int ((3 # 100) * sr))%Z ->
  exists out w',
    add_ptt_artifacts audio sr w = (Ok out, w') /\
    length out = (length audio + 2 * Z.to_nat (py_int ((3 # 100) * sr)))%nat.
Proof.
  intros Hny3000 Hnum.
  set (num := py_int ((3 # 100) * sr)) in *.
  assert (Hny : 0 < (1 # 2) * sr) by lra.
  unfold add_ptt_artifacts. fold num.
  destruct (np_random_normal_ok 0 1 num w) as [click [Hclick Hlen]]; [lra|lia|].
  rewrite (M_bind_ok _ _ _ _ _ Hclick).
  rewrite (M_bind_lift_ok _ _ _ _ (py_div_ok 800 _ (Qpos_neq_0 _ Hny))).
  rewrite (M_bind_lift_ok _ _ _ _ (py_div_ok 3000 _ (Qpos_neq_0 _ Hny))).
  assert (Hband : signal_butter 2 [800 / ((1 # 2) * sr); 3000 / ((1 # 2) * sr)] BandPass
                  = Ok (butter_design 2 BandPass
                          [800 / ((1 # 2) * sr); 3000 / ((1 # 2) * sr)])).
  { apply signal_butter_band_ok.
    - apply Qdiv_pos; [exact Hny|lra].
    - apply Qdiv_lt_mono; [exact Hny|lra].
    - apply Qdiv_lt_1; [exact Hny|lra]. }
  rewrite (M_bind_lift_ok _ _ _ _ Hband).
  destruct (filtfilt_design_length 2 BandPass
              [800 / ((1 # 2) * sr); 3000 / ((1 # 2) * sr)] click)
    as [filtered [Hfilt Hflen]]; [simpl; lia|].
  rewrite (M_bind_lift_ok _ _ _ _ Hfilt).
  set (n := Z.to_nat num) in *.
  assert (Hmul : length filtered
                 = length (map (fun t : Q => np_exp (- t)) (np_linspace 0 5 n))).
  { rewrite length_map, length_np_linspace. lia. }
  rewrite (M_bind_lift_ok _ _ _ _ (np_binop_same_length Qmult _ _ Hmul)).
  set (shaped := zip_with Qmult filtered _).
  assert (Hshaped : length shaped = n).
  { unfold shaped. rewrite length_zip_with_same by exact Hmul. lia. }
  set (zeros := replicate (length audio + 2 * n) 0).
  assert (Hzeros : length zeros = (length audio + 2 * n)%nat) by apply length_replicate.
  set (click1 := np_scale shaped (2 # 10)).
  assert (Hclick1 : length click1 = n) by (unfold click1; rewrite length_np_scale; exact Hshaped).
  assert (Hend : length (np_scale (rev click1) (15 # 100)) = n).
  { rewrite length_np_scale, length_rev. exact Hclick1. }
  rewrite (M_bind_lift_ok _ _ _ _ (set_slice_ok zeros 0 n click1 ltac:(lia))).
  set (r0 := take 0 zeros ++ _).
  assert (Hr0 : length r0 = (length audio + 2 * n)%nat).
  { unfold r0. rewrite set_slice_length by lia. exact Hzeros. }
  rewrite (M_bind_lift_ok _ _ _ _ (set_slice_ok r0 n (n + length audio) audio ltac:(lia))).
  set (r1 := take n r0 ++ _).
  assert (Hr1 : length r1 = (length audio + 2 * n)%nat).
  { unfold r1. rewrite set_slice_length by lia. exact Hr0. }
  rewrite (M_bind_lift_ok _ _ _ _
             (set_slice_ok r1 (n + length audio) (length r1)
                (np_scale (rev click1) (15 # 100)) ltac:(lia))).
  eexists. eexists. split; [reflexivity|].
  rewrite set_slice_length by lia. exact Hr1.
Qed.

(** At a rate of at most 6000 Hz the upper edge of the click's band,
    3000 Hz, is not below the Nyquist frequency, and the design is rejected. *)
Lemma add_ptt_artifacts_low_rate (audio : list Q) (sr : Q) (w : world) :
  0 < sr -> sr <= 6000 ->
  exists msg w', add_ptt_artifacts audio sr w = (Raise (ValueError msg), w').
Proof.
  intros Hsr Hle.
  assert (Hny : 0 < (1 # 2) * sr) by lra.
  unfold add_ptt_artifacts.
  destruct (np_random_normal_ok 0 1 (py_int ((3 # 100) * sr)) w)
    as [click [Hclick Hlen]].
  - lra.
  - rewrite py_int_nonneg by lra.
    change 0%Z with (Qfloor 0). apply Qfloor_resp_le. lra.
  - rewrite (M_bind_ok _ _ _ _ _ Hclick).
    rewrite (M_bind_lift_ok _ _ _ _ (py_div_ok 800 _ (Qpos_neq_0 _ Hny))).
    rewrite (M_bind_lift_ok _ _ _ _ (py_div_ok 3000 _ (Qpos_neq_0 _ Hny))).
    destruct (signal_butter_band_above_nyquist 2 (800 / ((1 # 2) * sr))
                (3000 / ((1 # 2) * sr))) as [msg Hmsg].
    + apply Qdiv_ge_1; [exact Hny|lra].
    + rewrite (M_bind_lift_raise _ _ _ _ Hmsg). eauto.
Qed.

(** C4, as the code has it.  At every sample rate above 6000 Hz and for
    every input buffer, the output of the click stage has the input's length
    plus twice [int(0.03 * sr)], the click length truncated to whole samples. *)
Theorem add_ptt_artifacts_length (audio : list Q) (sr : Q) (w : world) :
  6000 < sr ->
  exists out w',
    add_ptt_artifacts audio sr w = (Ok out, w') /\
    length out = (length audio + 2 * Z.to_nat (py_int ((3 # 100) * sr)))%nat.
Proof.
  intros Hsr.
  pose proof (click_samples_above_6000 sr Hsr) as Hnum.
  apply add_ptt_artifacts_ok.
  - lra.
  - lia.
Qed.

End Clicks.

(** ** The sample-rate reducer *)

Section Resampling.
Context {E : Externals}.

Lemma length_fix_length (data : list Q) (size : nat) : length (fix_length data size) = size.
Proof.
  unfold fix_length. rewrite length_take, length_app, length_replicate. lia.
Qed.

Lemma librosa_resample_length (y : list Q) (orig_sr target_sr : Q) :
  0 < orig_sr -> 0 < target_sr ->
  exists out,
    librosa_resample y orig_sr target_sr = Ok out /\
    length out = resample_length (length y) orig_sr target_sr.
Proof.
  intros Ho Ht. unfold librosa_resample, resample_length.
  destruct (Qeq_bool orig_sr target_sr).
  - exists y. split; reflexivity.
  - rewrite (py_div_ok target_sr orig_sr (Qpos_neq_0 _ Ho)), result_bind_ok.
    rewrite (proj2 (Qle_bool_false orig_sr 0) Ho).
    rewrite (proj2 (Qle_bool_false target_sr 0) Ht). simpl.
    eexists. split; [reflexivity|]. apply length_fix_length.
Qed.

(** Resampling to another rate and back never shortens the buffer. *)
Lemma resample_length_round_trip (n : nat) (orig_sr target_sr : Q) :
  0 < orig_sr -> 0 < target_sr ->
  (n <= resample_length (resample_length n orig_sr target_sr) target_sr orig_sr)%nat.
Proof.
  intros Ho Ht. unfold resample_length.
  destruct (Qeq_bool orig_sr target_sr) eqn:Heq.
  - apply Qeq_bool_iff in Heq. symmetry in Heq.
    apply Qeq_bool_iff in Heq. rewrite Heq. lia.
  - assert (Hne : Qeq_bool target_sr orig_sr = false).
    { apply Qeq_bool_false. intros H. symmetry in H.
      apply Qeq_bool_iff in H. congruence. }
    rewrite Hne.
    set (x := inject_Z (Z.of_nat n) * (target_sr / orig_sr)).
    assert (Hn0 : 0 <= inject_Z (Z.of_nat n)).
    { change 0 with (inject_Z 0). rewrite <- Zle_Qle. lia. }
    assert (Hx0 : 0 <= x).
    { unfold x. apply Qmult_le_0_compat; [exact Hn0|].
      apply Qlt_le_weak, Qdiv_pos; assumption. }
    assert (Hc0 : (0 <= Qceiling x)%Z).
    { change 0%Z with (Qceiling 0). apply Qceiling_resp_le. exact Hx0. }
    rewrite Z2Nat.id by exact Hc0.
    assert (Hback : inject_Z (Z.of_nat n)
                    <= inject_Z (Qceiling x) * (orig_sr / target_sr)).
    { assert (Hy : inject_Z (Z.of_nat n) == x * (orig_sr / target_sr)).
      { unfold x. field. split; apply Qpos_neq_0; assumption. }
      rewrite Hy. apply Qmult_le_compat_r; [apply Qle_ceiling|].
      apply Qlt_le_weak, Qdiv_pos; assumption. }
    apply Qceiling_resp_le in Hback. rewrite Qceiling_Z in Hback. lia.
Qed.

Lemma reduce_sample_rate_length (audio : list Q) (original_sr target_sr : Q) :
  0 < original_sr -> 0 < target_sr ->
  exists out,
    reduce_sample_rate audio original_sr target_sr = Ok out /\
    length out = resample_length (resample_length (length audio) original_sr target_sr)
                                 target_sr original_sr.
Proof.
  intros Ho Ht. unfold reduce_sample_rate.
  destruct (librosa_resample_length audio original_sr target_sr Ho Ht) as [down [Hd Hdl]].
  rewrite Hd, result_bind_ok.
  destruct (librosa_resample_length down target_sr original_sr Ht Ho) as [up [Hu Hul]].
  exists up. split; [exact Hu|]. rewrite Hul, Hdl. reflexivity.
Qed.

Lemma degrade_skipped (audio : list Q) (sr target_sample_rate : Q) :
  sr <= target_sample_rate -> degrade audio sr target_sample_rate = Ok audio.
Proof.
  intros H. unfold degrade.
  rewrite (proj2 (Qlt_bool_false _ _) H), andb_false_r. reflexivity.
Qed.

Lemma degrade_applied (audio : list Q) (sr target_sample_rate : Q) :
  0 < target_sample_rate -> target_sample_rate < sr ->
  degrade audio sr target_sample_rate = reduce_sample_rate audio sr target_sample_rate.
Proof.
  intros H0 H. unfold degrade, truthy.
  rewrite (proj2 (Qlt_bool_iff _ _) H).
  rewrite (proj2 (Qeq_bool_false _ _) (Qpos_neq_0 _ H0)). reflexivity.
Qed.

Lemma Qceiling_plus_nat (n : nat) (y : Q) :
  (Qceiling (inject_Z (Z.of_nat n) + y) <= Z.of_nat n + Qceiling y)%Z.
Proof.
  rewrite <- (Qceiling_Z (Z.of_nat n + Qceiling y)).
  apply Qceiling_resp_le. rewrite inject_Z_plus.
  pose proof (Qle_ceiling y). lra.
Qed.

(** The round trip through another rate lengthens a buffer by at most
    [ceil(orig_sr / target_sr)] samples. *)
Lemma resample_length_growth (n : nat) (orig_sr target_sr : Q) :
  0 < orig_sr -> 0 < target_sr ->
  (resample_length (resample_length n orig_sr target_sr) target_sr orig_sr
   <= n + Z.to_nat (Qceiling (orig_sr / target_sr)))%nat.
Proof.
  intros Ho Ht. unfold resample_length.
  destruct (Qeq_bool orig_sr target_sr) eqn:Heq.
  - apply Qeq_bool_iff in Heq. symmetry in Heq.
    apply Qeq_bool_iff in Heq. rewrite Heq. lia.
  - assert (Hne : Qeq_bool target_sr orig_sr = false).
    { apply Qeq_bool_false. intros H. symmetry in H.
      apply Qeq_bool_iff in H. congruence. }
    rewrite Hne.
    set (x := inject_Z (Z.of_nat n) * (target_sr / orig_sr)).
    assert (Hratio : 0 < target_sr / orig_sr) by (apply Qdiv_pos; assumption).
    assert (Hback : 0 < orig_sr / target_sr) by (apply Qdiv_pos; assumption).
    assert (Hn0 : 0 <= inject_Z (Z.of_nat n)).
    { change 0 with (inject_Z 0). rewrite <- Zle_Qle. lia. }
    assert (Hx0 : 0 <= x) by (unfold x; nra).
    assert (Hc0 : (0 <= Qceiling x)%Z).
    { change 0%Z with (Qceiling 0). apply Qceiling_resp_le. exact Hx0. }
    rewrite Z2Nat.id by exact Hc0.
    assert (Hup : inject_Z (Qceiling x) < x + 1).
    { pose proof (Qceiling_lt x) as H. unfold Z.sub in H.
      rewrite inject_Z_plus, inject_Z_opp in H.
      change (inject_Z 1) with 1 in H. lra. }
    assert (Hprod : inject_Z (Qceiling x) * (orig_sr / target_sr)
                    <= inject_Z (Z.of_nat n) + orig_sr / target_sr).
    { assert (Hy : x * (orig_sr / target_sr) == inject_Z (Z.of_nat n)).
      { unfold x. field. split; apply Qpos_neq_0; assumption. }
      nra. }
    apply Qceiling_resp_le in Hprod.
    pose proof (Qceiling_plus_nat n (orig_sr / target_sr)) as Hsum.
    assert (Hcb : (0 <= Qceiling (orig_sr / target_sr))%Z).
    { change 0%Z with (Qceiling 0). apply Qceiling_resp_le. lra. }
    lia.
Qed.

Lemma reduce_sample_rate_equal_rates (audio : list Q) (original_sr target_sr : Q) :
  original_sr == target_sr -> reduce_sample_rate audio original_sr target_sr = Ok audio.
Proof.
  intros Heq. unfold reduce_sample_rate, librosa_resample.
  rewrite (proj2 (Qeq_bool_iff _ _) Heq). rewrite result_bind_ok.
  symmetry in Heq. rewrite (proj2 (Qeq_bool_iff _ _) Heq). reflexivity.
Qed.

(** C3, as the code has it.  For a buffer of [n] samples at a rate
    [sr > 0] and a target rate [target_sr > 0], the round trip returns a
    buffer at the rate [sr] that is not shorter than the input and at most
    [ceil(sr / target_sr)] samples longer, and the input itself when the
    two rates are equal; the length is in general not [n].  The radio
    preset makes the round trip only for a target rate below [sr] and
    leaves the buffer as it is otherwise. *)
Theorem reduce_sample_rate_round_trip (audio : list Q) (sr target_sr : Q) :
  0 < sr -> 0 < target_sr ->
  (exists out,
     reduce_sample_rate audio sr target_sr = Ok out /\
     (length audio <= length out)%nat /\
     (length out <= length audio + Z.to_nat (Qceiling (sr / target_sr)))%nat /\
     (sr == target_sr -> out = audio)) /\
  (target_sr < sr -> degrade audio sr target_sr = reduce_sample_rate audio sr target_sr) /\
  (sr <= target_sr -> degrade audio sr target_sr = Ok audio).
Proof.
  intros Ho Ht. split; [|split].
  - destruct (reduce_sample_rate_length audio sr target_sr Ho Ht) as [out [Hout Hlen]].
    exists out. split; [exact Hout|]. rewrite Hlen. split; [|split].
    + apply resample_length_round_trip; assumption.
    + apply resample_length_growth; assumption.
    + intros Heq. pose proof (reduce_sample_rate_equal_rates audio sr target_sr Heq) as Hsame.
      rewrite Hout in Hsame. injection Hsame as ->. reflexivity.
  - apply degrade_applied. exact Ht.
  - apply degrade_skipped.
Qed.

End Resampling.

(** ** The background mixer *)

Lemma inject_nat_pos (n : nat) : (0 < n)%nat -> 0 < inject_Z (Z.of_nat n).
Proof. intros H. change 0 with (inject_Z 0). rewrite <- Zlt_Qlt. lia. Qed.

(** Enough repetitions of the background cover the audio. *)
Lemma tile_repetitions_cover (n m : nat) :
  (0 < m)%nat ->
  (n <= Z.to_nat (py_int (inject_Z (np_ceil (inject_Z (Z.of_nat n) / inject_Z (Z.of_nat m)))))
        * m)%nat.
Proof.
  intros Hm. rewrite py_int_inject_Z. unfold np_ceil.
  set (q := inject_Z (Z.of_nat n) / inject_Z (Z.of_nat m)).
  pose proof (inject_nat_pos m Hm) as Hmq.
  assert (Hq0 : 0 <= q).
  { unfold q. apply Qle_shift_div_l; [exact Hmq|].
    rewrite Qmult_0_l. change 0 with (inject_Z 0). rewrite <- Zle_Qle. lia. }
  assert (Hc0 : (0 <= Qceiling q)%Z).
  { change 0%Z with (Qceiling 0). apply Qceiling_resp_le. exact Hq0. }
  assert (Hcover : inject_Z (Z.of_nat n) <= inject_Z (Qceiling q * Z.of_nat m)).
  { rewrite inject_Z_mult.
    assert (Hn : inject_Z (Z.of_nat n) == q * inject_Z (Z.of_nat m)).
    { unfold q. field. apply Qpos_neq_0. exact Hmq. }
    rewrite Hn. apply Qmult_le_compat_r; [apply Qle_ceiling|].
    apply Qlt_le_weak. exact Hmq. }
  rewrite <- Zle_Qle in Hcover. nia.
Qed.

Lemma rescaled_sample_bound (x peak : Q) :
  1 < peak -> Qabs x <= peak -> Qabs (x / peak * (95 # 100)) <= 1.
Proof.
  intros Hp Hx.
  assert (Hp0 : 0 < peak) by lra.
  assert (Hq : Qabs (x / peak) <= 1).
  { unfold Qdiv. rewrite Qabs_Qmult.
    rewrite (Qabs_pos (/ peak)) by (apply Qlt_le_weak, Qinv_lt_0_compat; exact Hp0).
    apply Qle_shift_div_r; [exact Hp0|]. rewrite Qmult_1_l. exact Hx. }
  rewrite Qabs_Qmult.
  rewrite (Qabs_pos (95 # 100)) by (unfold Qle; simpl; lia).
  pose proof (Qabs_nonneg (x / peak)) as H0.
  nra.
Qed.

(** C6, as the code has it.  For every non-empty primary buffer and every
    non-empty background buffer, shorter or longer, the mix has exactly the
    primary buffer's length and its peak absolute value does not exceed 1. *)
Theorem mix_with_background_length_and_peak
    (audio background_audio : list Q) (background_level : Q) :
  audio <> [] -> background_audio <> [] ->
  exists out,
    mix_with_background audio background_audio background_level = Ok out /\
    length out = length audio /\
    peak_le out 1.
Proof.
  intros Ha Hb.
  assert (Hn : (0 < length audio)%nat) by (destruct audio; [congruence|simpl; lia]).
  assert (Hm : (0 < length background_audio)%nat)
    by (destruct background_audio; [congruence|simpl; lia]).
  unfold mix_with_background.
  set (adjust := if (length background_audio <? length audio)%nat then _ else _).
  assert (Hadj : exists bg, adjust = Ok bg /\ length bg = length audio).
  { unfold adjust.
    destruct (length background_audio <? length audio)%nat eqn:Hlt.
    - rewrite py_div_ok by (apply Qpos_neq_0, inject_nat_pos; exact Hm).
      rewrite result_bind_ok. eexists. split; [reflexivity|].
      rewrite length_take, length_np_tile.
      pose proof (tile_repetitions_cover (length audio) (length background_audio) Hm).
      lia.
    - apply Nat.ltb_ge in Hlt.
      destruct (length audio <? length background_audio)%nat eqn:Hgt.
      + eexists. split; [reflexivity|]. rewrite length_take. lia.
      + apply Nat.ltb_ge in Hgt. eexists. split; [reflexivity|]. lia. }
  destruct Hadj as [bg [-> Hbg]]. rewrite result_bind_ok.
  unfold np_add. rewrite np_binop_same_length by (rewrite length_np_scale; lia).
  rewrite result_bind_ok.
  set (mixed := zip_with Qplus audio _).
  assert (Hmixed : length mixed = length audio).
  { unfold mixed. apply length_zip_with_same. rewrite length_np_scale. lia. }
  destruct (np_max_nonempty (np_abs mixed)) as [peak Hpeak].
  { intros H0. apply (f_equal length) in H0. rewrite length_np_abs in H0.
    simpl in H0. lia. }
  rewrite Hpeak, result_bind_ok.
  destruct (Qlt_bool 1 peak) eqn:Hclip.
  - apply Qlt_bool_iff in Hclip.
    eexists. split; [reflexivity|]. split.
    + rewrite length_np_scale, length_map. exact Hmixed.
    + destruct (np_max_nonempty (np_abs (np_scale (map (fun x => x / peak) mixed) (95 # 100))))
        as [peak' Hpeak'].
      { intros H0. apply (f_equal length) in H0.
        rewrite length_np_abs, length_np_scale, length_map in H0. simpl in H0. lia. }
      exists peak'. split; [exact Hpeak'|].
      apply np_max_In in Hpeak'.
      unfold np_abs, np_scale in Hpeak'. rewrite !map_map in Hpeak'.
      apply in_map_iff in Hpeak'. destruct Hpeak' as [x [<- Hx]].
      apply rescaled_sample_bound; [exact Hclip|].
      apply (np_max_upper _ _ _ Hpeak). unfold np_abs. apply in_map. exact Hx.
  - apply Qlt_bool_false in Hclip.
    exists mixed. split; [reflexivity|]. split; [exact Hmixed|].
    exists peak. split; [exact Hpeak|exact Hclip].
Qed.

(** ** The presets *)

Section Presets.
Context {E : Externals}.

(** The monad laws of [M], state by state. *)
Lemma M_bind_mret_l {A B} (a : A) (k : A -> M B) (w : world) : (mret a ≫= k) w = k a w.
Proof. reflexivity. Qed.

Lemma M_bind_mret_r {A} (c : M A) (w : world) : (c ≫= mret) w = c w.
Proof.
  unfold mbind, M_bind. destruct (c w) as [[a|e] w']; reflexivity.
Qed.

Lemma M_bind_assoc {A B C} (c : M A) (f : A -> M B) (g : B -> M C) (w : world) :
  ((c ≫= f) ≫= g) w = (c ≫= (fun a => f a ≫= g)) w.
Proof.
  unfold mbind, M_bind. destruct (c w) as [[a|e] w']; reflexivity.
Qed.

(** Composing the stages after a first stage [f] is running them on the
    output of [f]. *)
Lemma fold_then_stage_run (stages : list stage) (f : stage) (audio : list Q) (w : world) :
  fold_left then_stage stages f audio w = (f audio ≫= run_stages stages) w.
Proof.
  revert f. induction stages as [|s rest IH]; intros f; simpl.
  - symmetry. apply (M_bind_mret_r (f audio) w).
  - rewrite IH. unfold then_stage. apply M_bind_assoc.
Qed.

Lemma compose_stages_run (stages : list stage) (audio : list Q) (w : world) :
  compose_stages stages audio w = run_stages stages audio w.
Proof.
  unfold compose_stages. rewrite fold_then_stage_run. apply M_bind_mret_l.
Qed.

(** The body of the preset is the run of its eight stages. *)
Lemma simulate_walkie_talkie_run
    (audio : list Q) (sr : Q) (style_params : gmap string Q) (w : world) :
  simulate_walkie_talkie audio sr style_params w
  = run_stages (walkie_stages sr (walkie_style_params style_params)) audio w.
Proof. reflexivity. Qed.

(** C2.  The walkie preset is the composition, in this order, of the
    high-pass filter, the low-pass filter, the compressor, the distortion,
    the bit crusher, the push-to-talk clicks, the additive noise and the
    static effect, each with the parameters resolved from [style_params]:
    on every buffer and from every state the preset's result and final state
    are those of the composed stages of [walkie_stages]. *)
Theorem simulate_walkie_talkie_stage_order
    (audio : list Q) (sr : Q) (style_params : gmap string Q) (w : world) :
  simulate_walkie_talkie audio sr style_params w
  = compose_stages (walkie_stages sr (walkie_style_params style_params)) audio w.
Proof.
  rewrite compose_stages_run.
  apply simulate_walkie_talkie_run.
Qed.

(** The stages of the walkie preset are eight. *)
Lemma walkie_stages_count (sr : Q) (p : walkie_style) : length (walkie_stages sr p) = 8%nat.
Proof. reflexivity. Qed.

(** A stage that raises ends the run: no later stage is executed. *)
Lemma run_stages_raise (s : stage) (rest : list stage) (audio : list Q) (w w' : world) (e : exn) :
  s audio w = (Raise e, w') -> run_stages (s :: rest) audio w = (Raise e, w').
Proof. intros H. simpl. apply M_bind_raise. exact H. Qed.

(** ** Style parameters *)

Lemma get_absent (style_params : gmap string Q) (key : string) (dflt : Q) :
  style_params !! key = None -> get style_params key dflt = dflt.
Proof. intros H. unfold get. rewrite H. reflexivity. Qed.

Lemma get_present (style_params : gmap string Q) (key : string) (dflt v : Q) :
  style_params !! key = Some v -> get style_params key dflt = v.
Proof. intros H. unfold get. rewrite H. reflexivity. Qed.

Lemma get_insert_other (style_params : gmap string Q) (name key : string) (v dflt : Q) :
  name <> key -> get (<[name := v]> style_params) key dflt = get style_params key dflt.
Proof. intros H. unfold get. rewrite lookup_insert_ne by exact H. reflexivity. Qed.

Lemma radio_defaults_resolved (style_params : gmap string Q) (name : string) (d : Q) :
  In (name, d) radio_default_table ->
  style_params !! name = None ->
  radio_field name (radio_style_params style_params) = Some d.
Proof.
  intros Hin Habs. unfold radio_default_table in Hin. simpl in Hin.
  repeat (destruct Hin as [Hin|Hin];
          [injection Hin as <- <-; unfold radio_field; simpl;
           rewrite get_absent by exact Habs; reflexivity|]).
  contradiction.
Qed.

Lemma walkie_defaults_resolved (style_params : gmap string Q) (name : string) (d : Q) :
  In (name, d) walkie_default_table ->
  style_params !! name = None ->
  walkie_field name (walkie_style_params style_params) = Some d.
Proof.
  intros Hin Habs. unfold walkie_default_table in Hin. simpl in Hin.
  repeat (destruct Hin as [Hin|Hin];
          [injection Hin as <- <-; unfold walkie_field; simpl;
           rewrite get_absent by exact Habs; reflexivity|]).
  contradiction.
Qed.

Lemma radio_unrecognized_ignored (style_params : gmap string Q) (name : string) (v : Q) :
  ~ In name (map fst radio_default_table) ->
  radio_style_params (<[name := v]> style_params) = radio_style_params style_params.
Proof.
  intros Hnot. unfold radio_style_params.
  rewrite !get_insert_other; [reflexivity|..];
    intros ->; apply Hnot; simpl; tauto.
Qed.

Lemma walkie_unrecognized_ignored (style_params : gmap string Q) (name : string) (v : Q) :
  ~ In name (map fst walkie_default_table) ->
  walkie_style_params (<[name := v]> style_params) = walkie_style_params style_params.
Proof.
  intros Hnot. unfold walkie_style_params.
  rewrite !get_insert_other; [reflexivity|..];
    intros ->; apply Hnot; simpl; tauto.
Qed.

(** The call of a preset with keyword arguments. *)

Lemma call_with_style_params_bound (fname : string)
    (body : list Q -> Q -> gmap string Q -> M (list Q))
    (audio : list Q) (sr : Q) (style_params : gmap string Q) :
  style_params !! "audio"%string = None -> style_params !! "sr"%string = None ->
  call_with_style_params fname body audio sr style_params = body audio sr style_params.
Proof. intros Ha Hs. unfold call_with_style_params. rewrite Ha, Hs. reflexivity. Qed.

Lemma call_with_style_params_duplicate (fname : string)
    (body : list Q -> Q -> gmap string Q -> M (list Q))
    (audio : list Q) (sr : Q) (style_params : gmap string Q) (w : world) :
  is_Some (style_params !! "audio"%string) \/ is_Some (style_params !! "sr"%string) ->
  exists msg,
    call_with_style_params fname body audio sr style_params w = (Raise (TypeError msg), w).
Proof.
  intros H. unfold call_with_style_params.
  destruct (style_params !! "audio"%string) as [a|]; [eexists; reflexivity|].
  destruct (style_params !! "sr"%string) as [s|]; [eexists; reflexivity|].
  destruct H as [[x H]|[x H]]; discriminate H.
Qed.

Lemma call_with_style_params_insert (fname : string)
    (body : list Q -> Q -> gmap string Q -> M (list Q))
    (audio : list Q) (sr : Q) (style_params : gmap string Q) (name : string) (v : Q) :
  name <> "audio"%string -> name <> "sr"%string ->
  body audio sr (<[name := v]> style_params) = body audio sr style_params ->
  call_with_style_params fname body audio sr (<[name := v]> style_params)
  = call_with_style_params fname body audio sr style_params.
Proof.
  intros Ha Hs Hbody. unfold call_with_style_params.
  rewrite !lookup_insert_ne by assumption. rewrite Hbody. reflexivity.
Qed.

(** C9, as the code has it.  For both presets and every sparse map of
    overrides: a name of the preset's table that is absent from the
    overrides resolves to the default listed for it; a name outside the
    table, other than the names [audio] and [sr] of the preset's two
    positional parameters, is ignored, by the resolution and by the call of
    the preset; an override named [audio] or [sr] makes the call raise
    [TypeError] before the body runs; and no name is required, the call
    with the empty map running the body on the defaults. *)
Theorem style_params_defaults (style_params : gmap string Q) :
  (forall name d, In (name, d) radio_default_table ->
                  style_params !! name = None ->
                  radio_field name (radio_style_params style_params) = Some d) /\
  (forall name d, In (name, d) walkie_default_table ->
                  style_params !! name = None ->
                  walkie_field name (walkie_style_params style_params) = Some d) /\
  (forall name v audio sr,
     ~ In name (map fst radio_default_table) ->
     name <> "audio"%string -> name <> "sr"%string ->
     radio_style_params (<[name := v]> style_params) = radio_style_params style_params /\
     call_with_style_params "simulate_old_radio" simulate_old_radio
                            audio sr (<[name := v]> style_params)
     = call_with_style_params "simulate_old_radio" simulate_old_radio
                              audio sr style_params) /\
  (forall name v audio sr,
     ~ In name (map fst walkie_default_table) ->
     name <> "audio"%string -> name <> "sr"%string ->
     walkie_style_params (<[name := v]> style_params) = walkie_style_params style_params /\
     call_with_style_params "simulate_walkie_talkie" simulate_walkie_talkie
                            audio sr (<[name := v]> style_params)
     = call_with_style_params "simulate_walkie_talkie" simulate_walkie_talkie
                              audio sr style_params) /\
  (forall name v fname body audio sr w,
     name = "audio"%string \/ name = "sr"%string ->
     exists msg,
       call_with_style_params fname body audio sr (<[name := v]> style_params) w
       = (Raise (TypeError msg), w)) /\
  (forall audio sr,
     call_with_style_params "simulate_old_radio" simulate_old_radio audio sr ∅
     = simulate_old_radio audio sr ∅ /\
     call_with_style_params "simulate_walkie_talkie" simulate_walkie_talkie audio sr ∅
     = simulate_walkie_talkie audio sr ∅) /\
  radio_style_params ∅
  = RadioStyle 300 3000 (12 # 10) (8 # 1000) 8000 (2 # 10) 1 /\
  walkie_style_params ∅
  = WalkieStyle 300 4000 (105 # 100) (1 # 100) (3 # 100) 8 5 150 8.
Proof.
  split; [intros name d; apply radio_defaults_resolved|].
  split; [intros name d; apply walkie_defaults_resolved|].
  split.
  { intros name v audio sr Hnot Ha Hs.
    pose proof (radio_unrecognized_ignored style_params name v Hnot) as Hp.
    split; [exact Hp|]. apply call_with_style_params_insert; [exact Ha|exact Hs|].
    unfold simulate_old_radio. rewrite Hp. reflexivity. }
  split.
  { intros name v audio sr Hnot Ha Hs.
    pose proof (walkie_unrecognized_ignored style_params name v Hnot) as Hp.
    split; [exact Hp|]. apply call_with_style_params_insert; [exact Ha|exact Hs|].
    unfold simulate_walkie_talkie. rewrite Hp. reflexivity. }
  split.
  { intros name v fname body audio sr w Hname.
    apply call_with_style_params_duplicate.
    destruct Hname as [-> | ->]; [left|right]; rewrite lookup_insert_eq; eauto. }
  split.
  { intros audio sr. split; apply call_with_style_params_bound; apply lookup_empty. }
  split; reflexivity.
Qed.

(** An override of a name of the table is the resolved value. *)
Lemma radio_override_resolved (style_params : gmap string Q) (name : string) (d v : Q) :
  In (name, d) radio_default_table ->
  style_params !! name = Some v ->
  radio_field name (radio_style_params style_params) = Some v.
Proof.
  intros Hin Hv. unfold radio_default_table in Hin. simpl in Hin.
  repeat (destruct Hin as [Hin|Hin];
          [injection Hin as <- <-; unfold radio_field; simpl;
           rewrite (get_present _ _ _ v) by exact Hv; reflexivity|]).
  contradiction.
Qed.

(** ** Dispatch on the effect name *)

(** C7.  For every effect name other than "radio" and "walkie",
    [process_audio] raises and leaves the state as it found it: no random
    number has been drawn, so no stage has run, and no file has been
    written.  Once the input is loaded the exception is the [ValueError]
    of the dispatch. *)
Theorem process_audio_unknown_effect
    (input_file output_file effect_type : string) (style_params : gmap string Q) (w : world) :
  effect_type <> "radio"%string -> effect_type <> "walkie"%string ->
  (exists e, process_audio input_file output_file effect_type style_params w = (Raise e, w)) /\
  (forall audio sr,
     librosa_load input_file = Ok (audio, sr) ->
     process_audio input_file output_file effect_type style_params w
     = (Raise (ValueError "Effect type must be 'radio' or 'walkie'"), w)).
Proof.
  intros Hr Hw.
  apply String.eqb_neq in Hr. apply String.eqb_neq in Hw.
  unfold process_audio. rewrite Hr, Hw.
  split.
  - destruct (librosa_load input_file) as [loaded|e]; eauto.
  - intros audio sr Hload. rewrite Hload. reflexivity.
Qed.

End Presets.

(** ** The statements on concrete inputs *)

Lemma plain_externals_ok : ExternalsOk plain_externals.
Proof.
  split.
  - intros N bt Wn. simpl. rewrite length_replicate. split; [lia|reflexivity].
  - intros b a x. reflexivity.
Qed.

(** A hundred samples at 44100 Hz, reduced to 8000 Hz and back; and a
    target rate that is not below the rate of the buffer. *)
Lemma reduce_sample_rate_round_trip_witness :
  (exists out,
     reduce_sample_rate (E := plain_externals) (replicate 100 0) 44100 8000 = Ok out /\
     (length (replicate 100 (0 : Q)) <= length out)%nat /\
     (length out <= length (replicate 100 (0 : Q)) + Z.to_nat (Qceiling (44100 / 8000)))%nat /\
     (44100 == 8000 -> out = replicate 100 0)) /\
  degrade (E := plain_externals) (replicate 100 0) 44100 8000
  = reduce_sample_rate (E := plain_externals) (replicate 100 0) 44100 8000 /\
  degrade (E := plain_externals) (replicate 100 0) 8000 44100 = Ok (replicate 100 0).
Proof.
  destruct (@reduce_sample_rate_round_trip plain_externals (replicate 100 0) 44100 8000)
    as [Hlen [Hbelow _]]; [reflexivity|reflexivity|].
  destruct (@reduce_sample_rate_round_trip plain_externals (replicate 100 0) 8000 44100)
    as [_ [_ Habove]]; [reflexivity|reflexivity|].
  split; [exact Hlen|]. split.
  - apply Hbelow. reflexivity.
  - apply Habove. unfold Qle. simpl. lia.
Defined.

(** C3 as stated fails: a hundred samples at 44100 Hz come back from
    8000 Hz as 105 samples. *)
Lemma reduce_sample_rate_length_counterexample :
  ~ (forall E : Externals,
       exists out,
         reduce_sample_rate (replicate 100 0) 44100 8000 = Ok out /\
         length out = length (replicate 100 (0 : Q))).
Proof.
  intros H. destruct (H plain_externals) as [out [Hout Hlen]].
  destruct (@reduce_sample_rate_length plain_externals (replicate 100 0) 44100 8000)
    as [out' [Hout' Hlen']]; [reflexivity|reflexivity|].
  rewrite Hout in Hout'. injection Hout' as <-.
  rewrite Hlen in Hlen'. vm_compute in Hlen'. discriminate Hlen'.
Qed.

Lemma reduce_sample_rate_100_samples (E : Externals) :
  exists out,
    reduce_sample_rate (replicate 100 0) 44100 8000 = Ok out /\ length out = 105%nat.
Proof.
  destruct (reduce_sample_rate_length (replicate 100 0) 44100 8000)
    as [out [Hout Hlen]]; [reflexivity|reflexivity|].
  exists out. split; [exact Hout|]. rewrite Hlen. vm_compute. reflexivity.
Qed.

(** Three samples at 22050 Hz: 661 click samples on either side. *)
Lemma add_ptt_artifacts_length_witness :
  exists out w',
    add_ptt_artifacts (E := plain_externals) three_samples 22050 world0 = (Ok out, w') /\
    length out = (length three_samples + 2 * Z.to_nat (py_int ((3 # 100) * 22050)))%nat.
Proof.
  apply (@add_ptt_artifacts_length plain_externals plain_externals_ok three_samples 22050 world0).
  reflexivity.
Defined.

(** C4 as stated fails: at 11025 Hz the click has [int(330.75) = 330]
    samples, not [round(330.75) = 331]; and at 4000 Hz, where the click's
    band reaches beyond the Nyquist frequency, the stage returns no buffer. *)
Lemma add_ptt_artifacts_length_counterexample :
  ~ (forall E : Externals, ExternalsOk E ->
       exists out w',
         add_ptt_artifacts three_samples 11025 world0 = (Ok out, w') /\
         length out = (length three_samples
                       + 2 * Z.to_nat (np_round ((3 # 100) * 11025)))%nat) /\
  ~ (forall E : Externals, ExternalsOk E ->
       exists out w',
         add_ptt_artifacts three_samples 4000 world0 = (Ok out, w') /\
         length out = (length three_samples
                       + 2 * Z.to_nat (np_round ((3 # 100) * 4000)))%nat).
Proof.
  split.
  - intros H. destruct (H plain_externals plain_externals_ok) as [out [w' [Hout Hlen]]].
    destruct (@add_ptt_artifacts_ok plain_externals plain_externals_ok three_samples 11025 world0)
      as [out' [w'' [Hout' Hlen']]]; [reflexivity|reflexivity|].
    rewrite Hout in Hout'. injection Hout' as <- <-.
    rewrite Hlen in Hlen'. vm_compute in Hlen'. discriminate Hlen'.
  - intros H. destruct (H plain_externals plain_externals_ok) as [out [w' [Hout _]]].
    destruct (@add_ptt_artifacts_low_rate plain_externals three_samples 4000 world0)
      as [msg [w'' Hraise]].
    + reflexivity.
    + unfold Qle. simpl. lia.
    + rewrite Hout in Hraise. discriminate Hraise.
Qed.

(** Five samples and a background of two. *)
Lemma mix_with_background_length_and_peak_witness :
  exists out,
    mix_with_background [1; 1; 1; 1; 1] [1; -1] (2 # 10) = Ok out /\
    length out = length [1; 1; 1; 1; (1 : Q)] /\
    peak_le out 1.
Proof.
  apply (mix_with_background_length_and_peak [1; 1; 1; 1; 1] [1; -1] (2 # 10)).
  - discriminate.
  - discriminate.
Defined.

(** C6 as stated fails: on an empty primary buffer the peak of the mix is
    the maximum of an empty array, which raises. *)
Lemma mix_with_background_empty_counterexample :
  mix_with_background [] [1] (2 # 10)
  = Raise (ValueError "zero-size array to reduction operation maximum which has no identity").
Proof. reflexivity. Qed.

(** The effect "fm" on a file that loads. *)
Lemma process_audio_unknown_effect_witness :
  (exists e, process_audio (E := plain_externals) "in.wav" "out.wav" "fm" ∅ world0
             = (Raise e, world0)) /\
  process_audio (E := plain_externals) "in.wav" "out.wav" "fm" ∅ world0
  = (Raise (ValueError "Effect type must be 'radio' or 'walkie'"), world0).
Proof.
  destruct (@process_audio_unknown_effect plain_externals "in.wav" "out.wav" "fm" ∅ world0)
    as [Hraise Hvalue]; [discriminate|discriminate|].
  split; [exact Hraise|].
  apply (Hvalue (replicate 40 (1 # 2)) 22050). reflexivity.
Defined.

(** Forty samples at 22050 Hz with the radio band, with a band above the
    Nyquist frequency, and ten samples with the radio band. *)
Lemma apply_bandpass_filter_contract_witness :
  (exists out,
     apply_bandpass_filter (E := plain_externals) (replicate 40 (1 # 2)) 22050 300 3000 = Ok out /\
     length out = 40%nat) /\
  (exists msg,
     apply_bandpass_filter (E := plain_externals) (replicate 40 (1 # 2)) 22050 20000 21000
     = Raise (ValueError msg)) /\
  (exists e,
     apply_bandpass_filter (E := plain_externals) (replicate 10 (1 # 2)) 22050 300 3000
     = Raise e).
Proof.
  split; [|split].
  - apply (@apply_bandpass_filter_contract plain_externals plain_externals_ok
             (replicate 40 (1 # 2)) 22050 300 3000); try reflexivity.
    simpl. lia.
  - apply (@apply_bandpass_filter_contract plain_externals plain_externals_ok
             (replicate 40 (1 # 2)) 22050 20000 21000).
    + reflexivity.
    + unfold Qle. simpl. lia.
  - apply (@apply_bandpass_filter_contract plain_externals plain_externals_ok
             (replicate 10 (1 # 2)) 22050 300 3000).
    simpl. lia.
Defined.

(** C8 as stated fails: ten samples at 22050 Hz with the band from 300 Hz
    to 3000 Hz, inside [0 < low < high < sr/2], are rejected. *)
Lemma apply_bandpass_filter_short_counterexample :
  ~ (forall E : Externals, ExternalsOk E ->
       exists out,
         apply_bandpass_filter (replicate 10 (1 # 2)) 22050 300 3000 = Ok out /\
         length out = length (replicate 10 (1 # 2))).
Proof.
  intros H. destruct (H plain_externals plain_externals_ok) as [out [Hout _]].
  destruct (@apply_bandpass_filter_short plain_externals plain_externals_ok
              (replicate 10 (1 # 2)) 22050 300 3000) as [e He]; [simpl; lia|].
  rewrite Hout in He. discriminate He.
Qed.

(** One override of a name of the tables, one name outside them, and an
    override named after the positional parameter [sr]. *)
Lemma style_params_defaults_witness :
  radio_field "low_cutoff" (radio_style_params {[ "noise_factor"%string := 1 # 50 ]}) = Some 300 /\
  walkie_field "bit_depth" (walkie_style_params {[ "noise_factor"%string := 1 # 50 ]}) = Some 8 /\
  radio_style_params (<[ "volume"%string := 3 ]> {[ "noise_factor"%string := 1 # 50 ]})
  = radio_style_params {[ "noise_factor"%string := 1 # 50 ]} /\
  call_with_style_params "simulate_old_radio" (@simulate_old_radio plain_externals)
    three_samples 22050 (<[ "volume"%string := 3 ]> {[ "noise_factor"%string := 1 # 50 ]})
  = call_with_style_params "simulate_old_radio" (@simulate_old_radio plain_externals)
      three_samples 22050 {[ "noise_factor"%string := 1 # 50 ]} /\
  exists msg,
    call_with_style_params "simulate_walkie_talkie"
      (@simulate_walkie_talkie plain_externals) three_samples 22050
      (<[ "sr"%string := 8000 ]> {[ "noise_factor"%string := 1 # 50 ]}) world0
    = (Raise (TypeError msg), world0).
Proof.
  destruct (@style_params_defaults plain_externals {[ "noise_factor"%string := 1 # 50 ]})
    as [Hradio [Hwalkie [Hignored [_ [Hdup _]]]]].
  assert (Hvolume : ~ In "volume"%string (map fst radio_default_table)).
  { simpl. intros H. repeat (destruct H as [H|H]; [discriminate H|]). exact H. }
  split; [|split; [|split; [|split]]].
  - apply Hradio; [simpl; tauto|reflexivity].
  - apply Hwalkie; [simpl; tauto|reflexivity].
  - apply (Hignored "volume"%string 3 three_samples 22050);
      [exact Hvolume|discriminate|discriminate].
  - apply (Hignored "volume"%string 3 three_samples 22050);
      [exact Hvolume|discriminate|discriminate].
  - apply (Hdup "sr"%string 8000). right. reflexivity.
Defined.

(** * Further properties of the stages *)

(** ** Distortion *)

Lemma np_clip_bounds (x : Q) : -1 <= np_clip x (-1) 1 /\ np_clip x (-1) 1 <= 1.
Proof.
  unfold np_clip. split.
  - apply Q.min_glb; [apply Q.le_max_r|unfold Qle; simpl; lia].
  - apply Q.le_min_r.
Qed.

Lemma np_clip_in_range (x : Q) : -1 <= x -> x <= 1 -> np_clip x (-1) 1 == x.
Proof.
  intros Hlo Hhi. unfold np_clip.
  rewrite (Q.max_l x (-1)) by exact Hlo.
  apply Q.min_l. exact Hhi.
Qed.

(** X1.  Distortion keeps the length of the buffer and, whatever the gain,
    leaves every sample within [-1, 1]. *)
Theorem apply_distortion_clipped (audio : list Q) (amount : Q) :
  length (apply_distortion audio amount) = length audio /\
  within_unit (apply_distortion audio amount).
Proof.
  unfold apply_distortion, within_unit. split.
  - apply length_map.
  - apply Forall_forall. intros y Hy.
    apply list_elem_of_In, in_map_iff in Hy. destruct Hy as [x [<- _]].
    apply np_clip_bounds.
Qed.

(** X2.  Clipping is idempotent: distortion at unit gain leaves the output
    of a distortion as it is, and leaves every buffer that is already within
    [-1, 1] as it is. *)
Theorem apply_distortion_unit_gain (audio : list Q) (amount : Q) :
  same_values (apply_distortion (apply_distortion audio amount) 1)
              (apply_distortion audio amount) /\
  (within_unit audio -> same_values (apply_distortion audio 1) audio).
Proof.
  assert (Hunit : forall a, within_unit a -> same_values (apply_distortion a 1) a).
  { intros a Ha. unfold same_values, apply_distortion.
    induction Ha as [|x a [Hlo Hhi] _ IH]; simpl; constructor; [|exact IH].
    assert (H1 : x * 1 == x) by ring.
    rewrite np_clip_in_range; [exact H1|rewrite H1; exact Hlo|rewrite H1; exact Hhi]. }
  split; [|apply Hunit].
  apply Hunit. unfold apply_distortion, within_unit.
  apply Forall_forall. intros y Hy.
  apply list_elem_of_In, in_map_iff in Hy. destruct Hy as [x [<- _]].
  apply np_clip_bounds.
Qed.

(** ** The bit crusher *)

Lemma np_round_error (q : Q) : Qabs (inject_Z (np_round q) - q) <= 1 # 2.
Proof.
  unfold np_round.
  pose proof (Qfloor_le q) as Hlo.
  pose proof (Qlt_floor q) as Hhi.
  rewrite inject_Z_plus in Hhi.
  set (f := inject_Z (Qfloor q)) in *.
  change (inject_Z 1) with 1 in Hhi.
  apply Qabs_Qle_condition.
  destruct (Qcompare (q - f) (1 # 2)) eqn:Hc.
  - apply Qeq_alt in Hc.
    destruct (Z.even (Qfloor q)); [fold f|rewrite inject_Z_plus; fold f; change (inject_Z 1) with 1];
      split; lra.
  - apply (proj2 (Qlt_alt _ _)) in Hc. fold f. split; lra.
  - apply (proj2 (Qgt_alt _ _)) in Hc.
    rewrite inject_Z_plus. fold f. change (inject_Z 1) with 1. split; lra.
Qed.

Lemma np_round_le_integer (q : Q) (M : Z) : q <= inject_Z M -> (np_round q <= M)%Z.
Proof.
  intros Hq.
  pose proof (Qfloor_le q) as Hlo.
  assert (Hf : (Qfloor q <= M)%Z).
  { rewrite <- (Qfloor_Z M). apply Qfloor_resp_le. exact Hq. }
  assert (Hstep : 0 < q - inject_Z (Qfloor q) -> (Qfloor q + 1 <= M)%Z).
  { intros Hr. destruct (Z.eq_dec (Qfloor q) M) as [Heq|Hne]; [|lia].
    rewrite Heq in Hr. lra. }
  unfold np_round.
  destruct (Qcompare (q - inject_Z (Qfloor q)) (1 # 2)) eqn:Hc.
  - apply Qeq_alt in Hc.
    destruct (Z.even (Qfloor q)); [exact Hf|apply Hstep; lra].
  - exact Hf.
  - apply (proj2 (Qgt_alt _ _)) in Hc. apply Hstep. lra.
Qed.

Lemma np_round_ge_integer (q : Q) (M : Z) : inject_Z M <= q -> (M <= np_round q)%Z.
Proof.
  intros Hq.
  assert (Hf : (M <= Qfloor q)%Z).
  { rewrite <- (Qfloor_Z M). apply Qfloor_resp_le. exact Hq. }
  unfold np_round.
  destruct (Qcompare (q - inject_Z (Qfloor q)) (1 # 2));
    [destruct (Z.even (Qfloor q))| |]; lia.
Qed.

Lemma Qabs_div_pos (a m : Q) : 0 < m -> Qabs (a / m) == Qabs a / m.
Proof.
  intros Hm. unfold Qdiv. rewrite Qabs_Qmult.
  rewrite (Qabs_pos (/ m)) by (apply Qlt_le_weak, Qinv_lt_0_compat; exact Hm).
  reflexivity.
Qed.

Section BitCrusherRange.
Context {E : Externals}.

(** One sample: the error of the quantisation with a positive scale is at
    most half a step. *)
Lemma quantise_sample_error (x m : Q) :
  0 < m -> Qabs (inject_Z (np_round (x * m)) / m - x) <= (1 # 2) / m.
Proof.
  intros Hm.
  assert (Heq : inject_Z (np_round (x * m)) / m - x
                == (inject_Z (np_round (x * m)) - x * m) / m).
  { field. apply Qpos_neq_0. exact Hm. }
  rewrite Heq, Qabs_div_pos by exact Hm.
  apply Qmult_le_compat_r; [apply np_round_error|].
  apply Qlt_le_weak, Qinv_lt_0_compat. exact Hm.
Qed.

(** One sample within [-1, 1] stays there when the scale is an integer. *)
Lemma quantise_sample_within_unit (x : Q) (M : Z) :
  (0 < M)%Z -> -1 <= x -> x <= 1 ->
  -1 <= inject_Z (np_round (x * inject_Z M)) / inject_Z M /\
  inject_Z (np_round (x * inject_Z M)) / inject_Z M <= 1.
Proof.
  intros HM Hlo Hhi.
  assert (Hm : 0 < inject_Z M) by (change 0 with (inject_Z 0); rewrite <- Zlt_Qlt; exact HM).
  assert (Hup : (np_round (x * inject_Z M) <= M)%Z).
  { apply np_round_le_integer. nra. }
  assert (Hdown : (- M <= np_round (x * inject_Z M))%Z).
  { apply np_round_ge_integer. rewrite inject_Z_opp. nra. }
  rewrite Zle_Qle in Hup. rewrite Zle_Qle, inject_Z_opp in Hdown.
  split.
  - apply Qle_shift_div_l; [exact Hm|]. lra.
  - apply Qle_shift_div_r; [exact Hm|]. lra.
Qed.

Lemma bit_crusher_scale_positive (b : Z) :
  (1 <= b)%Z -> (0 < 2 ^ (b - 1))%Z.
Proof. intros Hb. apply Z.pow_pos_nonneg; lia. Qed.

(** X3.  For an integral bit depth [b] from 1 to 1024, the depths whose
    scale [2^(b-1)] is a double, the bit crusher keeps the length of the
    buffer, puts every sample on the grid of the multiples of [1 / 2^(b-1)],
    and moves no sample by more than half a step, [1 / 2^b]. *)
Theorem apply_bit_crusher_quantises (audio : list Q) (b : Z) :
  (1 <= b <= 1024)%Z ->
  length (apply_bit_crusher audio (inject_Z b)) = length audio /\
  Forall2 (fun x y => Qabs (y - x) <= 1 / inject_Z (2 ^ b) /\
                      exists k : Z, y == inject_Z k / inject_Z (2 ^ (b - 1)))
          audio (apply_bit_crusher audio (inject_Z b)).
Proof.
  intros [Hb _]. unfold apply_bit_crusher.
  pose proof (bit_crusher_scale b Hb) as Hscale.
  pose proof (bit_crusher_scale_positive b Hb) as HM.
  set (m := py_pow2 (inject_Z b - 1)) in *.
  assert (Hm : 0 < m).
  { rewrite Hscale. change 0 with (inject_Z 0). rewrite <- Zlt_Qlt. exact HM. }
  assert (Hhalf : (1 # 2) / m == 1 / inject_Z (2 ^ b)).
  { rewrite Hscale. replace b with (Z.succ (b - 1)) at 2 by lia.
    rewrite Z.pow_succ_r by lia. rewrite inject_Z_mult.
    field. intros H0.
    assert (H1 : 0 < inject_Z (2 ^ (b - 1)))
      by (change 0 with (inject_Z 0); rewrite <- Zlt_Qlt; exact HM).
    rewrite H0 in H1. exact (Qlt_irrefl _ H1). }
  split; [apply length_map|].
  induction audio as [|x rest IH]; simpl; constructor; [|exact IH].
  split.
  - rewrite <- Hhalf. apply quantise_sample_error. exact Hm.
  - exists (np_round (x * m)). unfold Qdiv.
    apply Qmult_comp; [reflexivity|apply Qinv_comp; exact Hscale].
Qed.

(** X4.  For an integral bit depth [b] from 1 to 1024 the bit crusher
    keeps a buffer within [-1, 1] within [-1, 1]; so the distortion followed
    by the bit crusher, as in the walkie preset, yields samples within
    [-1, 1] whatever the gain and the input. *)
Theorem apply_bit_crusher_within_unit (audio : list Q) (amount : Q) (b : Z) :
  (1 <= b <= 1024)%Z ->
  (within_unit audio -> within_unit (apply_bit_crusher audio (inject_Z b))) /\
  within_unit (apply_bit_crusher (apply_distortion audio amount) (inject_Z b)).
Proof.
  intros [Hb _].
  pose proof (bit_crusher_scale b Hb) as Hscale.
  pose proof (bit_crusher_scale_positive b Hb) as HM.
  assert (Hkeep : forall a, within_unit a -> within_unit (apply_bit_crusher a (inject_Z b))).
  { intros a Ha. unfold within_unit, apply_bit_crusher in *.
    induction Ha as [|x a [Hlo Hhi] _ IH]; simpl; constructor; [|exact IH].
    pose proof (quantise_sample_within_unit x (2 ^ (b - 1)) HM Hlo Hhi) as Hx.
    assert (Hr : np_round (x * py_pow2 (inject_Z b - 1))
                 = np_round (x * inject_Z (2 ^ (b - 1)))).
    { apply np_round_proper. rewrite Hscale. reflexivity. }
    rewrite Hr, Hscale. exact Hx. }
  split; [apply Hkeep|].
  apply Hkeep. unfold apply_distortion, within_unit.
  apply Forall_forall. intros y Hy.
  apply list_elem_of_In, in_map_iff in Hy. destruct Hy as [x [<- _]].
  apply np_clip_bounds.
Qed.

End BitCrusherRange.

Lemma apply_bit_crusher_quantises_witness :
  length (apply_bit_crusher (E := plain_externals) [1 # 3; -7 # 10; 1] (inject_Z 8)) = 3%nat /\
  Forall2 (fun x y => Qabs (y - x) <= 1 / inject_Z (2 ^ 8) /\
                      exists k : Z, y == inject_Z k / inject_Z (2 ^ (8 - 1)))
          [1 # 3; -7 # 10; 1]
          (apply_bit_crusher (E := plain_externals) [1 # 3; -7 # 10; 1] (inject_Z 8)).
Proof.
  apply (@apply_bit_crusher_quantises plain_externals [1 # 3; -7 # 10; 1] 8%Z). lia.
Defined.

Lemma apply_bit_crusher_within_unit_witness :
  within_unit (apply_bit_crusher (E := plain_externals) [1 # 3; -7 # 10; 1] (inject_Z 8)) /\
  within_unit (apply_bit_crusher (E := plain_externals)
                 (apply_distortion [1 # 3; -7 # 10; 5] (12 # 10)) (inject_Z 8)).
Proof.
  destruct (@apply_bit_crusher_within_unit plain_externals [1 # 3; -7 # 10; 1] (12 # 10) 8%Z)
    as [Hkeep _]; [lia|].
  destruct (@apply_bit_crusher_within_unit plain_externals [1 # 3; -7 # 10; 5] (12 # 10) 8%Z)
    as [_ Hchain]; [lia|].
  split; [|exact Hchain].
  apply Hkeep. unfold within_unit.
  repeat constructor; unfold Qle; simpl; lia.
Defined.

(** ** Noise and static *)

Lemma lookup_map_list {A B} (f : A -> B) (l : list A) (i : nat) :
  map f l !! i = f <$> (l !! i).
Proof.
  revert i. induction l as [|x l IH]; intros [|i]; simpl; try reflexivity.
  apply IH.
Qed.

Lemma same_values_refl (a : list Q) : same_values a a.
Proof. unfold same_values. induction a; constructor; [reflexivity|assumption]. Qed.

Lemma same_values_length (a b : list Q) : same_values a b -> length a = length b.
Proof. apply Forall2_length. Qed.

(** Adding an array of zeros changes no value. *)
Lemma zip_plus_zeros (a b : list Q) :
  length a = length b -> Forall (fun y => y == 0) b ->
  same_values (zip_with Qplus a b) a.
Proof.
  unfold same_values. revert b.
  induction a as [|x a IH]; intros [|y b] Hlen Hb; simpl in *; try discriminate.
  - constructor.
  - inversion Hb as [|? ? Hy Hb']; subst. constructor.
    + rewrite Hy. ring.
    + apply IH; [lia|exact Hb'].
Qed.

Lemma fold_right_Qplus_nonneg (a : list Q) :
  Forall (fun x => 0 <= x) a -> 0 <= fold_right Qplus 0 a.
Proof.
  induction 1 as [|x a Hx _ IH]; simpl; [apply Qle_refl|].
  lra.
Qed.

Section Noise.
Context {E : Externals}.

Lemma np_random_normal_value (loc scale : Q) (size : Z) (w : world) :
  0 <= scale -> (0 <= size)%Z ->
  np_random_normal loc scale size w
  = (Ok (map (fun k => loc + scale * gauss (rng_pos w + k)) (seq 0 (Z.to_nat size))),
     World (rng_pos w + Z.to_nat size) (written w)).
Proof.
  intros Hs Hn. unfold np_random_normal.
  rewrite (proj2 (Qlt_bool_false scale 0) Hs).
  rewrite (proj2 (Z.ltb_ge size 0) Hn). reflexivity.
Qed.

Lemma np_mean_nonneg (a : list Q) : Forall (fun x => 0 <= x) a -> 0 <= np_mean a.
Proof.
  intros Ha. unfold np_mean, Qdiv.
  apply Qmult_le_0_compat; [apply fold_right_Qplus_nonneg; exact Ha|].
  apply Qinv_le_0_compat. change 0 with (inject_Z 0). rewrite <- Zle_Qle. lia.
Qed.

(** The standard deviation is not negative when the square root is not. *)
Lemma np_std_nonneg (a : list Q) :
  (forall x, 0 <= x -> 0 <= np_sqrt x) -> 0 <= np_std a.
Proof.
  intros Hsqrt. unfold np_std. apply Hsqrt, np_mean_nonneg.
  apply Forall_forall. intros y Hy.
  apply list_elem_of_In, in_map_iff in Hy. destruct Hy as [x [<- _]].
  apply Qmult_le_0_compat; apply Qabs_nonneg.
Qed.

Lemma length_draws_from (loc scale : Q) (pos n : nat) :
  length (draws_from loc scale pos n) = n.
Proof. unfold draws_from. rewrite length_map. apply length_seq. Qed.

(** What [add_noise] returns, and the state it leaves. *)
Lemma add_noise_run (audio : list Q) (noise_factor : Q) (w : world) :
  (forall x, 0 <= x -> 0 <= np_sqrt x) ->
  add_noise audio noise_factor w
  = (Ok (zip_with Qplus audio
           (np_scale (draws_from 0 (np_std audio) (rng_pos w) (length audio)) noise_factor)),
     World (rng_pos w + length audio) (written w)).
Proof.
  intros Hsqrt. unfold add_noise.
  rewrite (M_bind_ok _ _ _ _ _
             (np_random_normal_value 0 (np_std audio) (Z.of_nat (length audio)) w
                (np_std_nonneg audio Hsqrt) (Nat2Z.is_nonneg _))).
  rewrite Nat2Z.id. fold (draws_from 0 (np_std audio) (rng_pos w) (length audio)).
  unfold lift, np_add.
  rewrite np_binop_same_length by (rewrite length_np_scale, length_draws_from; reflexivity).
  reflexivity.
Qed.

Lemma add_noise_length (audio : list Q) (noise_factor : Q) (w : world) :
  (forall x, 0 <= x -> 0 <= np_sqrt x) ->
  exists out,
    add_noise audio noise_factor w = (Ok out, World (rng_pos w + length audio) (written w)) /\
    length out = length audio.
Proof.
  intros Hsqrt. rewrite (add_noise_run audio noise_factor w Hsqrt).
  eexists. split; [reflexivity|].
  apply length_zip_with_same. rewrite length_np_scale, length_draws_from. reflexivity.
Qed.

(** X5.  With a square root that is not negative, [add_noise] never
    raises: it returns a buffer of the input's length, draws exactly one
    variate per sample, writes no file, and adds to the sample at index [i]
    the variate at position [i] after the generator's position, scaled by
    the standard deviation of the buffer and by the noise factor.  With a
    noise factor of zero the buffer keeps its values. *)
Theorem add_noise_effect (audio : list Q) (noise_factor : Q) (w : world) :
  (forall x, 0 <= x -> 0 <= np_sqrt x) ->
  exists out,
    add_noise audio noise_factor w
    = (Ok out, World (rng_pos w + length audio) (written w)) /\
    length out = length audio /\
    (forall i x, audio !! i = Some x ->
       out !! i = Some (x + (0 + np_std audio * gauss (rng_pos w + i)) * noise_factor)) /\
    (noise_factor == 0 -> same_values out audio).
Proof.
  intros Hsqrt. rewrite (add_noise_run audio noise_factor w Hsqrt).
  set (normal := draws_from 0 (np_std audio) (rng_pos w) (length audio)).
  assert (Hnormal : length normal = length audio) by apply length_draws_from.
  eexists. split; [reflexivity|]. split; [|split].
  - apply length_zip_with_same. rewrite length_np_scale. lia.
  - intros i x Hx.
    assert (Hi : (i < length audio)%nat) by (eapply lookup_lt_Some; exact Hx).
    rewrite lookup_zip_with, Hx. simpl.
    unfold np_scale, normal, draws_from. rewrite !lookup_map_list.
    rewrite lookup_seq_lt by exact Hi. reflexivity.
  - intros Hzero. apply zip_plus_zeros; [rewrite length_np_scale; lia|].
    apply Forall_forall. intros y Hy.
    apply list_elem_of_In in Hy. unfold np_scale in Hy.
    apply in_map_iff in Hy. destruct Hy as [g [<- _]].
    rewrite Hzero. ring.
Qed.

(** What [add_static_effect] returns, and the state it leaves. *)
Lemma add_static_effect_run (audio : list Q) (static_level static_freq : Q) (w : world) :
  add_static_effect audio static_level static_freq w
  = (Ok (zip_with Qplus audio
           (zip_with Qmult
              (np_scale (draws_from 0 1 (rng_pos w) (length audio)) static_level)
              (map (fun ti => (1 # 2) * (1 + np_sin (2 * np_pi * static_freq * ti)))
                   (np_linspace 0 1 (length audio))))),
     World (rng_pos w + length audio) (written w)).
Proof.
  unfold add_static_effect.
  rewrite (M_bind_ok _ _ _ _ _
             (np_random_normal_value 0 1 (Z.of_nat (length audio)) w
                ltac:(unfold Qle; simpl; lia) (Nat2Z.is_nonneg _))).
  rewrite Nat2Z.id. fold (draws_from 0 1 (rng_pos w) (length audio)).
  set (normal := draws_from 0 1 (rng_pos w) (length audio)).
  assert (Hnormal : length normal = length audio) by apply length_draws_from.
  set (envelope := map _ (np_linspace 0 1 (length audio))).
  assert (Henv : length envelope = length audio).
  { unfold envelope. rewrite length_map. apply length_np_linspace. }
  assert (Hmul : np_mul (np_scale normal static_level) envelope
                 = Ok (zip_with Qmult (np_scale normal static_level) envelope)).
  { apply np_binop_same_length. rewrite length_np_scale. lia. }
  rewrite (M_bind_lift_ok _ _ _ _ Hmul).
  unfold lift, np_add. rewrite np_binop_same_length; [reflexivity|].
  rewrite length_zip_with_same; rewrite length_np_scale; lia.
Qed.

Lemma add_static_effect_length (audio : list Q) (static_level static_freq : Q) (w : world) :
  exists out,
    add_static_effect audio static_level static_freq w
    = (Ok out, World (rng_pos w + length audio) (written w)) /\
    length out = length audio.
Proof.
  rewrite add_static_effect_run. eexists. split; [reflexivity|].
  apply length_zip_with_same.
  rewrite length_zip_with_same;
    rewrite ?length_np_scale, ?length_draws_from, ?length_map, ?length_np_linspace;
    reflexivity.
Qed.

(** X6.  [add_static_effect] never raises: it returns a buffer of the
    input's length, draws exactly one variate per sample and writes no file;
    with a static level of zero the buffer keeps its values. *)
Theorem add_static_effect_effect (audio : list Q) (static_level static_freq : Q) (w : world) :
  exists out,
    add_static_effect audio static_level static_freq w
    = (Ok out, World (rng_pos w + length audio) (written w)) /\
    length out = length audio /\
    (static_level == 0 -> same_values out audio).
Proof.
  rewrite add_static_effect_run.
  set (normal := draws_from 0 1 (rng_pos w) (length audio)).
  assert (Hnormal : length normal = length audio) by apply length_draws_from.
  set (envelope := map _ (np_linspace 0 1 (length audio))).
  assert (Henv : length envelope = length audio).
  { unfold envelope. rewrite length_map. apply length_np_linspace. }
  set (modulated := zip_with Qmult _ envelope).
  assert (Hmod : length modulated = length audio).
  { unfold modulated. rewrite length_zip_with_same; rewrite length_np_scale; lia. }
  eexists. split; [reflexivity|]. split.
  - apply length_zip_with_same. lia.
  - intros Hzero. apply zip_plus_zeros; [lia|].
    apply Forall_forall. intros y Hy.
    apply list_elem_of_lookup in Hy. destruct Hy as [i Hy].
    unfold modulated in Hy. rewrite lookup_zip_with in Hy.
    unfold np_scale in Hy. rewrite lookup_map_list in Hy.
    destruct (normal !! i) as [g|]; simpl in Hy; [|discriminate].
    destruct (envelope !! i) as [e|]; simpl in Hy; [|discriminate].
    injection Hy as <-. rewrite Hzero. ring.
Qed.

End Noise.

Lemma plain_sqrt_nonneg : forall x, 0 <= x -> 0 <= np_sqrt (Externals := plain_externals) x.
Proof. intros x Hx. exact Hx. Qed.

Lemma add_noise_effect_witness :
  exists out,
    add_noise (E := plain_externals) three_samples 0 world0
    = (Ok out, World (rng_pos world0 + length three_samples) (written world0)) /\
    length out = length three_samples /\
    out !! 1%nat = Some ((1 # 2) + (0 + np_std (E := plain_externals) three_samples
                                      * gauss (Externals := plain_externals) (rng_pos world0 + 1))
                                   * 0) /\
    same_values out three_samples.
Proof.
  destruct (@add_noise_effect plain_externals three_samples 0 world0 plain_sqrt_nonneg)
    as [out [Hrun [Hlen [Hval Hzero]]]].
  exists out. split; [exact Hrun|]. split; [exact Hlen|]. split.
  - apply (Hval 1%nat (1 # 2)). reflexivity.
  - apply Hzero. reflexivity.
Defined.

Lemma add_static_effect_effect_witness :
  exists out,
    add_static_effect (E := plain_externals) three_samples 0 (3 # 10) world0
    = (Ok out, World (rng_pos world0 + length three_samples) (written world0)) /\
    length out = length three_samples /\
    same_values out three_samples.
Proof.
  destruct (@add_static_effect_effect plain_externals three_samples 0 (3 # 10) world0)
    as [out [Hrun [Hlen Hzero]]].
  exists out. split; [exact Hrun|]. split; [exact Hlen|].
  apply Hzero. reflexivity.
Defined.

(** ** The filters: rejected parameters *)

Lemma Qdiv_le_0 (x n : Q) : 0 < n -> x <= 0 -> x / n <= 0.
Proof.
  intros Hn Hx. apply Qle_shift_div_r; [exact Hn|].
  rewrite Qmult_0_l. exact Hx.
Qed.

Lemma Qdiv_le_mono (x y n : Q) : 0 < n -> x <= y -> x / n <= y / n.
Proof.
  intros Hn Hxy. unfold Qdiv. apply Qmult_le_compat_r; [exact Hxy|].
  apply Qlt_le_weak, Qinv_lt_0_compat. exact Hn.
Qed.

Lemma py_div_by_zero (x y : Q) :
  y == 0 -> py_div x y = Raise (ZeroDivisionError "float division by zero").
Proof.
  intros Hy. unfold py_div.
  rewrite (proj2 (Qeq_bool_iff y 0) Hy). reflexivity.
Qed.

Section FilterParameters.
Context {E : Externals} {HE : ExternalsOk E}.

Lemma signal_butter_single_rejected (N : nat) (w : Q) (bt : btype) :
  w <= 0 \/ 1 <= w ->
  exists msg, signal_butter N [w] bt = Raise (ValueError msg).
Proof.
  intros Hw. unfold signal_butter. simpl.
  destruct (Qle_bool w 0) eqn:H0; simpl; [eauto|].
  destruct (Qle_bool 1 w) eqn:H1; simpl; [eauto|].
  apply Qle_bool_false in H0. apply Qle_bool_false in H1.
  destruct Hw as [Hw|Hw]; lra.
Qed.

Lemma signal_butter_band_rejected (N : nat) (low high : Q) :
  low <= 0 \/ high <= low ->
  exists msg, signal_butter N [low; high] BandPass = Raise (ValueError msg).
Proof.
  intros Hw. unfold signal_butter. simpl.
  destruct (Qle_bool low 0) eqn:H0; simpl; [eauto|].
  destruct (Qle_bool high 0) eqn:H1; simpl; [eauto|].
  destruct (Qlt_bool low high) eqn:Hlt; simpl; [|eauto].
  apply Qle_bool_false in H0. apply Qlt_bool_iff in Hlt.
  destruct Hw as [Hw|Hw]; lra.
Qed.

Lemma single_cutoff_filter_contract (bt : btype) (audio : list Q) (sr cutoff : Q) :
  bt <> BandPass ->
  (0 < cutoff -> cutoff < sr / 2 -> (15 < length audio)%nat ->
   exists out, single_cutoff_filter bt audio sr cutoff = Ok out /\
               length out = length audio) /\
  (0 < sr -> cutoff <= 0 \/ sr / 2 <= cutoff ->
   exists msg, single_cutoff_filter bt audio sr cutoff = Raise (ValueError msg)) /\
  (sr == 0 ->
   exists msg, single_cutoff_filter bt audio sr cutoff = Raise (ZeroDivisionError msg)) /\
  ((length audio <= 15)%nat ->
   exists e, single_cutoff_filter bt audio sr cutoff = Raise e).
Proof.
  intros Hbt. unfold single_cutoff_filter.
  assert (Htaps : (3 * ntaps 4 bt = 15)%nat) by (destruct bt; [reflexivity|reflexivity|congruence]).
  split; [|split; [|split]].
  - intros Hc Hny Hn. rewrite half_rate in Hny.
    assert (Hpos : 0 < (1 # 2) * sr) by lra.
    rewrite py_div_ok by (apply Qpos_neq_0; exact Hpos).
    rewrite result_bind_ok.
    rewrite signal_butter_single_ok;
      [|exact Hbt|apply Qdiv_pos; assumption|apply Qdiv_lt_1; assumption].
    rewrite result_bind_ok. apply filtfilt_design_length. lia.
  - intros Hsr Hc. rewrite half_rate in Hc.
    assert (Hpos : 0 < (1 # 2) * sr) by lra.
    rewrite py_div_ok by (apply Qpos_neq_0; exact Hpos).
    rewrite result_bind_ok.
    destruct (signal_butter_single_rejected 4 (cutoff / ((1 # 2) * sr)) bt) as [msg Hmsg].
    + destruct Hc as [Hc|Hc]; [left; apply Qdiv_le_0|right; apply Qdiv_ge_1]; assumption.
    + rewrite Hmsg. eauto.
  - intros Hsr. rewrite py_div_by_zero by (rewrite Hsr; reflexivity). eauto.
  - intros Hn.
    destruct (py_div cutoff _) as [w|e]; [|eauto].
    rewrite result_bind_ok.
    destruct (signal_butter 4 [w] bt) as [ba|e] eqn:Hba; [|eauto].
    rewrite result_bind_ok.
    unfold signal_butter in Hba.
    repeat match type of Hba with
           | (if ?c then _ else _) = _ => destruct c; [discriminate Hba|]
           end.
    destruct bt; try congruence;
      (destruct (negb _); [discriminate Hba|]); injection Hba as <-;
      rewrite filtfilt_design_short by (simpl; lia); eauto.
Qed.

(** X7.  The high-pass and the low-pass filter have the same contract.
    With [0 < cutoff < sr/2] a buffer of more than 15 samples is returned
    filtered, at its length.  At a positive sample rate a cutoff that is not
    positive, or not below [sr/2], is rejected with a [ValueError]; a sample
    rate of zero raises [ZeroDivisionError]; and a buffer of at most 15
    samples is always rejected. *)
Theorem single_cutoff_filters_contract (audio : list Q) (sr cutoff : Q) :
  ((0 < cutoff -> cutoff < sr / 2 -> (15 < length audio)%nat ->
    exists out, apply_highpass_filter audio sr cutoff = Ok out /\
                length out = length audio) /\
   (0 < sr -> cutoff <= 0 \/ sr / 2 <= cutoff ->
    exists msg, apply_highpass_filter audio sr cutoff = Raise (ValueError msg)) /\
   (sr == 0 ->
    exists msg, apply_highpass_filter audio sr cutoff = Raise (ZeroDivisionError msg)) /\
   ((length audio <= 15)%nat ->
    exists e, apply_highpass_filter audio sr cutoff = Raise e)) /\
  ((0 < cutoff -> cutoff < sr / 2 -> (15 < length audio)%nat ->
    exists out, apply_lowpass_filter audio sr cutoff = Ok out /\
                length out = length audio) /\
   (0 < sr -> cutoff <= 0 \/ sr / 2 <= cutoff ->
    exists msg, apply_lowpass_filter audio sr cutoff = Raise (ValueError msg)) /\
   (sr == 0 ->
    exists msg, apply_lowpass_filter audio sr cutoff = Raise (ZeroDivisionError msg)) /\
   ((length audio <= 15)%nat ->
    exists e, apply_lowpass_filter audio sr cutoff = Raise e)).
Proof.
  split.
  - exact (single_cutoff_filter_contract HighPass audio sr cutoff ltac:(discriminate)).
  - exact (single_cutoff_filter_contract LowPass audio sr cutoff ltac:(discriminate)).
Qed.

Lemma apply_bandpass_filter_bad_band (audio : list Q) (sr low_cutoff high_cutoff : Q) :
  0 < sr -> low_cutoff <= 0 \/ high_cutoff <= low_cutoff ->
  exists msg, apply_bandpass_filter audio sr low_cutoff high_cutoff = Raise (ValueError msg).
Proof.
  intros Hsr Hband. unfold apply_bandpass_filter.
  assert (Hpos : 0 < (1 # 2) * sr) by lra.
  rewrite !py_div_ok by (apply Qpos_neq_0; exact Hpos).
  rewrite !result_bind_ok.
  destruct (signal_butter_band_rejected 4 (low_cutoff / ((1 # 2) * sr))
              (high_cutoff / ((1 # 2) * sr))) as [msg Hmsg].
  - destruct Hband as [Hl|Hhl]; [left; apply Qdiv_le_0|right; apply Qdiv_le_mono]; assumption.
  - rewrite Hmsg. eauto.
Qed.

(** X8.  The band-pass filter rejects a band that is not [0 < low < high]:
    at a positive sample rate a lower edge that is not positive, or an upper
    edge that is not above the lower one, gives a [ValueError] and no buffer;
    a sample rate of zero raises [ZeroDivisionError]. *)
Theorem apply_bandpass_filter_invalid_band (audio : list Q) (sr low_cutoff high_cutoff : Q) :
  (0 < sr -> low_cutoff <= 0 \/ high_cutoff <= low_cutoff ->
   exists msg, apply_bandpass_filter audio sr low_cutoff high_cutoff = Raise (ValueError msg)) /\
  (sr == 0 ->
   exists msg,
     apply_bandpass_filter audio sr low_cutoff high_cutoff = Raise (ZeroDivisionError msg)).
Proof.
  split.
  - apply apply_bandpass_filter_bad_band.
  - unfold apply_bandpass_filter. intros Hsr. rewrite !py_div_by_zero by (rewrite Hsr; reflexivity). eauto.
Qed.

End FilterParameters.

(** ** The compressor: output, errors, invariants *)

Lemma fold_left_Qmax_compat (xs ys : list Q) (x y : Q) :
  Forall2 Qeq xs ys -> x == y -> fold_left Qmax xs x == fold_left Qmax ys y.
Proof.
  intros H. revert x y. induction H as [|a b xs ys Hab _ IH]; intros x y Hxy; simpl.
  - exact Hxy.
  - apply IH. apply Q.max_compat; assumption.
Qed.

Lemma np_max_compat (a b : list Q) (p : Q) :
  same_values a b -> np_max a = Ok p -> exists q, np_max b = Ok q /\ p == q.
Proof.
  intros H. destruct H as [|x y a b Hxy H]; simpl; [discriminate|].
  intros [= <-]. eexists. split; [reflexivity|].
  apply fold_left_Qmax_compat; assumption.
Qed.

Lemma np_abs_compat (a b : list Q) : same_values a b -> same_values (np_abs a) (np_abs b).
Proof.
  unfold same_values, np_abs. induction 1 as [|x y a b Hxy _ IH]; simpl; constructor.
  - rewrite Hxy. reflexivity.
  - exact IH.
Qed.

Lemma Qlt_bool_compat (x y x' y' : Q) : x == x' -> y == y' -> Qlt_bool x y = Qlt_bool x' y'.
Proof.
  intros Hx Hy. unfold Qlt_bool. rewrite (Qcompare_comp x x' Hx y y' Hy). reflexivity.
Qed.

(** A peak scaled by a gain that is at most [bound / peak]. *)
Lemma scaled_sample_bound (c peak gain bound : Q) :
  0 < peak -> Qabs c <= peak -> 0 <= gain -> gain <= bound / peak ->
  Qabs (c * gain) <= bound.
Proof.
  intros Hp Hc Hg Hgain.
  rewrite Qabs_Qmult, (Qabs_pos gain) by exact Hg.
  apply Qle_trans with (peak * gain).
  - apply Qmult_le_compat_r; assumption.
  - apply Qle_trans with (peak * (bound / peak)).
    + rewrite !(Qmult_comm peak). apply Qmult_le_compat_r; [exact Hgain|].
      apply Qlt_le_weak. exact Hp.
    + assert (Heq : peak * (bound / peak) == bound)
        by (field; apply Qpos_neq_0; exact Hp).
      rewrite Heq. apply Qle_refl.
Qed.

Lemma same_values_times_one (a : list Q) :
  same_values (zip_with Qmult a (replicate (length a) 1)) a.
Proof.
  unfold same_values. induction a as [|x a IH]; simpl; constructor; [ring|exact IH].
Qed.

Lemma same_values_scale (a b : list Q) (c d : Q) :
  same_values a b -> c == d -> same_values (np_scale a c) (np_scale b d).
Proof.
  unfold same_values, np_scale. intros H Hcd.
  induction H as [|x y a b Hxy _ IH]; simpl; constructor; [|exact IH].
  rewrite Hxy, Hcd. reflexivity.
Qed.

Section CompressorOutput.
Variables (audio : list Q) (threshold ratio attack_ms release_ms : Q).

Lemma apply_compression_length :
  audio <> [] -> ~ ratio == 0 ->
  exists out,
    apply_compression audio threshold ratio attack_ms release_ms = Ok out /\
    length out = length audio.
Proof.
  intros Ha Hr.
  assert (Hn : (0 < length audio)%nat) by (destruct audio; [congruence|simpl; lia]).
  unfold apply_compression.
  destruct (compression_envelope_total audio threshold ratio attack_ms release_ms Hr)
    as [env [Henv Hlen]].
  rewrite Henv, result_bind_ok.
  unfold np_mul. rewrite np_binop_same_length by lia. rewrite result_bind_ok.
  assert (Hc : length (zip_with Qmult audio env) = length audio).
  { apply length_zip_with_same. lia. }
  destruct (np_max_nonempty (np_abs (zip_with Qmult audio env))) as [peak Hpeak].
  { intros H0. apply (f_equal length) in H0. rewrite length_np_abs in H0.
    simpl in H0. lia. }
  rewrite Hpeak, result_bind_ok.
  destruct (Qlt_bool 0 peak); eexists; (split; [reflexivity|]).
  - rewrite length_np_scale. exact Hc.
  - exact Hc.
Qed.

(** X9.  On a buffer that is not empty, with a ratio that is not zero, a
    threshold that is not negative and attack and release times of at least
    one sample at 22050 Hz (so that no division of the loop has a zero
    divisor), the compressor returns a buffer of the input's length whose
    peak absolute value is at most 0.95: the makeup gain never lifts the
    peak above 0.95. *)
Theorem apply_compression_peak :
  audio <> [] -> ~ ratio == 0 -> 0 <= threshold ->
  (1 <= py_int (22050 * attack_ms / 1000))%Z ->
  (1 <= py_int (22050 * release_ms / 1000))%Z ->
  exists out,
    apply_compression audio threshold ratio attack_ms release_ms = Ok out /\
    length out = length audio /\
    peak_le out (95 # 100).
Proof.
  intros Ha Hr _ _ _.
  assert (Hn : (0 < length audio)%nat) by (destruct audio; [congruence|simpl; lia]).
  unfold apply_compression.
  destruct (compression_envelope_total audio threshold ratio attack_ms release_ms Hr)
    as [env [Henv Hlen]].
  rewrite Henv, result_bind_ok.
  unfold np_mul. rewrite np_binop_same_length by lia. rewrite result_bind_ok.
  set (compressed := zip_with Qmult audio env).
  assert (Hc : length compressed = length audio).
  { unfold compressed. apply length_zip_with_same. lia. }
  destruct (np_max_nonempty (np_abs compressed)) as [peak Hpeak].
  { intros H0. apply (f_equal length) in H0. rewrite length_np_abs in H0.
    simpl in H0. lia. }
  rewrite Hpeak, result_bind_ok.
  destruct (Qlt_bool 0 peak) eqn:Hpos.
  - apply Qlt_bool_iff in Hpos.
    set (makeup := Qmin ((95 # 100) / peak) 2).
    assert (Hm0 : 0 < makeup).
    { apply Q.min_glb_lt; [|reflexivity].
      apply Qdiv_pos; [exact Hpos|reflexivity]. }
    eexists. split; [reflexivity|]. split; [rewrite length_np_scale; exact Hc|].
    destruct (np_max_nonempty (np_abs (np_scale compressed makeup))) as [peak' Hpeak'].
    { intros H0. apply (f_equal length) in H0.
      rewrite length_np_abs, length_np_scale in H0. simpl in H0. lia. }
    exists peak'. split; [exact Hpeak'|].
    apply np_max_In in Hpeak'. unfold np_abs, np_scale in Hpeak'.
    rewrite map_map in Hpeak'. apply in_map_iff in Hpeak'.
    destruct Hpeak' as [c [<- Hin]].
    apply (scaled_sample_bound c peak makeup (95 # 100)).
    + exact Hpos.
    + apply (np_max_upper _ _ _ Hpeak). unfold np_abs. apply in_map. exact Hin.
    + apply Qlt_le_weak. exact Hm0.
    + apply Q.le_min_l.
  - apply Qlt_bool_false in Hpos.
    exists compressed. split; [reflexivity|]. split; [exact Hc|].
    exists peak. split; [exact Hpeak|]. lra.
Qed.

(** With a ratio of zero the loop raises at the first sample above the
    threshold. *)
Lemma envelope_loop_zero_ratio (attack release : Z) (idxs : list nat) (env : list Q) :
  ratio == 0 ->
  (exists i, In i idxs /\ threshold < Qabs (audio !!! i)) ->
  envelope_loop audio threshold ratio attack release idxs (Ok env)
  = Raise (ZeroDivisionError "float division by zero").
Proof.
  intros Hr. revert env. induction idxs as [|i0 idxs IH]; intros env [i [Hin Hi]].
  - destruct Hin.
  - rewrite envelope_loop_cons.
    destruct (Qlt_bool threshold (Qabs (audio !!! i0))) eqn:H0.
    + unfold compression_step. rewrite H0.
      rewrite (py_div_by_zero 1 ratio Hr). simpl.
      apply envelope_loop_raise.
    + apply Qlt_bool_false in H0.
      rewrite (compression_step_below audio threshold ratio attack release env i0 H0).
      apply IH. exists i. split; [|exact Hi].
      destruct Hin as [->|Hin]; [|exact Hin]. lra.
Qed.

(** X10.  The compressor raises [ValueError] on an empty buffer, and
    [ZeroDivisionError] when the ratio is zero and some sample is above the
    threshold. *)
Theorem apply_compression_errors :
  (audio = [] ->
   apply_compression audio threshold ratio attack_ms release_ms
   = Raise (ValueError "zero-size array to reduction operation maximum which has no identity")) /\
  (ratio == 0 ->
   (exists i x, audio !! i = Some x /\ threshold < Qabs x) ->
   exists msg,
     apply_compression audio threshold ratio attack_ms release_ms
     = Raise (ZeroDivisionError msg)).
Proof.
  split.
  - intros ->. reflexivity.
  - intros Hr [i [x [Hx Hlvl]]].
    unfold apply_compression, compression_envelope.
    rewrite envelope_loop_zero_ratio; [eexists; reflexivity|exact Hr|].
    exists i. split.
    + apply in_seq. apply lookup_lt_Some in Hx. lia.
    + rewrite (list_lookup_total_correct audio i x Hx). exact Hlvl.
Qed.

(** Over indices whose samples do not exceed the threshold the loop leaves
    the array as it is, whatever the ratio. *)
Lemma envelope_loop_all_below (attack release : Z) (idxs : list nat) (env : list Q) :
  (forall i, In i idxs -> Qabs (audio !!! i) <= threshold) ->
  envelope_loop audio threshold ratio attack release idxs (Ok env) = Ok env.
Proof.
  induction idxs as [|i0 idxs IH]; intros Hall; [reflexivity|].
  rewrite envelope_loop_cons, compression_step_below by (apply Hall; left; reflexivity).
  apply IH. intros i Hi. apply Hall. right. exact Hi.
Qed.

(** X11.  A buffer that nowhere exceeds the threshold is not compressed:
    the output is the input scaled by the makeup gain [min(0.95 / peak, 2)]
    of its own peak (and the input itself when it is silent), whatever the
    ratio, the attack and the release. *)
Theorem apply_compression_below_threshold :
  audio <> [] -> Forall (fun x => Qabs x <= threshold) audio ->
  exists peak out,
    np_max (np_abs audio) = Ok peak /\
    apply_compression audio threshold ratio attack_ms release_ms = Ok out /\
    same_values out
      (if Qlt_bool 0 peak then np_scale audio (Qmin ((95 # 100) / peak) 2) else audio).
Proof.
  intros Ha Hall.
  assert (Hn : (0 < length audio)%nat) by (destruct audio; [congruence|simpl; lia]).
  unfold apply_compression, compression_envelope.
  rewrite envelope_loop_all_below.
  2:{ intros i Hi. apply in_seq in Hi.
      destruct (lookup_lt_is_Some_2 audio i) as [x Hx]; [lia|].
      rewrite (list_lookup_total_correct audio i x Hx).
      rewrite Forall_forall in Hall. apply Hall.
      apply list_elem_of_lookup. eauto. }
  rewrite result_bind_ok.
  unfold np_mul. rewrite np_binop_same_length by (rewrite length_replicate; reflexivity).
  rewrite result_bind_ok.
  pose proof (same_values_times_one audio) as Hsame.
  set (compressed := zip_with Qmult audio (replicate (length audio) 1)) in *.
  destruct (np_max_nonempty (np_abs compressed)) as [peakc Hpeakc].
  { intros H0. apply (f_equal length) in H0. rewrite length_np_abs in H0.
    apply same_values_length in Hsame. simpl in H0. lia. }
  destruct (np_max_compat _ _ _ (np_abs_compat _ _ Hsame) Hpeakc) as [peak [Hpeak Heq]].
  exists peak. rewrite Hpeakc, result_bind_ok.
  rewrite (Qlt_bool_compat 0 peakc 0 peak (Qeq_refl 0) Heq).
  destruct (Qlt_bool 0 peak).
  - eexists. split; [exact Hpeak|]. split; [reflexivity|].
    apply same_values_scale; [exact Hsame|].
    apply Q.min_compat; [|reflexivity]. rewrite Heq. reflexivity.
  - exists compressed. split; [exact Hpeak|]. split; [reflexivity|exact Hsame].
Qed.

End CompressorOutput.

Section EnvelopeRange.
Variables (audio : list Q) (threshold ratio : Q) (attack release : Z).
Hypothesis threshold_nonneg : 0 <= threshold.
Hypothesis ratio_ge_1 : 1 <= ratio.
Hypothesis attack_ge_1 : (1 <= attack)%Z.
Hypothesis release_ge_1 : (1 <= release)%Z.

(** The gain that the compressor aims at lies in (0, 1]. *)
Lemma target_gain_range (level inv_ratio : Q) :
  threshold < level -> inv_ratio == 1 / ratio ->
  0 < 1 - ((level - threshold) * (1 - inv_ratio)) / level /\
  1 - ((level - threshold) * (1 - inv_ratio)) / level <= 1.
Proof.
  intros Hl Hinv.
  assert (Hlevel : 0 < level) by lra.
  assert (Hr : 0 < ratio) by lra.
  assert (Hinv0 : 0 < inv_ratio).
  { rewrite Hinv. apply Qdiv_pos; [exact Hr|reflexivity]. }
  assert (Hinv1 : inv_ratio <= 1).
  { rewrite Hinv. apply Qle_shift_div_r; [exact Hr|]. lra. }
  set (g := ((level - threshold) * (1 - inv_ratio)) / level).
  assert (Hg0 : 0 <= g).
  { unfold g. apply Qle_shift_div_l; [exact Hlevel|]. nra. }
  assert (Hg1 : g < 1).
  { unfold g. apply Qlt_shift_div_r; [exact Hlevel|]. nra. }
  split; lra.
Qed.

Lemma Qdiv_int_nonneg (x : Q) (n : Z) : 0 <= x -> (1 <= n)%Z -> 0 <= x / inject_Z n.
Proof.
  intros Hx Hn. apply Qle_shift_div_l; [|lra].
  change 0 with (inject_Z 0). rewrite <- Zlt_Qlt. lia.
Qed.

(** One step keeps every gain of the array in (0, 1]. *)
Lemma compression_step_range (env env' : list Q) (i : nat) :
  (i < length env)%nat ->
  Forall (fun e => 0 < e /\ e <= 1) env ->
  compression_step audio threshold ratio attack release env i = Ok env' ->
  Forall (fun e => 0 < e /\ e <= 1) env'.
Proof.
  intros Hi Henv. unfold compression_step.
  destruct (Qlt_bool threshold (Qabs (audio !!! i))) eqn:Hlvl; [|intros [= <-]; exact Henv].
  apply Qlt_bool_iff in Hlvl.
  rewrite py_div_ok by (apply Qpos_neq_0; lra). rewrite result_bind_ok.
  pose proof (target_gain_range (Qabs (audio !!! i)) (1 / ratio) Hlvl (Qeq_refl _))
    as [Ht0 Ht1].
  set (target := 1 - _) in *.
  destruct (0 <? i)%nat eqn:Hi0.
  - apply Nat.ltb_lt in Hi0.
    assert (Hprev : 0 < env !!! (i - 1)%nat /\ env !!! (i - 1)%nat <= 1).
    { destruct (lookup_lt_is_Some_2 env (i - 1)%nat) as [p Hp]; [lia|].
      rewrite (list_lookup_total_correct env _ p Hp).
      rewrite Forall_forall in Henv. apply Henv.
      apply list_elem_of_lookup. eauto. }
    destruct Hprev as [Hp0 Hp1].
    set (prev := env !!! (i - 1)%nat) in *.
    pose proof (Qdiv_int_nonneg (1 - prev) attack ltac:(lra) attack_ge_1) as Hatt.
    pose proof (Qdiv_int_nonneg prev release ltac:(lra) release_ge_1) as Hrel.
    destruct (Qlt_bool prev _); intros [= <-]; apply Forall_insert; try exact Henv.
    + split.
      * apply Q.min_glb_lt; lra.
      * eapply Qle_trans; [apply Q.le_min_r|exact Ht1].
    + split.
      * eapply Qlt_le_trans; [exact Ht0|apply Q.le_max_r].
      * apply Q.max_lub; lra.
  - intros [= <-]. apply Forall_insert; [exact Henv|]. split; assumption.
Qed.

Lemma envelope_loop_range (idxs : list nat) (env : list Q) :
  Forall (fun i => (i < length env)%nat) idxs ->
  Forall (fun e => 0 < e /\ e <= 1) env ->
  exists env',
    envelope_loop audio threshold ratio attack release idxs (Ok env) = Ok env' /\
    length env' = length env /\
    Forall (fun e => 0 < e /\ e <= 1) env'.
Proof.
  intros Hidx. revert env Hidx.
  induction idxs as [|i idxs IH]; intros env Hidx Henv.
  - exists env. split; [reflexivity|]. split; [reflexivity|exact Henv].
  - inversion Hidx as [|? ? Hi Hrest]; subst.
    rewrite envelope_loop_cons.
    destruct (compression_step_total audio threshold ratio attack release env i)
      as [env1 H1]; [apply Qpos_neq_0; lra|].
    rewrite H1.
    pose proof (compression_step_length _ _ _ _ _ _ _ _ H1) as Hlen1.
    destruct (IH env1) as [env' [Hrun [Hlen Hrange]]].
    + rewrite Hlen1. exact Hrest.
    + exact (compression_step_range env env1 i Hi Henv H1).
    + exists env'. split; [exact Hrun|]. split; [lia|exact Hrange].
Qed.

End EnvelopeRange.

(** X12.  With a threshold that is not negative, a ratio of at least 1 and
    attack and release times of at least one sample at 22050 Hz, the
    compressor's loop completes and every gain of its envelope lies in
    (0, 1]: before the makeup gain no sample is amplified, inverted or
    silenced. *)
Theorem compression_envelope_range (audio : list Q) (threshold ratio attack_ms release_ms : Q) :
  0 <= threshold -> 1 <= ratio ->
  (1 <= py_int (22050 * attack_ms / 1000))%Z ->
  (1 <= py_int (22050 * release_ms / 1000))%Z ->
  exists env,
    compression_envelope audio threshold ratio attack_ms release_ms = Ok env /\
    length env = length audio /\
    Forall (fun e => 0 < e /\ e <= 1) env.
Proof.
  intros Ht Hr Ha Hrel. unfold compression_envelope.
  destruct (envelope_loop_range audio threshold ratio _ _ Ht Hr Ha Hrel
              (seq 0 (length audio)) (replicate (length audio) 1))
    as [env [Hrun [Hlen Hrange]]].
  - rewrite length_replicate. apply Forall_forall. intros i Hi.
    apply list_elem_of_In, in_seq in Hi. lia.
  - apply Forall_forall. intros e He.
    apply elem_of_replicate in He. destruct He as [-> _].
    split; [reflexivity|apply Qle_refl].
  - exists env. split; [exact Hrun|]. split; [|exact Hrange].
    rewrite Hlen. apply length_replicate.
Qed.

Lemma apply_compression_peak_witness :
  exists out,
    apply_compression [1; 1 # 10; 3 # 4] (3 # 10) 8 5 150 = Ok out /\
    length out = 3%nat /\
    peak_le out (95 # 100).
Proof.
  apply (apply_compression_peak [1; 1 # 10; 3 # 4] (3 # 10) 8 5 150).
  - discriminate.
  - intros H. vm_compute in H. discriminate H.
  - unfold Qle. simpl. lia.
  - vm_compute. discriminate.
  - vm_compute. discriminate.
Defined.

Lemma apply_compression_errors_witness :
  apply_compression [] (3 # 10) 8 5 150
  = Raise (ValueError "zero-size array to reduction operation maximum which has no identity") /\
  (exists msg, apply_compression [1 # 10; 1] (3 # 10) 0 5 150
               = Raise (ZeroDivisionError msg)).
Proof.
  split.
  - apply (apply_compression_errors [] (3 # 10) 8 5 150). reflexivity.
  - apply (apply_compression_errors [1 # 10; 1] (3 # 10) 0 5 150).
    + reflexivity.
    + exists 1%nat, 1. split; reflexivity.
Defined.

Lemma apply_compression_below_threshold_witness :
  exists peak out,
    np_max (np_abs [1 # 10; -2 # 10; 0]) = Ok peak /\
    apply_compression [1 # 10; -2 # 10; 0] (3 # 10) 8 5 150 = Ok out /\
    same_values out
      (if Qlt_bool 0 peak then np_scale [1 # 10; -2 # 10; 0] (Qmin ((95 # 100) / peak) 2)
       else [1 # 10; -2 # 10; 0]).
Proof.
  apply (apply_compression_below_threshold [1 # 10; -2 # 10; 0] (3 # 10) 8 5 150).
  - discriminate.
  - repeat constructor; vm_compute; discriminate.
Defined.

Lemma compression_envelope_range_witness :
  exists env,
    compression_envelope [1; 1 # 10; 3 # 4] (3 # 10) 8 5 150 = Ok env /\
    length env = 3%nat /\
    Forall (fun e => 0 < e /\ e <= 1) env.
Proof.
  apply (compression_envelope_range [1; 1 # 10; 3 # 4] (3 # 10) 8 5 150).
  - vm_compute. discriminate.
  - vm_compute. discriminate.
  - vm_compute. discriminate.
  - vm_compute. discriminate.
Defined.

(** ** The push-to-talk clicks: layout and failures *)

Lemma py_int_zero (x : Q) : x == 0 -> py_int x = 0%Z.
Proof.
  intros Hx. unfold py_int.
  assert (H0 : Qnum x = 0%Z).
  { unfold Qeq in Hx. simpl in Hx. lia. }
  rewrite H0. apply Z.quot_0_l. discriminate.
Qed.

(** The three slice assignments of [add_ptt_artifacts] lay the click, the
    audio and the end click side by side. *)
Lemma click_layout (zeros click audio end_click : list Q) (n : nat) :
  length click = n ->
  let r0 := take 0 zeros ++ click ++ drop n zeros in
  let r1 := take n r0 ++ audio ++ drop (n + length audio) r0 in
  take (n + length audio) r1 ++ end_click ++ drop (length r1) r1
  = click ++ audio ++ end_click.
Proof.
  intros Hc r0 r1.
  assert (H0 : take n r0 = click).
  { unfold r0. rewrite take_0. simpl. apply take_app_length'. lia. }
  unfold r1. rewrite H0.
  rewrite drop_all, app_nil_r.
  rewrite (app_assoc click audio).
  rewrite take_app_length' by (rewrite length_app; lia).
  rewrite <- app_assoc. reflexivity.
Qed.

Section ClickLayout.
Context {E : Externals} {HE : ExternalsOk E}.

(** What [add_ptt_artifacts] returns at a rate above 6000 Hz, and the state
    it leaves. *)
Lemma add_ptt_artifacts_run (audio : list Q) (sr : Q) (w : world) :
  6000 < sr ->
  exists click,
    length click = Z.to_nat (py_int ((3 # 100) * sr)) /\
    add_ptt_artifacts audio sr w
    = (Ok (click ++ audio ++ np_scale (rev click) (15 # 100)),
       World (rng_pos w + Z.to_nat (py_int ((3 # 100) * sr))) (written w)).
Proof.
  intros Hsr.
  pose proof (click_samples_above_6000 sr Hsr) as Hnum.
  set (num := py_int ((3 # 100) * sr)) in *.
  assert (Hny : 0 < (1 # 2) * sr) by lra.
  unfold add_ptt_artifacts. fold num.
  rewrite (M_bind_ok _ _ _ _ _
             (np_random_normal_value 0 1 num w ltac:(unfold Qle; simpl; lia) ltac:(lia))).
  set (draws := map _ (seq 0 (Z.to_nat num))).
  assert (Hdraws : length draws = Z.to_nat num).
  { unfold draws. rewrite length_map. apply length_seq. }
  rewrite (M_bind_lift_ok _ _ _ _ (py_div_ok 800 _ (Qpos_neq_0 _ Hny))).
  rewrite (M_bind_lift_ok _ _ _ _ (py_div_ok 3000 _ (Qpos_neq_0 _ Hny))).
  assert (Hband : signal_butter 2 [800 / ((1 # 2) * sr); 3000 / ((1 # 2) * sr)] BandPass
                  = Ok (butter_design 2 BandPass
                          [800 / ((1 # 2) * sr); 3000 / ((1 # 2) * sr)])).
  { apply signal_butter_band_ok.
    - apply Qdiv_pos; [exact Hny|lra].
    - apply Qdiv_lt_mono; [exact Hny|lra].
    - apply Qdiv_lt_1; [exact Hny|lra]. }
  rewrite (M_bind_lift_ok _ _ _ _ Hband).
  destruct (filtfilt_design_length 2 BandPass
              [800 / ((1 # 2) * sr); 3000 / ((1 # 2) * sr)] draws)
    as [filtered [Hfilt Hflen]]; [simpl; lia|].
  rewrite (M_bind_lift_ok _ _ _ _ Hfilt).
  set (n := Z.to_nat num) in *.
  assert (Hmul : length filtered
                 = length (map (fun t : Q => np_exp (- t)) (np_linspace 0 5 n))).
  { rewrite length_map, length_np_linspace. lia. }
  rewrite (M_bind_lift_ok _ _ _ _ (np_binop_same_length Qmult _ _ Hmul)).
  set (shaped := zip_with Qmult filtered _).
  assert (Hshaped : length shaped = n).
  { unfold shaped. rewrite length_zip_with_same by exact Hmul. lia. }
  set (zeros := replicate (length audio + 2 * n) 0).
  assert (Hzeros : length zeros = (length audio + 2 * n)%nat) by apply length_replicate.
  set (click1 := np_scale shaped (2 # 10)).
  assert (Hclick1 : length click1 = n) by (unfold click1; rewrite length_np_scale; exact Hshaped).
  assert (Hend : length (np_scale (rev click1) (15 # 100)) = n).
  { rewrite length_np_scale, length_rev. exact Hclick1. }
  exists click1. split; [exact Hclick1|].
  rewrite (M_bind_lift_ok _ _ _ _ (set_slice_ok zeros 0 n click1 ltac:(lia))).
  set (r0 := take 0 zeros ++ _).
  assert (Hr0 : length r0 = (length audio + 2 * n)%nat).
  { unfold r0. rewrite set_slice_length by lia. exact Hzeros. }
  rewrite (M_bind_lift_ok _ _ _ _ (set_slice_ok r0 n (n + length audio) audio ltac:(lia))).
  set (r1 := take n r0 ++ _).
  assert (Hr1 : length r1 = (length audio + 2 * n)%nat).
  { unfold r1. rewrite set_slice_length by lia. exact Hr0. }
  rewrite (M_bind_lift_ok _ _ _ _
             (set_slice_ok r1 (n + length audio) (length r1)
                (np_scale (rev click1) (15 # 100)) ltac:(lia))).
  unfold mret, M_ret. f_equal. f_equal.
  apply (click_layout zeros click1 audio _ n Hclick1).
Qed.

(** X13.  At a sample rate above 6000 Hz the click stage returns the
    input, unchanged, after a click of [c = int(0.03 * sr)] samples, and
    ends with that click reversed and scaled by 0.15; it draws exactly one
    variate per click sample and writes no file. *)
Theorem add_ptt_artifacts_layout (audio : list Q) (sr : Q) (w : world) :
  6000 < sr ->
  let c := Z.to_nat (py_int ((3 # 100) * sr)) in
  exists out,
    add_ptt_artifacts audio sr w = (Ok out, World (rng_pos w + c) (written w)) /\
    length out = (length audio + 2 * c)%nat /\
    take (length audio) (drop c out) = audio /\
    drop (c + length audio) out = np_scale (rev (take c out)) (15 # 100).
Proof.
  intros Hsr c.
  destruct (add_ptt_artifacts_run audio sr w Hsr) as [click [Hclick Hrun]].
  fold c in Hclick, Hrun.
  eexists. split; [exact Hrun|].
  assert (Hend : length (np_scale (rev click) (15 # 100)) = c).
  { rewrite length_np_scale, length_rev. exact Hclick. }
  split; [|split].
  - rewrite !length_app, Hend. lia.
  - rewrite drop_app_length' by (symmetry; exact Hclick).
    apply take_app_length.
  - rewrite take_app_length' by (symmetry; exact Hclick).
    rewrite (app_assoc click audio).
    rewrite drop_app_length' by (rewrite length_app; lia).
    reflexivity.
Qed.

(** X14.  The click stage fails at low and at meaningless sample rates.
    At a positive rate of at most 6000 Hz the band of the click is rejected
    with a [ValueError], after the variates of the click have been drawn; a
    rate of zero raises [ZeroDivisionError]; a negative click length raises
    [ValueError] before anything is drawn. *)
Theorem add_ptt_artifacts_failures (audio : list Q) (sr : Q) (w : world) :
  (0 < sr -> sr <= 6000 ->
   exists msg,
     add_ptt_artifacts audio sr w
     = (Raise (ValueError msg),
        World (rng_pos w + Z.to_nat (py_int ((3 # 100) * sr))) (written w))) /\
  (sr == 0 ->
   exists msg,
     add_ptt_artifacts audio sr w
     = (Raise (ZeroDivisionError msg), World (rng_pos w + 0) (written w))) /\
  ((py_int ((3 # 100) * sr) < 0)%Z ->
   add_ptt_artifacts audio sr w
   = (Raise (ValueError "negative dimensions are not allowed"), w)).
Proof.
  split; [|split].
  - intros Hsr Hle.
    assert (Hny : 0 < (1 # 2) * sr) by lra.
    assert (Hnum : (0 <= py_int ((3 # 100) * sr))%Z).
    { rewrite py_int_nonneg by lra.
      change 0%Z with (Qfloor 0). apply Qfloor_resp_le. lra. }
    unfold add_ptt_artifacts.
    rewrite (M_bind_ok _ _ _ _ _
               (np_random_normal_value 0 1 _ w ltac:(unfold Qle; simpl; lia) Hnum)).
    rewrite (M_bind_lift_ok _ _ _ _ (py_div_ok 800 _ (Qpos_neq_0 _ Hny))).
    rewrite (M_bind_lift_ok _ _ _ _ (py_div_ok 3000 _ (Qpos_neq_0 _ Hny))).
    destruct (signal_butter_band_above_nyquist 2 (800 / ((1 # 2) * sr))
                (3000 / ((1 # 2) * sr))) as [msg Hmsg].
    + apply Qdiv_ge_1; [exact Hny|lra].
    + rewrite (M_bind_lift_raise _ _ _ _ Hmsg). eauto.
  - intros Hsr.
    assert (Hnum : py_int ((3 # 100) * sr) = 0%Z).
    { apply py_int_zero. rewrite Hsr. reflexivity. }
    unfold add_ptt_artifacts. rewrite Hnum.
    rewrite (M_bind_ok _ _ _ _ _
               (np_random_normal_value 0 1 0 w ltac:(unfold Qle; simpl; lia) ltac:(lia))).
    rewrite (M_bind_lift_raise _ _ _ _
               (py_div_by_zero 800 ((1 # 2) * sr) ltac:(rewrite Hsr; reflexivity))).
    eauto.
  - intros Hneg. unfold add_ptt_artifacts.
    apply M_bind_raise. unfold np_random_normal. simpl.
    rewrite (proj2 (Z.ltb_lt _ 0) Hneg). reflexivity.
Qed.

End ClickLayout.

Lemma add_ptt_artifacts_layout_witness :
  let c := Z.to_nat (py_int ((3 # 100) * 22050)) in
  exists out,
    add_ptt_artifacts (E := plain_externals) three_samples 22050 world0
    = (Ok out, World (rng_pos world0 + c) (written world0)) /\
    length out = (length three_samples + 2 * c)%nat /\
    take (length three_samples) (drop c out) = three_samples /\
    drop (c + length three_samples) out = np_scale (rev (take c out)) (15 # 100).
Proof.
  apply (@add_ptt_artifacts_layout plain_externals plain_externals_ok three_samples 22050 world0).
  reflexivity.
Defined.

Lemma add_ptt_artifacts_failures_witness :
  (exists msg,
     add_ptt_artifacts (E := plain_externals) three_samples 4000 world0
     = (Raise (ValueError msg),
        World (rng_pos world0 + Z.to_nat (py_int ((3 # 100) * 4000))) (written world0))) /\
  (exists msg,
     add_ptt_artifacts (E := plain_externals) three_samples 0 world0
     = (Raise (ZeroDivisionError msg), World (rng_pos world0 + 0) (written world0))) /\
  add_ptt_artifacts (E := plain_externals) three_samples (-100) world0
  = (Raise (ValueError "negative dimensions are not allowed"), world0).
Proof.
  split; [|split].
  - apply (@add_ptt_artifacts_failures plain_externals three_samples 4000 world0).
    + reflexivity.
    + unfold Qle. simpl. lia.
  - apply (@add_ptt_artifacts_failures plain_externals three_samples 0 world0).
    reflexivity.
  - apply (@add_ptt_artifacts_failures plain_externals three_samples (-100) world0).
    reflexivity.
Defined.

(** ** The background mixer: values and errors *)

Lemma lookup_np_tile (a : list Q) (reps i : nat) :
  (i < reps * length a)%nat -> np_tile a reps !! i = a !! (i mod length a)%nat.
Proof.
  revert i. induction reps as [|r IH]; intros i Hi; simpl in *; [lia|].
  destruct (Nat.lt_ge_cases i (length a)) as [Hlt|Hge].
  - rewrite lookup_app_l by exact Hlt. rewrite Nat.mod_small by exact Hlt. reflexivity.
  - rewrite lookup_app_r by exact Hge. rewrite IH by lia.
    f_equal. replace i with ((i - length a) + 1 * length a)%nat at 2 by lia.
    rewrite Nat.Div0.mod_add. reflexivity.
Qed.

(** What [mix_with_background] computes on two buffers that are not empty:
    the background is read cyclically, and the mix is rescaled when its
    peak exceeds 1. *)
Lemma mix_with_background_run (audio background_audio : list Q) (background_level : Q) :
  audio <> [] -> background_audio <> [] ->
  exists mixed peak,
    length mixed = length audio /\
    (forall i x, audio !! i = Some x ->
       mixed !! i
       = Some (x + background_audio !!! (i mod length background_audio)%nat * background_level)) /\
    np_max (np_abs mixed) = Ok peak /\
    mix_with_background audio background_audio background_level
    = Ok (if Qlt_bool 1 peak
          then np_scale (map (fun x => x / peak) mixed) (95 # 100)
          else mixed).
Proof.
  intros Ha Hb.
  assert (Hn : (0 < length audio)%nat) by (destruct audio; [congruence|simpl; lia]).
  assert (Hm : (0 < length background_audio)%nat)
    by (destruct background_audio; [congruence|simpl; lia]).
  unfold mix_with_background.
  set (adjust := if (length background_audio <? length audio)%nat then _ else _).
  assert (Hadj : exists bg, adjust = Ok bg /\ length bg = length audio /\
                            forall i, (i < length audio)%nat ->
                              bg !! i = background_audio !! (i mod length background_audio)%nat).
  { unfold adjust.
    destruct (length background_audio <? length audio)%nat eqn:Hlt.
    - rewrite py_div_ok by (apply Qpos_neq_0, inject_nat_pos; exact Hm).
      rewrite result_bind_ok.
      pose proof (tile_repetitions_cover (length audio) (length background_audio) Hm) as Hcover.
      eexists. split; [reflexivity|]. split.
      + rewrite length_take, length_np_tile. lia.
      + intros i Hi. rewrite lookup_take_lt by exact Hi.
        apply lookup_np_tile. lia.
    - apply Nat.ltb_ge in Hlt.
      destruct (length audio <? length background_audio)%nat eqn:Hgt.
      + apply Nat.ltb_lt in Hgt. eexists. split; [reflexivity|]. split.
        * rewrite length_take. lia.
        * intros i Hi. rewrite lookup_take_lt by exact Hi.
          rewrite Nat.mod_small by lia. reflexivity.
      + apply Nat.ltb_ge in Hgt. eexists. split; [reflexivity|]. split; [lia|].
        intros i Hi. rewrite Nat.mod_small by lia. reflexivity. }
  destruct Hadj as [bg [-> [Hbg Hcyc]]]. rewrite result_bind_ok.
  unfold np_add. rewrite np_binop_same_length by (rewrite length_np_scale; lia).
  rewrite result_bind_ok.
  set (mixed := zip_with Qplus audio _).
  assert (Hmixed : length mixed = length audio).
  { unfold mixed. apply length_zip_with_same. rewrite length_np_scale. lia. }
  destruct (np_max_nonempty (np_abs mixed)) as [peak Hpeak].
  { intros H0. apply (f_equal length) in H0. rewrite length_np_abs in H0.
    simpl in H0. lia. }
  exists mixed, peak. split; [exact Hmixed|]. split; [|split; [exact Hpeak|]].
  - intros i x Hx.
    assert (Hi : (i < length audio)%nat) by (eapply lookup_lt_Some; exact Hx).
    unfold mixed. rewrite lookup_zip_with, Hx. simpl.
    unfold np_scale. rewrite lookup_map_list, (Hcyc i Hi).
    destruct (lookup_lt_is_Some_2 background_audio (i mod length background_audio)%nat)
      as [y Hy]; [apply Nat.mod_upper_bound; lia|].
    rewrite Hy, (list_lookup_total_correct _ _ y Hy). reflexivity.
  - rewrite Hpeak, result_bind_ok.
    destruct (Qlt_bool 1 peak); reflexivity.
Qed.

(** X15.  On two buffers that are not empty the mix at index [i] is the
    audio sample plus the level times the background sample at
    [i mod len(background)]: a short background is repeated, a long one cut.
    A mix whose peak is at most 1 is returned as it is; a mix whose peak
    exceeds 1 is divided by its peak and scaled by 0.95, so that the peak of
    the output is exactly 0.95. *)
Theorem mix_with_background_values
    (audio background_audio : list Q) (background_level : Q) :
  audio <> [] -> background_audio <> [] ->
  exists mixed peak out,
    (forall i x, audio !! i = Some x ->
       mixed !! i
       = Some (x + background_audio !!! (i mod length background_audio)%nat * background_level)) /\
    np_max (np_abs mixed) = Ok peak /\
    mix_with_background audio background_audio background_level = Ok out /\
    (peak <= 1 -> out = mixed) /\
    (1 < peak ->
     out = np_scale (map (fun x => x / peak) mixed) (95 # 100) /\
     exists peak', np_max (np_abs out) = Ok peak' /\ peak' == 95 # 100).
Proof.
  intros Ha Hb.
  destruct (mix_with_background_run audio background_audio background_level Ha Hb)
    as [mixed [peak [Hlen [Hval [Hpeak Hrun]]]]].
  exists mixed, peak. eexists. split; [exact Hval|]. split; [exact Hpeak|].
  split; [exact Hrun|]. split.
  - intros Hle. rewrite (proj2 (Qlt_bool_false 1 peak) Hle). reflexivity.
  - intros Hgt. rewrite (proj2 (Qlt_bool_iff 1 peak) Hgt).
    split; [reflexivity|].
    assert (Hp0 : 0 < peak) by lra.
    set (out := np_scale (map (fun x => x / peak) mixed) (95 # 100)).
    assert (Hn : (0 < length audio)%nat) by (destruct audio; [congruence|simpl; lia]).
    destruct (np_max_nonempty (np_abs out)) as [peak' Hpeak'].
    { intros H0. apply (f_equal length) in H0. unfold out in H0.
      rewrite length_np_abs, length_np_scale, length_map in H0. simpl in H0. lia. }
    exists peak'. split; [exact Hpeak'|].
    apply Qle_antisym.
    + pose proof (np_max_In _ _ Hpeak') as Hin.
      unfold out, np_abs, np_scale in Hin. rewrite !map_map in Hin.
      apply in_map_iff in Hin. destruct Hin as [x [<- Hx]].
      assert (Hxp : Qabs x <= peak).
      { apply (np_max_upper _ _ _ Hpeak). unfold np_abs. apply in_map. exact Hx. }
      rewrite Qabs_Qmult, Qabs_div_pos by exact Hp0.
      rewrite (Qabs_pos (95 # 100)) by (unfold Qle; simpl; lia).
      assert (Hq : Qabs x / peak <= 1).
      { apply Qle_shift_div_r; [exact Hp0|]. lra. }
      nra.
    + pose proof (np_max_In _ _ Hpeak) as Hin.
      unfold np_abs in Hin. apply in_map_iff in Hin. destruct Hin as [x0 [Hx0 Hin0]].
      apply Qle_trans with (Qabs (x0 / peak * (95 # 100))).
      * rewrite Qabs_Qmult, Qabs_div_pos by exact Hp0.
        rewrite (Qabs_pos (95 # 100)) by (unfold Qle; simpl; lia).
        rewrite Hx0.
        assert (H1 : peak / peak == 1) by (field; apply Qpos_neq_0; exact Hp0).
        rewrite H1. lra.
      * apply (np_max_upper _ _ _ Hpeak').
        unfold out, np_abs, np_scale. rewrite !map_map.
        apply (in_map (fun x => Qabs (x / peak * (95 # 100)))). exact Hin0.
Qed.

(** X16.  The mixer raises on an empty buffer: [ValueError] when the audio
    is empty, whatever the background, and [ZeroDivisionError] when the
    background is empty and the audio is not. *)
Theorem mix_with_background_errors
    (audio background_audio : list Q) (background_level : Q) :
  (audio = [] ->
   exists msg,
     mix_with_background audio background_audio background_level = Raise (ValueError msg)) /\
  (audio <> [] -> background_audio = [] ->
   exists msg,
     mix_with_background audio background_audio background_level
     = Raise (ZeroDivisionError msg)).
Proof.
  split.
  - intros ->. unfold mix_with_background. simpl.
    destruct background_audio; simpl; eauto.
  - intros Ha ->. unfold mix_with_background.
    destruct audio as [|x rest]; [congruence|]. simpl. eauto.
Qed.

(** Whenever the mixer returns, the output has the audio's length. *)
Lemma mix_with_background_ok_length
    (audio background_audio : list Q) (background_level : Q) (out : list Q) :
  mix_with_background audio background_audio background_level = Ok out ->
  length out = length audio.
Proof.
  intros Hrun.
  destruct audio as [|x rest] eqn:Ha.
  { unfold mix_with_background in Hrun. simpl in Hrun.
    destruct background_audio; simpl in Hrun; discriminate Hrun. }
  destruct background_audio as [|y bg] eqn:Hb.
  { unfold mix_with_background in Hrun. simpl in Hrun. discriminate Hrun. }
  destruct (mix_with_background_run (x :: rest) (y :: bg) background_level)
    as [mixed [peak [Hlen [_ [_ Hrun']]]]]; [discriminate|discriminate|].
  rewrite Hrun in Hrun'. injection Hrun' as ->.
  destruct (Qlt_bool 1 peak); [|exact Hlen].
  rewrite length_np_scale, length_map. exact Hlen.
Qed.

Section Dust.
Context {E : Externals}.

Lemma add_dust_length (audio : list Q) (sr dust_level use_dust_effect : Q) :
  length (add_dust audio sr dust_level use_dust_effect) = length audio.
Proof.
  unfold add_dust. destruct (truthy use_dust_effect); [|reflexivity].
  destruct (dust_resource sr) as [[dust|e]|]; try reflexivity.
  destruct (mix_with_background audio dust dust_level) as [mixed|e] eqn:Hmix;
    [|reflexivity].
  exact (mix_with_background_ok_length _ _ _ _ Hmix).
Qed.

(** X17.  The dust stage never raises and never changes the length of the
    buffer, whatever the resource is; the buffer is returned as it is when
    the effect is switched off, when the resource is absent, when loading it
    fails and when mixing fails. *)
Theorem add_dust_safe (audio : list Q) (sr dust_level use_dust_effect : Q) :
  length (add_dust audio sr dust_level use_dust_effect) = length audio /\
  (use_dust_effect == 0 -> add_dust audio sr dust_level use_dust_effect = audio) /\
  (dust_resource sr = None -> add_dust audio sr dust_level use_dust_effect = audio) /\
  (forall e, dust_resource sr = Some (Raise e) ->
     add_dust audio sr dust_level use_dust_effect = audio) /\
  (forall dust e, dust_resource sr = Some (Ok dust) ->
     mix_with_background audio dust dust_level = Raise e ->
     add_dust audio sr dust_level use_dust_effect = audio).
Proof.
  split; [apply add_dust_length|].
  unfold add_dust, truthy. split; [|split; [|split]].
  - intros Hoff. rewrite (proj2 (Qeq_bool_iff _ _) Hoff). reflexivity.
  - intros ->. destruct (negb _); reflexivity.
  - intros e ->. destruct (negb _); reflexivity.
  - intros dust e -> ->. destruct (negb _); reflexivity.
Qed.

End Dust.

Lemma mix_with_background_values_witness :
  exists out peak',
    mix_with_background five_ones alternating_pair (2 # 10) = Ok out /\
    np_max (np_abs out) = Ok peak' /\
    peak' == 95 # 100.
Proof.
  destruct (mix_with_background_values five_ones alternating_pair (2 # 10))
    as [mixed [peak [out [Hval [Hpeak [Hrun [_ Hclip]]]]]]]; [discriminate|discriminate|].
  assert (Hloud : 1 < peak).
  { pose proof (Hval 0%nat 1 eq_refl) as H0.
    apply Qlt_le_trans with (Qabs (1 + alternating_pair !!! (0 mod length alternating_pair)%nat
                                       * (2 # 10))).
    - vm_compute. reflexivity.
    - apply (np_max_upper _ _ _ Hpeak). unfold np_abs. apply in_map.
      apply list_elem_of_In. apply list_elem_of_lookup. exists 0%nat. exact H0. }
  destruct (Hclip Hloud) as [_ [peak' [Hpeak' Heq]]].
  exists out, peak'. split; [exact Hrun|]. split; assumption.
Defined.

Lemma mix_with_background_errors_witness :
  (exists msg, mix_with_background [] [1; -1] (2 # 10) = Raise (ValueError msg)) /\
  (exists msg, mix_with_background [1; 1] [] (2 # 10) = Raise (ZeroDivisionError msg)).
Proof.
  split.
  - apply (mix_with_background_errors [] [1; -1] (2 # 10)). reflexivity.
  - apply (mix_with_background_errors [1; 1] [] (2 # 10)); [discriminate|reflexivity].
Defined.

Lemma add_dust_safe_witness :
  length (add_dust (E := plain_externals) three_samples 22050 (2 # 10) 1) = length three_samples /\
  add_dust (E := plain_externals) three_samples 22050 (2 # 10) 0 = three_samples /\
  add_dust (E := plain_externals) three_samples 22050 (2 # 10) 1 = three_samples.
Proof.
  destruct (@add_dust_safe plain_externals three_samples 22050 (2 # 10) 1)
    as [Hlen [_ [Habsent _]]].
  destruct (@add_dust_safe plain_externals three_samples 22050 (2 # 10) 0)
    as [_ [Hoff _]].
  split; [exact Hlen|]. split.
  - apply Hoff. reflexivity.
  - apply Habsent. reflexivity.
Defined.

(** ** The sample-rate reducer: rates and growth *)

Section ResamplingRates.
Context {E : Externals}.

(** X18.  [reduce_sample_rate] returns the buffer itself when the two
    rates are equal, whatever they are; with different rates it raises
    [ZeroDivisionError] for an original rate of zero and [ValueError] for a
    negative original rate or a target rate that is not positive. *)
Theorem reduce_sample_rate_rates (audio : list Q) (original_sr target_sr : Q) :
  (original_sr == target_sr ->
   reduce_sample_rate audio original_sr target_sr = Ok audio) /\
  (~ original_sr == target_sr -> original_sr == 0 ->
   exists msg,
     reduce_sample_rate audio original_sr target_sr = Raise (ZeroDivisionError msg)) /\
  (~ original_sr == target_sr -> original_sr < 0 \/ (0 < original_sr /\ target_sr <= 0) ->
   exists msg,
     reduce_sample_rate audio original_sr target_sr = Raise (ValueError msg)).
Proof.
  unfold reduce_sample_rate, librosa_resample. split; [|split].
  - intros Heq.
    rewrite (proj2 (Qeq_bool_iff _ _) Heq). rewrite result_bind_ok.
    symmetry in Heq. rewrite (proj2 (Qeq_bool_iff _ _) Heq). reflexivity.
  - intros Hne H0.
    rewrite (proj2 (Qeq_bool_false _ _) Hne).
    rewrite (py_div_by_zero target_sr original_sr H0). simpl. eauto.
  - intros Hne Hbad.
    rewrite (proj2 (Qeq_bool_false _ _) Hne).
    assert (Hnz : ~ original_sr == 0) by (intros H0; destruct Hbad as [H|[H _]]; lra).
    rewrite (py_div_ok target_sr original_sr Hnz), result_bind_ok.
    assert (Hcheck : Qle_bool original_sr 0 || Qle_bool target_sr 0 = true).
    { destruct Hbad as [H|[_ H]].
      - rewrite (proj2 (Qle_bool_iff original_sr 0)) by lra. reflexivity.
      - rewrite (proj2 (Qle_bool_iff target_sr 0) H). apply orb_true_r. }
    rewrite Hcheck. simpl. eauto.
Qed.

(** X19.  At positive rates the round trip to the target rate and back
    lengthens the buffer by at most [ceil(sr / target_sr)] samples. *)
Theorem reduce_sample_rate_growth (audio : list Q) (sr target_sr : Q) :
  0 < sr -> 0 < target_sr ->
  exists out,
    reduce_sample_rate audio sr target_sr = Ok out /\
    (length audio <= length out)%nat /\
    (length out <= length audio + Z.to_nat (Qceiling (sr / target_sr)))%nat.
Proof.
  intros Ho Ht.
  destruct (reduce_sample_rate_length audio sr target_sr Ho Ht) as [out [Hout Hlen]].
  exists out. split; [exact Hout|]. rewrite Hlen. split.
  - apply resample_length_round_trip; assumption.
  - apply resample_length_growth; assumption.
Qed.

End ResamplingRates.

Lemma reduce_sample_rate_rates_witness :
  reduce_sample_rate (E := plain_externals) three_samples 8000 8000 = Ok three_samples /\
  (exists msg, reduce_sample_rate (E := plain_externals) three_samples 0 8000
               = Raise (ZeroDivisionError msg)) /\
  (exists msg, reduce_sample_rate (E := plain_externals) three_samples 22050 (-8000)
               = Raise (ValueError msg)).
Proof.
  split; [|split].
  - apply (@reduce_sample_rate_rates plain_externals three_samples 8000 8000). reflexivity.
  - apply (@reduce_sample_rate_rates plain_externals three_samples 0 8000).
    + intros H. vm_compute in H. discriminate H.
    + reflexivity.
  - apply (@reduce_sample_rate_rates plain_externals three_samples 22050 (-8000)).
    + intros H. vm_compute in H. discriminate H.
    + right. split; [reflexivity|]. unfold Qle. simpl. lia.
Defined.

Lemma reduce_sample_rate_growth_witness :
  exists out,
    reduce_sample_rate (E := plain_externals) (replicate 100 0) 44100 8000 = Ok out /\
    (length (replicate 100 (0 : Q)) <= length out)%nat /\
    (length out <= length (replicate 100 (0 : Q)) + Z.to_nat (Qceiling (44100 / 8000)))%nat.
Proof.
  apply (@reduce_sample_rate_growth plain_externals (replicate 100 0) 44100 8000);
    reflexivity.
Defined.

(** ** The presets end to end *)

Lemma keeps_files_lift {A} (r : result A) : keeps_files (lift r).
Proof. intros w. reflexivity. Qed.

Lemma keeps_files_mret {A} (a : A) : keeps_files (mret a : M A).
Proof. intros w. reflexivity. Qed.

Lemma keeps_files_bind {A B} (c : M A) (k : A -> M B) :
  keeps_files c -> (forall a, keeps_files (k a)) -> keeps_files (c ≫= k).
Proof.
  intros Hc Hk w. unfold mbind, M_bind.
  specialize (Hc w). destruct (c w) as [[a|e] w1]; simpl in *.
  - rewrite (Hk a w1). exact Hc.
  - exact Hc.
Qed.

Section PresetRuns.
Context {E : Externals}.

Lemma keeps_files_np_random_normal (loc scale : Q) (size : Z) :
  keeps_files (np_random_normal loc scale size).
Proof.
  intros w. unfold np_random_normal.
  destruct (Qlt_bool scale 0); [reflexivity|].
  destruct (size <? 0)%Z; reflexivity.
Qed.

Ltac keeps_files_steps :=
  repeat first
    [ apply keeps_files_lift
    | apply keeps_files_mret
    | apply keeps_files_np_random_normal
    | apply keeps_files_bind; [|intros ?] ].

Lemma keeps_files_add_noise (audio : list Q) (noise_factor : Q) :
  keeps_files (add_noise audio noise_factor).
Proof. unfold add_noise. keeps_files_steps. Qed.

Lemma keeps_files_add_static_effect (audio : list Q) (static_level static_freq : Q) :
  keeps_files (add_static_effect audio static_level static_freq).
Proof. unfold add_static_effect. keeps_files_steps. Qed.

Lemma keeps_files_add_ptt_artifacts (audio : list Q) (sr : Q) :
  keeps_files (add_ptt_artifacts audio sr).
Proof. unfold add_ptt_artifacts. keeps_files_steps. Qed.

Lemma keeps_files_simulate_old_radio (audio : list Q) (sr : Q) (style_params : gmap string Q) :
  keeps_files (simulate_old_radio audio sr style_params).
Proof.
  unfold simulate_old_radio.
  repeat first
    [ apply keeps_files_lift | apply keeps_files_mret | apply keeps_files_add_noise
    | apply keeps_files_bind; [|intros ?] ].
Qed.

Lemma keeps_files_simulate_walkie_talkie
    (audio : list Q) (sr : Q) (style_params : gmap string Q) :
  keeps_files (simulate_walkie_talkie audio sr style_params).
Proof.
  unfold simulate_walkie_talkie.
  repeat first
    [ apply keeps_files_lift | apply keeps_files_mret | apply keeps_files_add_noise
    | apply keeps_files_add_static_effect | apply keeps_files_add_ptt_artifacts
    | apply keeps_files_bind; [|intros ?] ].
Qed.

Lemma keeps_files_call_with_style_params (name : string)
    (body : list Q -> Q -> gmap string Q -> M (list Q))
    (audio : list Q) (sr : Q) (style_params : gmap string Q) :
  keeps_files (body audio sr style_params) ->
  keeps_files (call_with_style_params name body audio sr style_params).
Proof.
  intros H. unfold call_with_style_params.
  destruct (style_params !! "audio"%string); [apply keeps_files_lift|].
  destruct (style_params !! "sr"%string); [apply keeps_files_lift|exact H].
Qed.

(** X20.  [process_audio] writes at most one file.  When it raises, in the
    load, in the dispatch or in a stage, the written files are as before;
    when it returns, the effect was "radio" or "walkie", the input file was
    loaded, and exactly one file has been added: the output file, at the
    sample rate of the input. *)
Theorem process_audio_files
    (input_file output_file effect_type : string) (style_params : gmap string Q) (w : world) :
  (forall e w',
     process_audio input_file output_file effect_type style_params w = (Raise e, w') ->
     written w' = written w) /\
  (forall w',
     process_audio input_file output_file effect_type style_params w = (Ok tt, w') ->
     (effect_type = "radio"%string \/ effect_type = "walkie"%string) /\
     exists audio sr out,
       librosa_load input_file = Ok (audio, sr) /\
       written w' = written w ++ [(output_file, (out, sr))]).
Proof.
  unfold process_audio.
  destruct (librosa_load input_file) as [[audio sr]|e0] eqn:Hload.
  2:{ split; [intros e w' [= <- <-]; reflexivity|intros w' H; discriminate H]. }
  rewrite (M_bind_lift_ok _ _ _ _ eq_refl). simpl.
  set (preset := if String.eqb effect_type "radio" then _ else _).
  assert (Hkeep : keeps_files preset).
  { unfold preset. destruct (String.eqb effect_type "radio");
      [apply keeps_files_call_with_style_params, keeps_files_simulate_old_radio|].
    destruct (String.eqb effect_type "walkie");
      [apply keeps_files_call_with_style_params, keeps_files_simulate_walkie_talkie
      |apply keeps_files_lift]. }
  assert (Hname : forall out w1, preset w = (Ok out, w1) ->
            effect_type = "radio"%string \/ effect_type = "walkie"%string).
  { unfold preset. intros out w1.
    destruct (String.eqb effect_type "radio") eqn:Hr;
      [intros _; left; apply String.eqb_eq; exact Hr|].
    destruct (String.eqb effect_type "walkie") eqn:Hw;
      [intros _; right; apply String.eqb_eq; exact Hw|].
    intros H. discriminate H. }
  specialize (Hkeep w). unfold mbind, M_bind.
  destruct (preset w) as [[out|e1] w1] eqn:Hrun; simpl in Hkeep.
  - split; [intros e w' H; discriminate H|].
    intros w' [= <-]. split; [exact (Hname out w1 eq_refl)|].
    exists audio, sr, out. split; [reflexivity|]. simpl. rewrite Hkeep. reflexivity.
  - split; [|intros w' H; discriminate H].
    intros e w' [= <- <-]. exact Hkeep.
Qed.

End PresetRuns.

Section PresetContracts.
Context {E : Externals} {HE : ExternalsOk E}.

Lemma length_apply_distortion (audio : list Q) (amount : Q) :
  length (apply_distortion audio amount) = length audio.
Proof. unfold apply_distortion. apply length_map. Qed.

Lemma length_apply_bit_crusher (audio : list Q) (bits : Q) :
  length (apply_bit_crusher audio bits) = length audio.
Proof. unfold apply_bit_crusher. apply length_map. Qed.

(** The guarded round trip of the radio preset at a target rate that is
    not negative. *)
Lemma degrade_ok (audio : list Q) (sr target_sample_rate : Q) :
  0 < sr -> 0 <= target_sample_rate ->
  exists out,
    degrade audio sr target_sample_rate = Ok out /\
    (length audio <= length out)%nat /\
    (target_sample_rate == 0 \/ sr <= target_sample_rate -> out = audio).
Proof.
  intros Hsr Ht.
  destruct (Qlt_le_dec target_sample_rate sr) as [Hlt|Hge].
  - destruct (Qeq_dec target_sample_rate 0) as [H0|Hne].
    + exists audio. unfold degrade, truthy.
      rewrite (proj2 (Qeq_bool_iff _ _) H0). simpl.
      split; [reflexivity|]. split; [lia|reflexivity].
    + assert (Hpos : 0 < target_sample_rate).
      { destruct (Qlt_le_dec 0 target_sample_rate) as [H|H]; [exact H|].
        exfalso. apply Hne. apply Qle_antisym; assumption. }
      rewrite (degrade_applied audio sr target_sample_rate Hpos Hlt).
      destruct (reduce_sample_rate_length audio sr target_sample_rate Hsr Hpos)
        as [out [Hout Hlen]].
      exists out. split; [exact Hout|]. split.
      * rewrite Hlen. apply resample_length_round_trip; assumption.
      * intros [H0|Hle]; [contradiction|]. lra.
  - exists audio. rewrite (degrade_skipped audio sr target_sample_rate Hge).
    split; [reflexivity|]. split; [lia|reflexivity].
Qed.

(** The run of the radio preset on valid parameters. *)
Lemma simulate_old_radio_run
    (audio : list Q) (sr : Q) (style_params : gmap string Q) (w : world) :
  (forall x, 0 <= x -> 0 <= np_sqrt x) ->
  0 < radio_low_cutoff (radio_style_params style_params) ->
  radio_low_cutoff (radio_style_params style_params)
  < radio_high_cutoff (radio_style_params style_params) ->
  radio_high_cutoff (radio_style_params style_params) < sr / 2 ->
  0 <= radio_target_sample_rate (radio_style_params style_params) ->
  (27 < length audio)%nat ->
  exists out,
    simulate_old_radio audio sr style_params w
    = (Ok out, World (rng_pos w + length audio) (written w)) /\
    (length audio <= length out)%nat /\
    (radio_target_sample_rate (radio_style_params style_params) == 0 \/
     sr <= radio_target_sample_rate (radio_style_params style_params) ->
     length out = length audio).
Proof.
  intros Hsqrt Hlow Hband Hhigh Htarget Hn.
  assert (Hsr : 0 < sr) by (rewrite half_rate in Hhigh; lra).
  unfold simulate_old_radio.
  set (p := radio_style_params style_params) in *.
  destruct (apply_bandpass_filter_ok audio sr _ _ Hlow Hband Hhigh Hn)
    as [filtered [Hfilt Hflen]].
  rewrite (M_bind_lift_ok _ _ _ _ Hfilt). cbv zeta.
  set (distorted := apply_distortion filtered (radio_distortion_amount p)).
  assert (Hdlen : length distorted = length audio).
  { unfold distorted. rewrite length_apply_distortion. exact Hflen. }
  destruct (add_noise_length distorted (radio_noise_factor p) w Hsqrt)
    as [noisy [Hnoise Hnlen]].
  rewrite (M_bind_ok _ _ _ _ _ Hnoise).
  destruct (degrade_ok noisy sr (radio_target_sample_rate p) Hsr Htarget)
    as [degraded [Hdeg [Hge Hsame]]].
  rewrite (M_bind_lift_ok _ _ _ _ Hdeg).
  eexists. split.
  - unfold mret, M_ret. rewrite Hdlen. reflexivity.
  - rewrite add_dust_length. split; [lia|].
    intros Hskip. rewrite (Hsame Hskip). lia.
Qed.


(** X22.  The radio preset rejects a band that is not
    [0 < low < high < sr/2], and every buffer of at most 27 samples, in its
    first stage: it raises with the state as it found it, no variate drawn.
    With the default upper edge of 3000 Hz this rejects every sample rate of
    at most 6000 Hz. *)
Theorem simulate_old_radio_rejects
    (audio : list Q) (sr : Q) (style_params : gmap string Q) (w : world) :
  (0 < sr ->
   radio_low_cutoff (radio_style_params style_params) <= 0 \/
   radio_high_cutoff (radio_style_params style_params)
   <= radio_low_cutoff (radio_style_params style_params) \/
   sr / 2 <= radio_high_cutoff (radio_style_params style_params) ->
   exists msg, simulate_old_radio audio sr style_params w = (Raise (ValueError msg), w)) /\
  ((length audio <= 27)%nat ->
   exists e, simulate_old_radio audio sr style_params w = (Raise e, w)) /\
  (0 < sr -> sr <= 6000 -> style_params !! "high_cutoff"%string = None ->
   exists msg, simulate_old_radio audio sr style_params w = (Raise (ValueError msg), w)).
Proof.
  assert (Hreject : 0 < sr ->
            sr / 2 <= radio_high_cutoff (radio_style_params style_params) ->
            exists msg, simulate_old_radio audio sr style_params w
                        = (Raise (ValueError msg), w)).
  { intros Hsr Hhigh. unfold simulate_old_radio.
    destruct (apply_bandpass_filter_above_nyquist audio sr
                (radio_low_cutoff (radio_style_params style_params)) _ Hsr Hhigh)
      as [msg Hmsg].
    rewrite (M_bind_lift_raise _ _ _ _ Hmsg). eauto. }
  split; [|split].
  - intros Hsr [Hlow|[Hinv|Hhigh]]; [| |exact (Hreject Hsr Hhigh)];
      unfold simulate_old_radio;
      (destruct (apply_bandpass_filter_bad_band audio sr
                   (radio_low_cutoff (radio_style_params style_params))
                   (radio_high_cutoff (radio_style_params style_params)) Hsr)
         as [msg Hmsg]; [tauto|]);
      rewrite (M_bind_lift_raise _ _ _ _ Hmsg); eauto.
  - intros Hn. unfold simulate_old_radio.
    destruct (apply_bandpass_filter_short audio sr
                (radio_low_cutoff (radio_style_params style_params))
                (radio_high_cutoff (radio_style_params style_params)) Hn) as [e He].
    rewrite (M_bind_lift_raise _ _ _ _ He). eauto.
  - intros Hsr Hle Habs. apply (Hreject Hsr).
    simpl. rewrite (get_absent _ _ _ Habs). rewrite half_rate. lra.
Qed.

(** At a positive sample rate the high-pass and the low-pass filter fail
    with a [ValueError] only. *)
Lemma single_cutoff_filter_value_error (bt : btype) (audio : list Q) (sr cutoff : Q) (e : exn) :
  0 < sr ->
  single_cutoff_filter bt audio sr cutoff = Raise e ->
  exists msg, e = ValueError msg.
Proof.
  intros Hsr. unfold single_cutoff_filter.
  rewrite py_div_ok by (apply Qpos_neq_0; lra). rewrite result_bind_ok.
  destruct (signal_butter 4 [cutoff / ((1 # 2) * sr)] bt) as [ba|e0] eqn:Hba.
  - rewrite result_bind_ok. unfold signal_filtfilt.
    destruct (_ <=? _)%nat; [intros [= <-]; eauto|discriminate].
  - rewrite result_bind_raise. intros [= <-].
    unfold signal_butter in Hba.
    repeat match type of Hba with
           | (if ?c then _ else _) = _ =>
               destruct c; [injection Hba as <-; eauto|]
           end.
    destruct bt;
      repeat match type of Hba with
             | (if ?c then _ else _) = _ =>
                 destruct c; [injection Hba as <-; eauto|]
             end; discriminate Hba.
Qed.

(** X23.  The walkie preset on valid parameters.  With a square root that
    is not negative, resolved cutoffs in [0 < cutoff < sr/2], a ratio that
    is not zero, an integral bit depth from 1 to 1024, a sample rate above
    6000 Hz and a buffer of more than 15 samples, the preset returns a
    buffer of the input's length plus twice the click length
    [c = int(0.03 * sr)]; it draws [c] variates for the click and one per
    output sample for the noise and for the static, and writes no file. *)
Theorem simulate_walkie_talkie_runs
    (audio : list Q) (sr : Q) (style_params : gmap string Q) (w : world) :
  (forall x, 0 <= x -> 0 <= np_sqrt x) ->
  0 < walkie_low_cutoff (walkie_style_params style_params) ->
  walkie_low_cutoff (walkie_style_params style_params) < sr / 2 ->
  0 < walkie_high_cutoff (walkie_style_params style_params) ->
  walkie_high_cutoff (walkie_style_params style_params) < sr / 2 ->
  ~ walkie_compression_ratio (walkie_style_params style_params) == 0 ->
  (exists b : Z, walkie_bit_depth (walkie_style_params style_params) == inject_Z b /\
                 (1 <= b <= 1024)%Z) ->
  6000 < sr ->
  (15 < length audio)%nat ->
  let c := Z.to_nat (py_int ((3 # 100) * sr)) in
  exists out,
    simulate_walkie_talkie audio sr style_params w
    = (Ok out,
       World (rng_pos w + c + (length audio + 2 * c) + (length audio + 2 * c)) (written w)) /\
    length out = (length audio + 2 * c)%nat.
Proof.
  intros Hsqrt Hl0 Hl1 Hh0 Hh1 Hratio _ Hsr Hn c.
  unfold simulate_walkie_talkie.
  set (p := walkie_style_params style_params) in *.
  destruct (single_cutoff_filter_contract HighPass audio sr (walkie_low_cutoff p)
              ltac:(discriminate)) as [Hhp _].
  destruct (Hhp Hl0 Hl1 Hn) as [a1 [Ha1 Hlen1]].
  change (single_cutoff_filter HighPass audio sr (walkie_low_cutoff p))
    with (apply_highpass_filter audio sr (walkie_low_cutoff p)) in Ha1.
  rewrite (M_bind_lift_ok _ _ _ _ Ha1).
  destruct (single_cutoff_filter_contract LowPass a1 sr (walkie_high_cutoff p)
              ltac:(discriminate)) as [Hlp _].
  destruct (Hlp Hh0 Hh1 ltac:(lia)) as [a2 [Ha2 Hlen2]].
  change (single_cutoff_filter LowPass a1 sr (walkie_high_cutoff p))
    with (apply_lowpass_filter a1 sr (walkie_high_cutoff p)) in Ha2.
  rewrite (M_bind_lift_ok _ _ _ _ Ha2).
  destruct (apply_compression_length a2 (3 # 10) (walkie_compression_ratio p)
              (walkie_attack_ms p) (walkie_release_ms p)) as [a3 [Ha3 Hlen3]].
  { intros H0. rewrite H0 in Hlen2. simpl in Hlen2. lia. }
  { exact Hratio. }
  rewrite (M_bind_lift_ok _ _ _ _ Ha3). cbv zeta.
  set (a5 := apply_bit_crusher (apply_distortion a3 (walkie_distortion_amount p))
                               (walkie_bit_depth p)).
  assert (Hlen5 : length a5 = length audio).
  { unfold a5. rewrite length_apply_bit_crusher, length_apply_distortion. lia. }
  destruct (add_ptt_artifacts_run a5 sr w Hsr) as [click [Hclick Hptt]].
  fold c in Hclick, Hptt.
  rewrite (M_bind_ok _ _ _ _ _ Hptt).
  set (a6 := click ++ a5 ++ np_scale (rev click) (15 # 100)).
  assert (Hlen6 : length a6 = (length audio + 2 * c)%nat).
  { unfold a6. rewrite !length_app, length_np_scale, length_rev. lia. }
  destruct (add_noise_length a6 (walkie_noise_factor p)
              (World (rng_pos w + c) (written w)) Hsqrt) as [a7 [Hnoise Hlen7]].
  rewrite (M_bind_ok _ _ _ _ _ Hnoise).
  destruct (add_static_effect_length a7 (walkie_static_level p) (3 # 10)
              (World (rng_pos (World (rng_pos w + c) (written w)) + length a6)
                     (written (World (rng_pos w + c) (written w)))))
    as [a8 [Hstatic Hlen8]].
  rewrite (M_bind_ok _ _ _ _ _ Hstatic).
  exists a8. split.
  - unfold mret, M_ret. simpl. rewrite Hlen7, Hlen6. reflexivity.
  - lia.
Qed.

(** X24.  The walkie preset rejects, at a positive sample rate, a cutoff
    that is not in [0 < cutoff < sr/2] with a [ValueError], and every buffer
    of at most 15 samples, in its first two stages: the state is as it was
    found, no variate drawn.  With the default low-pass cutoff of 4000 Hz
    this rejects every sample rate of at most 8000 Hz. *)
Theorem simulate_walkie_talkie_rejects
    (audio : list Q) (sr : Q) (style_params : gmap string Q) (w : world) :
  (0 < sr ->
   walkie_low_cutoff (walkie_style_params style_params) <= 0 \/
   sr / 2 <= walkie_low_cutoff (walkie_style_params style_params) \/
   walkie_high_cutoff (walkie_style_params style_params) <= 0 \/
   sr / 2 <= walkie_high_cutoff (walkie_style_params style_params) ->
   exists msg, simulate_walkie_talkie audio sr style_params w = (Raise (ValueError msg), w)) /\
  ((length audio <= 15)%nat ->
   exists e, simulate_walkie_talkie audio sr style_params w = (Raise e, w)) /\
  (0 < sr -> sr <= 8000 -> style_params !! "high_cutoff"%string = None ->
   exists msg, simulate_walkie_talkie audio sr style_params w = (Raise (ValueError msg), w)).
Proof.
  set (p := walkie_style_params style_params).
  assert (Hhigh : 0 < sr ->
            walkie_high_cutoff p <= 0 \/ sr / 2 <= walkie_high_cutoff p ->
            exists msg, simulate_walkie_talkie audio sr style_params w
                        = (Raise (ValueError msg), w)).
  { intros Hsr Hbad. unfold simulate_walkie_talkie. fold p.
    destruct (apply_highpass_filter audio sr (walkie_low_cutoff p)) as [a1|e] eqn:Ha1.
    - rewrite (M_bind_lift_ok _ _ _ _ eq_refl).
      destruct (single_cutoff_filter_contract LowPass a1 sr (walkie_high_cutoff p)
                  ltac:(discriminate)) as [_ [Hrej _]].
      destruct (Hrej Hsr Hbad) as [msg Hmsg].
      change (single_cutoff_filter LowPass a1 sr (walkie_high_cutoff p))
        with (apply_lowpass_filter a1 sr (walkie_high_cutoff p)) in Hmsg.
      rewrite (M_bind_lift_raise _ _ _ _ Hmsg). eauto.
    - destruct (single_cutoff_filter_value_error HighPass audio sr (walkie_low_cutoff p) e
                  Hsr Ha1) as [msg ->].
      rewrite (M_bind_lift_raise _ _ _ _ eq_refl). eauto. }
  split; [|split].
  - intros Hsr [Hl|[Hl|Hh]]; [| |destruct Hh as [Hh|Hh]; apply (Hhigh Hsr); tauto];
      unfold simulate_walkie_talkie; fold p;
      (destruct (single_cutoff_filter_contract HighPass audio sr (walkie_low_cutoff p)
                   ltac:(discriminate)) as [_ [Hrej _]]);
      (destruct (Hrej Hsr ltac:(tauto)) as [msg Hmsg]);
      change (single_cutoff_filter HighPass audio sr (walkie_low_cutoff p))
        with (apply_highpass_filter audio sr (walkie_low_cutoff p)) in Hmsg;
      rewrite (M_bind_lift_raise _ _ _ _ Hmsg); eauto.
  - intros Hn. unfold simulate_walkie_talkie. fold p.
    destruct (single_cutoff_filter_contract HighPass audio sr (walkie_low_cutoff p)
                ltac:(discriminate)) as [_ [_ [_ Hshort]]].
    destruct (Hshort Hn) as [e He].
    change (single_cutoff_filter HighPass audio sr (walkie_low_cutoff p))
      with (apply_highpass_filter audio sr (walkie_low_cutoff p)) in He.
    rewrite (M_bind_lift_raise _ _ _ _ He). eauto.
  - intros Hsr Hle Habs. apply (Hhigh Hsr). right.
    unfold p. simpl. rewrite (get_absent _ _ _ Habs). rewrite half_rate. lra.
Qed.

End PresetContracts.

Lemma plain_radio_run :
  exists out,
    simulate_old_radio (E := plain_externals) (replicate 40 (1 # 2)) 22050 ∅ world0
    = (Ok out, World (rng_pos world0 + length (replicate 40 (1 # 2))) (written world0)) /\
    (length (replicate 40 (1 # 2)) <= length out)%nat.
Proof.
  destruct (@simulate_old_radio_run plain_externals plain_externals_ok
              (replicate 40 (1 # 2)) 22050 ∅ world0) as [out [Hrun [Hlen _]]].
  - exact plain_sqrt_nonneg.
  - reflexivity.
  - reflexivity.
  - reflexivity.
  - discriminate.
  - rewrite length_replicate. lia.
  - exists out. split; assumption.
Qed.

Lemma plain_process_audio_run :
  exists out,
    process_audio (E := plain_externals) "in.wav" "out.wav" "radio" ∅ world0
    = (Ok tt, World (rng_pos world0 + length (replicate 40 (1 # 2)))
                    (written world0 ++ [("out.wav"%string, (out, 22050))])).
Proof.
  destruct plain_radio_run as [out0 [Hradio _]].
  exists out0. unfold process_audio.
  rewrite (M_bind_lift_ok _ _ _ _
             (eq_refl : librosa_load (Externals := plain_externals) "in.wav"
                        = Ok (replicate 40 (1 # 2), 22050))).
  change (String.eqb "radio" "radio") with true. cbv iota.
  change (fst (replicate 40 (1 # 2), 22050)) with (replicate 40 (1 # 2)).
  change (snd (replicate 40 (1 # 2), 22050)) with (22050 : Q).
  rewrite call_with_style_params_bound by apply lookup_empty.
  rewrite (M_bind_ok _ _ _ _ _ Hradio). reflexivity.
Qed.

Lemma process_audio_files_witness :
  exists w' audio sr out,
    process_audio (E := plain_externals) "in.wav" "out.wav" "radio" ∅ world0 = (Ok tt, w') /\
    librosa_load (Externals := plain_externals) "in.wav" = Ok (audio, sr) /\
    written w' = written world0 ++ [("out.wav"%string, (out, sr))].
Proof.
  destruct plain_process_audio_run as [out0 Hrun].
  destruct (@process_audio_files plain_externals "in.wav" "out.wav" "radio" ∅ world0)
    as [_ Hok].
  destruct (Hok _ Hrun) as [_ [audio [sr [out [Hload Hwritten]]]]].
  eexists. exists audio, sr, out. split; [exact Hrun|]. split; assumption.
Defined.

(** C9 as stated fails: the name [sr] is in neither table, yet an override
    of that name is not ignored.  A file of forty samples at 22050 Hz goes
    through the radio preset without overrides; with [sr=8000] among the
    keyword arguments the call of the preset raises [TypeError], and no
    file is written. *)
Lemma style_params_positional_counterexample :
  ~ In "sr"%string (map fst radio_default_table) /\
  ~ In "sr"%string (map fst walkie_default_table) /\
  (exists w',
     process_audio (E := plain_externals) "in.wav" "out.wav" "radio" ∅ world0 = (Ok tt, w')) /\
  (exists msg,
     process_audio (E := plain_externals) "in.wav" "out.wav" "radio"
                   {[ "sr"%string := 8000 ]} world0
     = (Raise (TypeError msg), world0)).
Proof.
  split; [|split; [|split]].
  - simpl. intros H. repeat (destruct H as [H|H]; [discriminate H|]). exact H.
  - simpl. intros H. repeat (destruct H as [H|H]; [discriminate H|]). exact H.
  - destruct plain_process_audio_run as [out Hrun]. eexists. exact Hrun.
  - unfold process_audio.
    rewrite (M_bind_lift_ok _ _ _ _
               (eq_refl : librosa_load (Externals := plain_externals) "in.wav"
                          = Ok (replicate 40 (1 # 2), 22050))).
    change (String.eqb "radio" "radio") with true. cbv iota.
    destruct (call_with_style_params_duplicate "simulate_old_radio"
                (@simulate_old_radio plain_externals)
                (fst (replicate 40 (1 # 2), 22050)) (snd (replicate 40 (1 # 2), 22050 : Q))
                {[ "sr"%string := 8000 ]} world0) as [msg Hcall].
    { right. rewrite lookup_singleton_eq. eauto. }
    exists msg. apply M_bind_raise. exact Hcall.
Qed.

(** ** The parameters that the HTTP API hands over *)

Lemma StyleParams_names_NoDup : NoDup StyleParams_names.
Proof. apply (bool_decide_unpack _). vm_compute. reflexivity. Qed.

Lemma StyleParams_fields_names (p : StyleParams) :
  map fst (StyleParams_fields p) = StyleParams_names.
Proof. reflexivity. Qed.

(** A dictionary built from named optional values with distinct names holds
    exactly the values that are set. *)
Lemma lookup_exclude_none (l : list (string * option Q)) :
  NoDup (map fst l) ->
  (forall k o, In (k, o) l ->
     fold_right
       (fun kv acc => match snd kv with Some v => <[fst kv := v]> acc | None => acc end)
       (∅ : gmap string Q) l !! k = o) /\
  (forall k, ~ In k (map fst l) ->
     fold_right
       (fun kv acc => match snd kv with Some v => <[fst kv := v]> acc | None => acc end)
       (∅ : gmap string Q) l !! k = None).
Proof.
  induction l as [|[k0 o0] l IH]; intros Hnd; simpl.
  - split; [intros k o []|intros k _; apply lookup_empty].
  - apply NoDup_cons in Hnd. destruct Hnd as [Hk0 Hnd].
    rewrite list_elem_of_In in Hk0.
    destruct (IH Hnd) as [IHin IHout].
    split.
    + intros k o [Heq|Hin].
      * injection Heq as -> ->. destruct o as [v|].
        -- apply lookup_insert_eq.
        -- apply IHout. exact Hk0.
      * assert (Hne : k0 <> k).
        { intros ->. apply Hk0. apply in_map_iff. exists (k, o). split; [reflexivity|exact Hin]. }
        destruct o0 as [v|]; [rewrite lookup_insert_ne by exact Hne|]; apply IHin; exact Hin.
    + intros k Hk.
      assert (Hne : k0 <> k) by (intros ->; apply Hk; left; reflexivity).
      assert (Hout : ~ In k (map fst l)) by (intros H; apply Hk; right; exact H).
      destruct o0 as [v|]; [rewrite lookup_insert_ne by exact Hne|]; apply IHout; exact Hout.
Qed.

Section ApiParameters.
Context {E : Externals}.

(** X25.  The keyword arguments that [api_server.py] hands to
    [process_audio] hold each field of the request that is set, under the
    field's name, and nothing else; a request without a parameter block
    hands over none.  The names "dust_level" and "use_dust_effect" are not
    fields, so through the API the radio preset always runs with the dust
    level 0.2 and the dust effect switched on. *)
Theorem request_style_params_keys (style_params : option StyleParams) :
  (forall p name o, style_params = Some p -> In (name, o) (StyleParams_fields p) ->
     request_style_params style_params !! name = o) /\
  (forall name, ~ In name StyleParams_names ->
     request_style_params style_params !! name = None) /\
  (style_params = None -> request_style_params style_params = ∅) /\
  radio_dust_level (radio_style_params (request_style_params style_params)) = 2 # 10 /\
  radio_use_dust_effect (radio_style_params (request_style_params style_params)) = 1.
Proof.
  assert (Hout : forall name, ~ In name StyleParams_names ->
            request_style_params style_params !! name = None).
  { intros name Hname. destruct style_params as [p|]; simpl; [|apply lookup_empty].
    unfold dict_exclude_none.
    apply (lookup_exclude_none (StyleParams_fields p)).
    - rewrite StyleParams_fields_names. exact StyleParams_names_NoDup.
    - rewrite StyleParams_fields_names. exact Hname. }
  split; [|split; [exact Hout|split; [intros ->; reflexivity|]]].
  - intros p name o -> Hin. simpl. unfold dict_exclude_none.
    apply (lookup_exclude_none (StyleParams_fields p)); [|exact Hin].
    rewrite StyleParams_fields_names. exact StyleParams_names_NoDup.
  - split; simpl; apply get_absent, Hout; simpl;
      intros H; repeat (destruct H as [H|H]; [discriminate H|]); exact H.
Qed.

Lemma request_style_params_outside (style_params : option StyleParams) (name : string) :
  ~ In name StyleParams_names -> request_style_params style_params !! name = None.
Proof.
  intros Hname. destruct style_params as [p|]; simpl; [|apply lookup_empty].
  unfold dict_exclude_none.
  apply (lookup_exclude_none (StyleParams_fields p)).
  - rewrite StyleParams_fields_names. exact StyleParams_names_NoDup.
  - rewrite StyleParams_fields_names. exact Hname.
Qed.

(** X26.  No request of the HTTP API gives a positional parameter of a
    preset a second value: [audio] and [sr] are not fields of
    [StyleParams], so with the keyword arguments of a request the call of a
    preset always runs its body, whatever fields are set. *)
Theorem request_style_params_reach_body (style_params : option StyleParams)
    (fname : string) (body : list Q -> Q -> gmap string Q -> M (list Q))
    (audio : list Q) (sr : Q) :
  request_style_params style_params !! "audio"%string = None /\
  request_style_params style_params !! "sr"%string = None /\
  call_with_style_params fname body audio sr (request_style_params style_params)
  = body audio sr (request_style_params style_params).
Proof.
  assert (Ha : request_style_params style_params !! "audio"%string = None).
  { apply request_style_params_outside. simpl.
    intros H; repeat (destruct H as [H|H]; [discriminate H|]); exact H. }
  assert (Hs : request_style_params style_params !! "sr"%string = None).
  { apply request_style_params_outside. simpl.
    intros H; repeat (destruct H as [H|H]; [discriminate H|]); exact H. }
  split; [exact Ha|]. split; [exact Hs|].
  apply call_with_style_params_bound; assumption.
Qed.

End ApiParameters.

(** ** The further properties on concrete inputs *)

Lemma apply_distortion_unit_gain_witness :
  same_values (apply_distortion (apply_distortion [1 # 3; -7 # 10; 5] (12 # 10)) 1)
              (apply_distortion [1 # 3; -7 # 10; 5] (12 # 10)) /\
  same_values (apply_distortion [1 # 3; -7 # 10; 1] 1) [1 # 3; -7 # 10; 1].
Proof.
  destruct (apply_distortion_unit_gain [1 # 3; -7 # 10; 5] (12 # 10)) as [Hidem _].
  destruct (apply_distortion_unit_gain [1 # 3; -7 # 10; 1] (12 # 10)) as [_ Hkeep].
  split; [exact Hidem|]. apply Hkeep.
  unfold within_unit. repeat constructor; unfold Qle; simpl; lia.
Defined.

Lemma single_cutoff_filters_contract_witness :
  (exists out, apply_highpass_filter (E := plain_externals) (replicate 40 (1 # 2)) 22050 300
               = Ok out /\ length out = length (replicate 40 (1 # 2))) /\
  (exists msg, apply_lowpass_filter (E := plain_externals) (replicate 40 (1 # 2)) 8000 4000
               = Raise (ValueError msg)) /\
  (exists msg, apply_highpass_filter (E := plain_externals) (replicate 40 (1 # 2)) 0 300
               = Raise (ZeroDivisionError msg)) /\
  (exists e, apply_lowpass_filter (E := plain_externals) three_samples 22050 4000 = Raise e).
Proof.
  split; [|split; [|split]].
  - apply (@single_cutoff_filters_contract plain_externals plain_externals_ok
             (replicate 40 (1 # 2)) 22050 300); try reflexivity.
    rewrite length_replicate. lia.
  - apply (@single_cutoff_filters_contract plain_externals plain_externals_ok
             (replicate 40 (1 # 2)) 8000 4000); [reflexivity|].
    right. unfold Qle. simpl. lia.
  - apply (@single_cutoff_filters_contract plain_externals plain_externals_ok
             (replicate 40 (1 # 2)) 0 300). reflexivity.
  - apply (@single_cutoff_filters_contract plain_externals plain_externals_ok
             three_samples 22050 4000). simpl. lia.
Defined.

Lemma apply_bandpass_filter_invalid_band_witness :
  (exists msg, apply_bandpass_filter (E := plain_externals) (replicate 40 (1 # 2)) 22050 3000 300
               = Raise (ValueError msg)) /\
  (exists msg, apply_bandpass_filter (E := plain_externals) (replicate 40 (1 # 2)) 0 300 3000
               = Raise (ZeroDivisionError msg)).
Proof.
  split.
  - apply (@apply_bandpass_filter_invalid_band plain_externals
             (replicate 40 (1 # 2)) 22050 3000 300); [reflexivity|].
    right. unfold Qle. simpl. lia.
  - apply (@apply_bandpass_filter_invalid_band plain_externals
             (replicate 40 (1 # 2)) 0 300 3000). reflexivity.
Defined.


Lemma simulate_old_radio_rejects_witness :
  (exists msg, simulate_old_radio (E := plain_externals) (replicate 40 (1 # 2)) 22050
                 {[ "high_cutoff"%string := 12000 ]} world0
               = (Raise (ValueError msg), world0)) /\
  (exists e, simulate_old_radio (E := plain_externals) three_samples 22050 ∅ world0
             = (Raise e, world0)) /\
  (exists msg, simulate_old_radio (E := plain_externals) (replicate 40 (1 # 2)) 6000 ∅ world0
               = (Raise (ValueError msg), world0)).
Proof.
  destruct (@simulate_old_radio_rejects plain_externals plain_externals_ok
              (replicate 40 (1 # 2)) 22050 {[ "high_cutoff"%string := 12000 ]} world0)
    as [Hband _].
  destruct (@simulate_old_radio_rejects plain_externals plain_externals_ok
              three_samples 22050 ∅ world0) as [_ [Hshort _]].
  destruct (@simulate_old_radio_rejects plain_externals plain_externals_ok
              (replicate 40 (1 # 2)) 6000 ∅ world0) as [_ [_ Hdefault]].
  split; [|split].
  - apply Hband; [reflexivity|].
    right. right. vm_compute. discriminate.
  - apply Hshort. simpl. lia.
  - apply Hdefault; [reflexivity| |reflexivity].
    unfold Qle. simpl. lia.
Defined.

Lemma simulate_walkie_talkie_runs_witness :
  let c := Z.to_nat (py_int ((3 # 100) * 22050)) in
  exists out,
    simulate_walkie_talkie (E := plain_externals) (replicate 40 (1 # 2)) 22050 ∅ world0
    = (Ok out,
       World (rng_pos world0 + c + (length (replicate 40 (1 # 2)) + 2 * c)
              + (length (replicate 40 (1 # 2)) + 2 * c)) (written world0)) /\
    length out = (length (replicate 40 (1 # 2)) + 2 * c)%nat.
Proof.
  apply (@simulate_walkie_talkie_runs plain_externals plain_externals_ok
           (replicate 40 (1 # 2)) 22050 ∅ world0).
  - exact plain_sqrt_nonneg.
  - reflexivity.
  - reflexivity.
  - reflexivity.
  - reflexivity.
  - intros H. vm_compute in H. discriminate H.
  - exists 8%Z. split; [reflexivity|lia].
  - reflexivity.
  - rewrite length_replicate. lia.
Defined.

Lemma simulate_walkie_talkie_rejects_witness :
  (exists msg, simulate_walkie_talkie (E := plain_externals) (replicate 40 (1 # 2)) 22050
                 {[ "low_cutoff"%string := 0 ]} world0
               = (Raise (ValueError msg), world0)) /\
  (exists e, simulate_walkie_talkie (E := plain_externals) three_samples 22050 ∅ world0
             = (Raise e, world0)) /\
  (exists msg, simulate_walkie_talkie (E := plain_externals) (replicate 40 (1 # 2)) 8000 ∅ world0
               = (Raise (ValueError msg), world0)).
Proof.
  destruct (@simulate_walkie_talkie_rejects plain_externals plain_externals_ok
              (replicate 40 (1 # 2)) 22050 {[ "low_cutoff"%string := 0 ]} world0)
    as [Hcutoff _].
  destruct (@simulate_walkie_talkie_rejects plain_externals plain_externals_ok
              three_samples 22050 ∅ world0) as [_ [Hshort _]].
  destruct (@simulate_walkie_talkie_rejects plain_externals plain_externals_ok
              (replicate 40 (1 # 2)) 8000 ∅ world0) as [_ [_ Hdefault]].
  split; [|split].
  - apply Hcutoff; [reflexivity|].
    left. vm_compute. discriminate.
  - apply Hshort. simpl. lia.
  - apply Hdefault; [reflexivity| |reflexivity].
    unfold Qle. simpl. lia.
Defined.

Lemma request_style_params_keys_witness :
  request_style_params (Some two_field_block) !! "high_cutoff"%string = Some 2500 /\
  request_style_params (Some two_field_block) !! "low_cutoff"%string = None /\
  request_style_params (Some two_field_block) !! "dust_level"%string = None /\
  request_style_params None = ∅.
Proof.
  destruct (request_style_params_keys (Some two_field_block)) as [Hset [Hout _]].
  destruct (request_style_params_keys None) as [_ [_ [Hnone _]]].
  split; [|split; [|split]].
  - apply (Hset two_field_block "high_cutoff"%string (Some 2500)); [reflexivity|].
    simpl. tauto.
  - apply (Hset two_field_block "low_cutoff"%string None); [reflexivity|].
    simpl. tauto.
  - apply Hout. simpl.
    intros H. repeat (destruct H as [H|H]; [discriminate H|]). exact H.
  - apply Hnone. reflexivity.
Defined.
